(** * BananaBrush: the client-side mask, crop, placement and expansion pipeline

    A shallow embedding of [src/components/ImageEditor.tsx],
    [src/components/ImageCropper.tsx] and the handlers of [src/App.tsx].

    Conventions of the embedding.
    - React state ([useState]) is a record; a handler is a function from the
      state committed by the last render to the state committed by the next.
      A [setX] call inside a handler is visible only after the handler has
      returned, so a function called from inside the handler still reads the
      value of the render that created it.  Refs ([useRef]) change at once.
    - Integers of the program (pixel sizes, counters, bytes) are [Z].
      Pointer positions are JavaScript numbers; the geometry of strokes,
      drags and previews is embedded over exact rationals [Q], placement
      geometry over exact reals [R] (degrees, [sin], [cos]), without the
      rounding of IEEE doubles.  Where a number is turned into an integer,
      the size of the crop canvas, the product is computed in binary64
      ([Double]), rounding included.
    - A 2D canvas is either a byte array (the stroke canvas, read back with
      [getImageData]) or the list of drawing calls issued on it.
    - An awaited external call is a parameter giving its settled outcome. *)

From Stdlib Require Import ZArith QArith Qround Qabs Qminmax Reals Lra Lia List String Bool.
From Stdlib Require SpecFloat.
From stdpp Require Import base list.
Import ListNotations.
Local Open Scope Z_scope.

(** ** DOM values shared by the components *)

Module DOM.

(** How a JavaScript call ends. *)
Inductive Outcome (A : Type) : Type :=
| Returned (a : A)
| Threw (name : string).
Arguments Returned {A} a.
Arguments Threw {A} name.

(** How an awaited promise settles. *)
Inductive Settled (A : Type) : Type :=
| Resolved (a : A)
| Rejected (message : string).
Arguments Resolved {A} a.
Arguments Rejected {A} message.

(** [element.getBoundingClientRect()]. *)
Record DOMRect := {
  rect_left : Q;
  rect_top : Q;
  rect_width : Q;
  rect_height : Q
}.

(** A React mouse or touch event: [clientX]/[clientY], or the list
    [nativeEvent.touches]. *)
Inductive PointerEvent :=
| MouseEvent (clientX clientY : Q)
| TouchEvent (touches : list (Q * Q)).

(** The [clientX]/[clientY] pair both [getCoords] functions read;
    [None] is their [return null] on an event without touch points. *)
Definition clientPoint (e : PointerEvent) : option (Q * Q) :=
  match e with
  | TouchEvent [] => None
  | TouchEvent (t :: _) => Some t
  | MouseEvent clientX clientY => Some (clientX, clientY)
  end.

Definition Qltb (a b : Q) : bool := negb (Qle_bool b a).

(** WebIDL conversion of a number to [unsigned long]: truncate toward zero,
    then reduce modulo 2^32. *)
Definition Qtruncate (q : Q) : Z :=
  if Qltb q 0 then Qceiling q else Qfloor q.

Definition toUnsignedLong (q : Q) : Z := Qtruncate q mod 2 ^ 32.

(** Assigning [canvas.width] or [canvas.height]: the attribute reflects an
    [unsigned long]; a value above 2147483647 falls back to the default. *)
Definition setDimension (default : Z) (q : Q) : Z :=
  let n := toUnsignedLong q in
  if n <=? 2147483647 then n else default.

Definition defaultWidth : Z := 300.
Definition defaultHeight : Z := 150.

(** [Math.round]: nearest integer, halves toward plus infinity. *)
Definition Math_round (q : Q) : Z := Qfloor (q + (1 # 2)).

End DOM.

(** ** JavaScript numbers: IEEE 754 binary64, round to nearest even *)

Module Double.
Import DOM.

Definition double : Type := SpecFloat.spec_float.

Definition prec : Z := 53.
Definition emax : Z := 1024.

(** [a * b] and [a / b]. *)
Definition mul : double -> double -> double := SpecFloat.SFmul prec emax.
Definition div : double -> double -> double := SpecFloat.SFdiv prec emax.

(** The double nearest to an integer, and to a rational: the quotient of
    numerator and denominator, rounded once.  A rational that is the value
    of a double is converted exactly. *)
Definition ofZ (z : Z) : double := SpecFloat.binary_normalize prec emax z 0 false.

Definition ofQ (q : Q) : double :=
  match Qnum q with
  | Z0 => SpecFloat.S754_zero false
  | Zpos n =>
    div (SpecFloat.S754_finite false n 0) (SpecFloat.S754_finite false (Qden q) 0)
  | Zneg n =>
    div (SpecFloat.S754_finite true n 0) (SpecFloat.S754_finite false (Qden q) 0)
  end.

(** The value of a finite double; none for NaN and the infinities. *)
Definition valueOf (d : double) : option Q :=
  match d with
  | SpecFloat.S754_zero _ => Some 0%Q
  | SpecFloat.S754_finite s m e =>
    let magnitude :=
      match e with
      | Z0 => inject_Z (Zpos m)
      | Zpos k => inject_Z (Zpos m * 2 ^ Zpos k)
      | Zneg k => Qmake (Zpos m) (2 ^ k)%positive
      end in
    Some (if s then Qopp magnitude else magnitude)
  | _ => None
  end.

(** Assigning a double to [canvas.width] or [canvas.height]: NaN and the
    infinities convert to 0. *)
Definition setDimensionOfDouble (default : Z) (v : double) : Z :=
  setDimension default
    (match valueOf v with
     | Some q => q
     | None => 0%Q
     end).

End Double.

(** ** ImageEditor.tsx: the stroke canvas and its binary mask *)

Module Editor.
Import DOM.

(** The drawing canvas element: backing-store size, on-screen rectangle,
    whether [getContext('2d')] yields a context, and the backing store as
    RGBA bytes in row-major order. *)
Record Canvas := {
  width : Z;
  height : Z;
  rect : DOMRect;
  context2d : bool;
  bitmap : list Z
}.

Definition set_bitmap (b : list Z) (c : Canvas) : Canvas :=
  {| width := width c; height := height c; rect := rect c;
     context2d := context2d c; bitmap := b |}.

(** [ImageData]: [data] with its [width] and [height]. *)
Record ImageData := {
  data : list Z;
  sw : Z;
  sh : Z
}.

(** The string [getMaskAsBase64] returns: [''] or the base64 PNG of the mask
    canvas, which determines the mask's pixels. *)
Inductive Base64 :=
| EmptyStr
| PngOf (img : ImageData).

(** JavaScript truthiness of such a string. *)
Definition truthy (s : Base64) : bool :=
  match s with EmptyStr => false | PngOf _ => true end.

(** Component state: [isDrawing] (state), [lastPoint] (ref),
    [drawingCanvasRef.current], and the [brushSize] prop. *)
Record Editor := {
  isDrawing : bool;
  lastPoint : option (Q * Q);
  drawingCanvas : option Canvas;
  brushSize : Z
}.

Definition set_isDrawing (b : bool) (ed : Editor) : Editor :=
  {| isDrawing := b; lastPoint := lastPoint ed;
     drawingCanvas := drawingCanvas ed; brushSize := brushSize ed |}.

Definition set_lastPoint (p : option (Q * Q)) (ed : Editor) : Editor :=
  {| isDrawing := isDrawing ed; lastPoint := p;
     drawingCanvas := drawingCanvas ed; brushSize := brushSize ed |}.

Definition set_drawingCanvas (c : option Canvas) (ed : Editor) : Editor :=
  {| isDrawing := isDrawing ed; lastPoint := lastPoint ed;
     drawingCanvas := c; brushSize := brushSize ed |}.

Definition getCoords (ed : Editor) (e : PointerEvent) : option (Q * Q) :=
  match drawingCanvas ed with
  | None => None
  | Some canvas =>
    match clientPoint e with
    | None => None
    | Some (clientX, clientY) =>
      let scaleX := (inject_Z (width canvas) / rect_width (rect canvas))%Q in
      let scaleY := (inject_Z (height canvas) / rect_height (rect canvas))%Q in
      let canvasX := ((clientX - rect_left (rect canvas)) * scaleX)%Q in
      let canvasY := ((clientY - rect_top (rect canvas)) * scaleY)%Q in
      Some (canvasX, canvasY)
    end
  end.

(** One [beginPath(); moveTo; lineTo; stroke()] with stroke style
    [rgba(255, 255, 255, 0.5)], round caps and round joins. *)
Record Stroke := {
  from : Q * Q;
  to : Q * Q;
  lineWidth : Q
}.

Section Drawing.

(** The browser's rasteriser: the backing store after a stroke. *)
Variable stroke : Stroke -> Canvas -> list Z.

(** [draw], with the [isDrawing] value captured by the render whose closure
    is running. *)
Definition draw (rendered_isDrawing : bool) (e : PointerEvent) (ed : Editor) : Editor :=
  if negb rendered_isDrawing then ed
  else
    match drawingCanvas ed with
    | None => ed
    | Some canvas =>
      if negb (context2d canvas) then ed
      else
        match getCoords ed e, lastPoint ed with
        | Some coords, Some last =>
          let scale := (inject_Z (width canvas) / rect_width (rect canvas))%Q in
          let s := {| from := last; to := coords;
                      lineWidth := (inject_Z (brushSize ed) * scale)%Q |} in
          set_lastPoint (Some coords)
            (set_drawingCanvas (Some (set_bitmap (stroke s canvas) canvas)) ed)
        | _, _ => ed
        end
    end.

(** [onMouseDown]/[onTouchStart].  [setIsDrawing(true)] is queued; the call
    [draw(e)] below it runs the closure of the current render. *)
Definition startDrawing (e : PointerEvent) (ed : Editor) : Editor :=
  let ed1 :=
    match getCoords ed e with
    | Some coords => draw (isDrawing ed) e (set_lastPoint (Some coords) ed)
    | None => ed
    end in
  set_isDrawing true ed1.

(** [onMouseMove]/[onTouchMove]. *)
Definition onMove (e : PointerEvent) (ed : Editor) : Editor :=
  draw (isDrawing ed) e ed.

(** [onMouseUp]/[onMouseLeave]/[onTouchEnd]. *)
Definition stopDrawing (e : PointerEvent) (ed : Editor) : Editor :=
  if negb (isDrawing ed) then ed
  else set_lastPoint None (set_isDrawing false ed).

(** A tap: pointer down, then pointer up, no move between them. *)
Definition tap (down up : PointerEvent) (ed : Editor) : Editor :=
  stopDrawing up (startDrawing down ed).

End Drawing.

(** [clearRect(0, 0, width, height)]: every byte becomes 0. *)
Definition clearCanvas (ed : Editor) : Editor :=
  match drawingCanvas ed with
  | Some canvas =>
    if context2d canvas
    then set_drawingCanvas
           (Some (set_bitmap (replicate (length (bitmap canvas)) 0) canvas)) ed
    else ed
  | None => ed
  end.

(** [ctx.getImageData(0, 0, canvas.width, canvas.height)]; a zero width or
    height raises [IndexSizeError]. *)
Definition getImageData (canvas : Canvas) : Outcome ImageData :=
  if (width canvas =? 0) || (height canvas =? 0)
  then Threw "IndexSizeError"
  else Returned {| data := bitmap canvas; sw := width canvas; sh := height canvas |}.

(** [data[i + 3] > 0]; reading past the end gives [undefined], and
    [undefined > 0] is false. *)
Definition alphaSet (a : option Z) : bool :=
  match a with
  | Some v => 0 <? v
  | None => false
  end.

Definition writePixel (i : nat) (r g b a : Z) (maskData : list Z) : list Z :=
  <[(i + 3)%nat := a]> (<[(i + 2)%nat := b]> (<[(i + 1)%nat := g]> (<[i := r]> maskData))).

(** The loop [for (let i = 0; i < data.length; i += 4)], from index [i] on. *)
Fixpoint maskLoop (fuel : nat) (i : nat) (data maskData : list Z) (hasMask : bool)
  : list Z * bool :=
  match fuel with
  | O => (maskData, hasMask)
  | S fuel' =>
    if (i <? length data)%nat then
      if alphaSet (data !! (i + 3)%nat)
      then maskLoop fuel' (i + 4)%nat data (writePixel i 255 255 255 255 maskData) true
      else maskLoop fuel' (i + 4)%nat data (writePixel i 0 0 0 255 maskData) hasMask
    else (maskData, hasMask)
  end.

(** [new ImageData(maskData, width, height)]. *)
Definition newImageData (maskData : list Z) (w h : Z) : Outcome ImageData :=
  if (0 <? w) && (0 <? h) && (Z.of_nat (length maskData) =? 4 * w * h)
  then Returned {| data := maskData; sw := w; sh := h |}
  else Threw "IndexSizeError".

(** [getMaskAsBase64].  [maskContext] says whether the context of the
    canvas made with [document.createElement] is available. *)
Definition getMaskAsBase64 (maskContext : bool) (canvas : option Canvas) : Outcome Base64 :=
  match canvas with
  | None => Returned EmptyStr
  | Some canvas =>
    if negb (context2d canvas) then Returned EmptyStr
    else
      match getImageData canvas with
      | Threw n => Threw n
      | Returned imageData =>
        let d := data imageData in
        let '(maskData, hasMask) :=
          maskLoop (S (length d)) 0 d (replicate (length d) 0) false in
        if negb hasMask then Returned EmptyStr
        else if negb maskContext then Returned EmptyStr
        else
          match newImageData maskData (width canvas) (height canvas) with
          | Threw n => Threw n
          | Returned maskImageData => Returned (PngOf maskImageData)
          end
      end
  end.

(** The value the parent reads through the ref:
    [editorRef.current?.getMaskAsBase64()]. *)
Definition exportBinaryMask (maskContext : bool) (ed : Editor) : Outcome Base64 :=
  getMaskAsBase64 maskContext (drawingCanvas ed).

End Editor.

(** ** ImageCropper.tsx: one rectangular drag and its native crop *)

Module Cropper.
Import DOM.

(** The selection in display pixels.  The numbers are doubles, held by
    their exact values. *)
Record Crop := {
  x : Q;
  y : Q;
  width : Q;
  height : Q
}.

(** [imageRef.current]: the displayed [<img>]. *)
Record Image := {
  naturalWidth : Z;
  naturalHeight : Z;
  clientWidth : Z;
  clientHeight : Z;
  src : string
}.

(** Component state: [crop] and [isDragging] (state), [startPointRef],
    the rectangle of [containerRef.current], [imageRef.current], and whether
    a created canvas yields a 2D context. *)
Record Cropper := {
  crop : option Crop;
  isDragging : bool;
  startPoint : option (Q * Q);
  container : option DOMRect;
  image : option Image;
  context2d : bool
}.

Definition set_crop (c : option Crop) (st : Cropper) : Cropper :=
  {| crop := c; isDragging := isDragging st; startPoint := startPoint st;
     container := container st; image := image st; context2d := context2d st |}.

Definition set_isDragging (b : bool) (st : Cropper) : Cropper :=
  {| crop := crop st; isDragging := b; startPoint := startPoint st;
     container := container st; image := image st; context2d := context2d st |}.

Definition set_startPoint (p : option (Q * Q)) (st : Cropper) : Cropper :=
  {| crop := crop st; isDragging := isDragging st; startPoint := p;
     container := container st; image := image st; context2d := context2d st |}.

Definition getCoords (st : Cropper) (e : PointerEvent) : option (Q * Q) :=
  match container st with
  | None => None
  | Some rect =>
    match clientPoint e with
    | None => None
    | Some (clientX, clientY) =>
      Some ((clientX - rect_left rect)%Q, (clientY - rect_top rect)%Q)
    end
  end.

Definition handleDragStart (e : PointerEvent) (st : Cropper) : Cropper :=
  match getCoords st e with
  | Some coords =>
    set_crop (Some {| x := fst coords; y := snd coords; width := 0; height := 0 |})
      (set_startPoint (Some coords) (set_isDragging true st))
  | None => st
  end.

Definition handleDragMove (e : PointerEvent) (st : Cropper) : Cropper :=
  if negb (isDragging st) then st
  else
    match startPoint st with
    | None => st
    | Some start =>
      match getCoords st e with
      | None => st
      | Some coords =>
        let newX := Qmin (fst coords) (fst start) in
        let newY := Qmin (snd coords) (snd start) in
        let newWidth := Qabs (fst coords - fst start) in
        let newHeight := Qabs (snd coords - snd start) in
        set_crop (Some {| x := newX; y := newY; width := newWidth; height := newHeight |}) st
      end
    end.

Definition handleDragEnd (e : PointerEvent) (st : Cropper) : Cropper :=
  if negb (isDragging st) then st
  else
    let st1 := set_startPoint None (set_isDragging false st) in
    match crop st with
    | Some c =>
      if Qltb (width c) 5 || Qltb (height c) 5
      then set_crop None st1
      else st1
    | None => st1
    end.

(** The canvas [handleApplyCrop] hands to [onCrop] as a data URL: its size,
    the source rectangle copied into it, and the encoding chosen. *)
Record Cropped := {
  canvasWidth : Z;
  canvasHeight : Z;
  cropX : Double.double;
  cropY : Double.double;
  cropWidth : Double.double;
  cropHeight : Double.double;
  mime : string
}.

(** [handleApplyCrop]; [None] when it returns without calling [onCrop].
    The quotients and products are those of the doubles: the stored
    rectangle holds doubles, [naturalWidth] and [clientWidth] are integers,
    each operation rounds, and the assignment to [canvas.width] drops the
    fraction of the rounded product. *)
Definition handleApplyCrop (st : Cropper) : option Cropped :=
  match image st, crop st with
  | Some image, Some crop =>
    if Qeq_bool (width crop) 0 || Qeq_bool (height crop) 0 then None
    else
      let scaleX :=
        Double.div (Double.ofZ (naturalWidth image)) (Double.ofZ (clientWidth image)) in
      let scaleY :=
        Double.div (Double.ofZ (naturalHeight image)) (Double.ofZ (clientHeight image)) in
      let cropX := Double.mul (Double.ofQ (x crop)) scaleX in
      let cropY := Double.mul (Double.ofQ (y crop)) scaleY in
      let cropWidth := Double.mul (Double.ofQ (width crop)) scaleX in
      let cropHeight := Double.mul (Double.ofQ (height crop)) scaleY in
      if negb (context2d st) then None
      else
        Some {| canvasWidth := Double.setDimensionOfDouble defaultWidth cropWidth;
                canvasHeight := Double.setDimensionOfDouble defaultHeight cropHeight;
                cropX := cropX; cropY := cropY;
                cropWidth := cropWidth; cropHeight := cropHeight;
                mime := if String.prefix "data:image/png" (src image)
                        then "image/png"%string else "image/jpeg"%string |}
  | _, _ => None
  end.

(** The spec's wording of the produced size: [round(displayRect * nativeScale)]. *)
Definition roundedSize (display : Q) (native client : Z) : Z :=
  Math_round (display * (inject_Z native / inject_Z client)).

End Cropper.

(** ** App.tsx: session state and handlers *)

Module App.
Import DOM.
Local Open Scope string_scope.

Inductive AppState :=
| HOME | IDLE | GENERATE_PROMPT | TOOL_SELECTION | EDITING | EXPANDING | LOADING | RESULT.

Inductive Tool := magicFill | insert | expand.

(** The two fields of a [File] the handlers read. *)
Record File := {
  name : string;
  type : string
}.

(** [originalImage] / [uncroppedOriginalImage].  Every [setOriginalImage]
    takes [width] and [height] from [getImageDimensions(url)], the natural
    size of the picture at [url]. *)
Record OriginalImage := {
  url : string;
  file : File;
  width : Z;
  height : Z
}.

(** [insertImage], with the natural size [insertImg] reports once it has
    loaded at submit time (lines 270-274).  Whether it ever loads is a
    matter of the file: see [Session.insertLoads]. *)
Record InsertImage := {
  insertUrl : string;
  insertFile : File;
  naturalWidth : Z;
  naturalHeight : Z
}.

Record ImageTransform := {
  x : R;
  y : R;
  scale : R;
  rotation : R;
  opacity : R;
  perspective : R;
  rotateX : R;
  rotateY : R
}.

Record ExpandSteps := {
  top : Z;
  right : Z;
  bottom : Z;
  left : Z
}.

Inductive Direction :=
| d_top | d_right | d_bottom | d_left
| d_top_left | d_top_right | d_bottom_left | d_bottom_right.

(** The string literal each member of the union type stands for. *)
Definition literal (direction : Direction) : string :=
  match direction with
  | d_top => "top" | d_right => "right" | d_bottom => "bottom" | d_left => "left"
  | d_top_left => "top-left" | d_top_right => "top-right"
  | d_bottom_left => "bottom-left" | d_bottom_right => "bottom-right"
  end.

(** [String.prototype.includes]. *)
Fixpoint includes (s sub : string) : bool :=
  String.prefix sub s ||
  match s with
  | EmptyString => false
  | String _ rest => includes rest sub
  end.

Definition MAX_EXPANSION_CLICKS : Z := 6.

(** The [useState] slots the modelled handlers read or write. *)
Record App := mkApp {
  appState : AppState;
  originalImage : option OriginalImage;
  uncroppedOriginalImage : option OriginalImage;
  insertImage : option InsertImage;
  resultData : option string;
  prompt : string;
  error : option string;
  isSelectionDone : bool;
  finalSelection : option Editor.Base64;
  loadingMessage : string;
  systemContext : string;
  tool : option Tool;
  isPlacingImage : bool;
  insertImageTransform : ImageTransform;
  expansionStepSize : Z;
  expandSteps : ExpandSteps;
  expandHistory : list ExpandSteps;
  isCropping : bool
}.

Definition setAppState (v : AppState) (s : App) : App :=
  mkApp v (originalImage s) (uncroppedOriginalImage s) (insertImage s) (resultData s)
    (prompt s) (error s) (isSelectionDone s) (finalSelection s) (loadingMessage s)
    (systemContext s) (tool s) (isPlacingImage s) (insertImageTransform s)
    (expansionStepSize s) (expandSteps s) (expandHistory s) (isCropping s).

Definition setOriginalImage (v : option OriginalImage) (s : App) : App :=
  mkApp (appState s) v (uncroppedOriginalImage s) (insertImage s) (resultData s)
    (prompt s) (error s) (isSelectionDone s) (finalSelection s) (loadingMessage s)
    (systemContext s) (tool s) (isPlacingImage s) (insertImageTransform s)
    (expansionStepSize s) (expandSteps s) (expandHistory s) (isCropping s).

Definition setUncroppedOriginalImage (v : option OriginalImage) (s : App) : App :=
  mkApp (appState s) (originalImage s) v (insertImage s) (resultData s)
    (prompt s) (error s) (isSelectionDone s) (finalSelection s) (loadingMessage s)
    (systemContext s) (tool s) (isPlacingImage s) (insertImageTransform s)
    (expansionStepSize s) (expandSteps s) (expandHistory s) (isCropping s).

Definition setInsertImage (v : option InsertImage) (s : App) : App :=
  mkApp (appState s) (originalImage s) (uncroppedOriginalImage s) v (resultData s)
    (prompt s) (error s) (isSelectionDone s) (finalSelection s) (loadingMessage s)
    (systemContext s) (tool s) (isPlacingImage s) (insertImageTransform s)
    (expansionStepSize s) (expandSteps s) (expandHistory s) (isCropping s).

Definition setResultData (v : option string) (s : App) : App :=
  mkApp (appState s) (originalImage s) (uncroppedOriginalImage s) (insertImage s) v
    (prompt s) (error s) (isSelectionDone s) (finalSelection s) (loadingMessage s)
    (systemContext s) (tool s) (isPlacingImage s) (insertImageTransform s)
    (expansionStepSize s) (expandSteps s) (expandHistory s) (isCropping s).

Definition setPrompt (v : string) (s : App) : App :=
  mkApp (appState s) (originalImage s) (uncroppedOriginalImage s) (insertImage s) (resultData s)
    v (error s) (isSelectionDone s) (finalSelection s) (loadingMessage s)
    (systemContext s) (tool s) (isPlacingImage s) (insertImageTransform s)
    (expansionStepSize s) (expandSteps s) (expandHistory s) (isCropping s).

Definition setError (v : option string) (s : App) : App :=
  mkApp (appState s) (originalImage s) (uncroppedOriginalImage s) (insertImage s) (resultData s)
    (prompt s) v (isSelectionDone s) (finalSelection s) (loadingMessage s)
    (systemContext s) (tool s) (isPlacingImage s) (insertImageTransform s)
    (expansionStepSize s) (expandSteps s) (expandHistory s) (isCropping s).

Definition setIsSelectionDone (v : bool) (s : App) : App :=
  mkApp (appState s) (originalImage s) (uncroppedOriginalImage s) (insertImage s) (resultData s)
    (prompt s) (error s) v (finalSelection s) (loadingMessage s)
    (systemContext s) (tool s) (isPlacingImage s) (insertImageTransform s)
    (expansionStepSize s) (expandSteps s) (expandHistory s) (isCropping s).

Definition setFinalSelection (v : option Editor.Base64) (s : App) : App :=
  mkApp (appState s) (originalImage s) (uncroppedOriginalImage s) (insertImage s) (resultData s)
    (prompt s) (error s) (isSelectionDone s) v (loadingMessage s)
    (systemContext s) (tool s) (isPlacingImage s) (insertImageTransform s)
    (expansionStepSize s) (expandSteps s) (expandHistory s) (isCropping s).

Definition setLoadingMessage (v : string) (s : App) : App :=
  mkApp (appState s) (originalImage s) (uncroppedOriginalImage s) (insertImage s) (resultData s)
    (prompt s) (error s) (isSelectionDone s) (finalSelection s) v
    (systemContext s) (tool s) (isPlacingImage s) (insertImageTransform s)
    (expansionStepSize s) (expandSteps s) (expandHistory s) (isCropping s).

Definition setTool (v : option Tool) (s : App) : App :=
  mkApp (appState s) (originalImage s) (uncroppedOriginalImage s) (insertImage s) (resultData s)
    (prompt s) (error s) (isSelectionDone s) (finalSelection s) (loadingMessage s)
    (systemContext s) v (isPlacingImage s) (insertImageTransform s)
    (expansionStepSize s) (expandSteps s) (expandHistory s) (isCropping s).

Definition setIsPlacingImage (v : bool) (s : App) : App :=
  mkApp (appState s) (originalImage s) (uncroppedOriginalImage s) (insertImage s) (resultData s)
    (prompt s) (error s) (isSelectionDone s) (finalSelection s) (loadingMessage s)
    (systemContext s) (tool s) v (insertImageTransform s)
    (expansionStepSize s) (expandSteps s) (expandHistory s) (isCropping s).

Definition setInsertImageTransform (v : ImageTransform) (s : App) : App :=
  mkApp (appState s) (originalImage s) (uncroppedOriginalImage s) (insertImage s) (resultData s)
    (prompt s) (error s) (isSelectionDone s) (finalSelection s) (loadingMessage s)
    (systemContext s) (tool s) (isPlacingImage s) v
    (expansionStepSize s) (expandSteps s) (expandHistory s) (isCropping s).

Definition setExpansionStepSize (v : Z) (s : App) : App :=
  mkApp (appState s) (originalImage s) (uncroppedOriginalImage s) (insertImage s) (resultData s)
    (prompt s) (error s) (isSelectionDone s) (finalSelection s) (loadingMessage s)
    (systemContext s) (tool s) (isPlacingImage s) (insertImageTransform s)
    v (expandSteps s) (expandHistory s) (isCropping s).

Definition setExpandSteps (v : ExpandSteps) (s : App) : App :=
  mkApp (appState s) (originalImage s) (uncroppedOriginalImage s) (insertImage s) (resultData s)
    (prompt s) (error s) (isSelectionDone s) (finalSelection s) (loadingMessage s)
    (systemContext s) (tool s) (isPlacingImage s) (insertImageTransform s)
    (expansionStepSize s) v (expandHistory s) (isCropping s).

Definition setExpandHistory (v : list ExpandSteps) (s : App) : App :=
  mkApp (appState s) (originalImage s) (uncroppedOriginalImage s) (insertImage s) (resultData s)
    (prompt s) (error s) (isSelectionDone s) (finalSelection s) (loadingMessage s)
    (systemContext s) (tool s) (isPlacingImage s) (insertImageTransform s)
    (expansionStepSize s) (expandSteps s) v (isCropping s).

Definition setIsCropping (v : bool) (s : App) : App :=
  mkApp (appState s) (originalImage s) (uncroppedOriginalImage s) (insertImage s) (resultData s)
    (prompt s) (error s) (isSelectionDone s) (finalSelection s) (loadingMessage s)
    (systemContext s) (tool s) (isPlacingImage s) (insertImageTransform s)
    (expansionStepSize s) (expandSteps s) (expandHistory s) v.

(** The state of the first render ([useState] initial values). *)
Definition defaultTransform : ImageTransform :=
  {| x := 50; y := 50; scale := 50; rotation := 0; opacity := 100;
     perspective := 1000; rotateX := 0; rotateY := 0 |}.

Definition noSteps : ExpandSteps := {| top := 0; right := 0; bottom := 0; left := 0 |}.

Definition initialApp : App :=
  mkApp HOME None None None None "" None false None "" "" None false
    defaultTransform 128 noSteps [] false.

(** *** Magic Expand: clicks, undo *)

Definition handleToolSelect (selectedTool : Tool) (s : App) : App :=
  let s1 := setError None (setTool (Some selectedTool) s) in
  match selectedTool, originalImage s with
  | expand, Some originalImage =>
    let step := Math_round (inject_Z (Z.min (width originalImage) (height originalImage)) * (1 # 4)) in
    setExpandHistory []
      (setExpandSteps noSteps (setAppState EXPANDING (setExpansionStepSize step s1)))
  | expand, None => s1
  | _, _ =>
    setFinalSelection None (setIsSelectionDone false (setAppState EDITING s1))
  end.

(** [Object.values(expandSteps).reduce((sum, val) => sum + val, 0)]. *)
Definition totalClicks (steps : ExpandSteps) : Z :=
  fold_left (fun sum val => sum + val) [top steps; right steps; bottom steps; left steps] 0.

Definition increment (direction : Direction) (steps : ExpandSteps) : ExpandSteps :=
  let newSteps := steps in
  let newSteps :=
    if includes (literal direction) "top"
    then {| top := top newSteps + 1; right := right newSteps;
            bottom := bottom newSteps; left := left newSteps |}
    else newSteps in
  let newSteps :=
    if includes (literal direction) "bottom"
    then {| top := top newSteps; right := right newSteps;
            bottom := bottom newSteps + 1; left := left newSteps |}
    else newSteps in
  let newSteps :=
    if includes (literal direction) "left"
    then {| top := top newSteps; right := right newSteps;
            bottom := bottom newSteps; left := left newSteps + 1 |}
    else newSteps in
  let newSteps :=
    if includes (literal direction) "right"
    then {| top := top newSteps; right := right newSteps + 1;
            bottom := bottom newSteps; left := left newSteps |}
    else newSteps in
  newSteps.

(** [handleExpandClick].  The timer that clears the message three seconds
    later is outside this state function. *)
Definition handleExpandClick (direction : Direction) (s : App) : App :=
  if (MAX_EXPANSION_CLICKS <=? totalClicks (expandSteps s))%Z
  then setError (Some "You can expand up to 6 times per generation.") s
  else
    setExpandSteps (increment direction (expandSteps s))
      (setExpandHistory (expandHistory s ++ [expandSteps s])%list s).

Definition handleUndoExpand (s : App) : App :=
  match last (expandHistory s) with
  | None => s
  | Some previousSteps =>
    setExpandHistory (removelast (expandHistory s)) (setExpandSteps previousSteps s)
  end.

(** What the user does on the Magic Expand screen. *)
Inductive ExpandEvent :=
| Click (direction : Direction)
| Undo.

Definition expandStep (s : App) (ev : ExpandEvent) : App :=
  match ev with
  | Click direction => handleExpandClick direction s
  | Undo => handleUndoExpand s
  end.

Definition expandRun (evs : list ExpandEvent) (s : App) : App :=
  fold_left expandStep evs s.

(** *** Magic Expand: the canvas built at submit time *)

(** The calls [handleExpandSubmit] issues on its canvas; all arguments are
    integers and the transform is the default one. *)
Inductive ExpandCall :=
| fillRect (fillStyle : string) (x y w h : Z)
| drawImage (image : OriginalImage) (dx dy dw dh : Z).

Record ExpandCanvas := {
  canvas_width : Z;
  canvas_height : Z;
  calls : list ExpandCall
}.

(** What a pixel of such a canvas shows: nothing, a fill colour, or a pixel
    of an image composited over what was there. *)
Inductive Paint :=
| Blank
| Colour (fillStyle : string)
| Sampled (image : OriginalImage) (sx sy : Z) (under : Paint).

Definition inside (x y w h px py : Z) : bool :=
  ((x <=? px) && (px <? x + w) && (y <=? py) && (py <? y + h))%Z.

(** The effect of one call on pixel [(px, py)].  [drawImage] maps the
    destination rectangle onto the whole picture, whose size is
    [width image] by [height image]. *)
Definition paintCall (px py : Z) (under : Paint) (call : ExpandCall) : Paint :=
  match call with
  | fillRect fillStyle x y w h =>
    if inside x y w h px py then Colour fillStyle else under
  | drawImage image dx dy dw dh =>
    if inside dx dy dw dh px py
    then Sampled image ((px - dx) * width image / dw) ((py - dy) * height image / dh) under
    else under
  end.

Definition pixelAt (calls : list ExpandCall) (px py : Z) : Paint :=
  fold_left (paintCall px py) calls Blank.

Definition onExpandCanvas (canvas : ExpandCanvas) (px py : Z) : Prop :=
  (0 <= px < canvas_width canvas /\ 0 <= py < canvas_height canvas)%Z.

(** Lines 184-203 of [handleExpandSubmit]. *)
Definition expansionCanvas (originalImage : OriginalImage) (expandSteps : ExpandSteps)
    (expansionStepSize : Z) : ExpandCanvas :=
  let originalWidth := width originalImage in
  let originalHeight := height originalImage in
  let finalWidth := originalWidth + (left expandSteps + right expandSteps) * expansionStepSize in
  let finalHeight := originalHeight + (top expandSteps + bottom expandSteps) * expansionStepSize in
  let imgDrawX := left expandSteps * expansionStepSize in
  let imgDrawY := top expandSteps * expansionStepSize in
  {| canvas_width := setDimension defaultWidth (inject_Z finalWidth);
     canvas_height := setDimension defaultHeight (inject_Z finalHeight);
     calls := [fillRect "#808080" 0 0 finalWidth finalHeight;
               drawImage originalImage imgDrawX imgDrawY originalWidth originalHeight] |}.

(** *** Insert: the placement transform *)

(** [DOMMatrix]; [mCR] is the entry of column [C], row [R]. *)
Record DOMMatrix := {
  m11 : R; m12 : R; m13 : R; m14 : R;
  m21 : R; m22 : R; m23 : R; m24 : R;
  m31 : R; m32 : R; m33 : R; m34 : R;
  m41 : R; m42 : R; m43 : R; m44 : R
}.

Local Open Scope R_scope.

Definition identityMatrix : DOMMatrix :=
  {| m11 := 1; m12 := 0; m13 := 0; m14 := 0;
     m21 := 0; m22 := 1; m23 := 0; m24 := 0;
     m31 := 0; m32 := 0; m33 := 1; m34 := 0;
     m41 := 0; m42 := 0; m43 := 0; m44 := 1 |}.

(** The matrix product [A * B]: the transform that applies [B] first. *)
Definition multiply (A B : DOMMatrix) : DOMMatrix :=
  {| m11 := m11 A * m11 B + m21 A * m12 B + m31 A * m13 B + m41 A * m14 B;
     m12 := m12 A * m11 B + m22 A * m12 B + m32 A * m13 B + m42 A * m14 B;
     m13 := m13 A * m11 B + m23 A * m12 B + m33 A * m13 B + m43 A * m14 B;
     m14 := m14 A * m11 B + m24 A * m12 B + m34 A * m13 B + m44 A * m14 B;
     m21 := m11 A * m21 B + m21 A * m22 B + m31 A * m23 B + m41 A * m24 B;
     m22 := m12 A * m21 B + m22 A * m22 B + m32 A * m23 B + m42 A * m24 B;
     m23 := m13 A * m21 B + m23 A * m22 B + m33 A * m23 B + m43 A * m24 B;
     m24 := m14 A * m21 B + m24 A * m22 B + m34 A * m23 B + m44 A * m24 B;
     m31 := m11 A * m31 B + m21 A * m32 B + m31 A * m33 B + m41 A * m34 B;
     m32 := m12 A * m31 B + m22 A * m32 B + m32 A * m33 B + m42 A * m34 B;
     m33 := m13 A * m31 B + m23 A * m32 B + m33 A * m33 B + m43 A * m34 B;
     m34 := m14 A * m31 B + m24 A * m32 B + m34 A * m33 B + m44 A * m34 B;
     m41 := m11 A * m41 B + m21 A * m42 B + m31 A * m43 B + m41 A * m44 B;
     m42 := m12 A * m41 B + m22 A * m42 B + m32 A * m43 B + m42 A * m44 B;
     m43 := m13 A * m41 B + m23 A * m42 B + m33 A * m43 B + m43 A * m44 B;
     m44 := m14 A * m41 B + m24 A * m42 B + m34 A * m43 B + m44 A * m44 B |}.

Definition translation (tx ty tz : R) : DOMMatrix :=
  {| m11 := 1; m12 := 0; m13 := 0; m14 := 0;
     m21 := 0; m22 := 1; m23 := 0; m24 := 0;
     m31 := 0; m32 := 0; m33 := 1; m34 := 0;
     m41 := tx; m42 := ty; m43 := tz; m44 := 1 |}.

Definition scaling (sx sy sz : R) : DOMMatrix :=
  {| m11 := sx; m12 := 0; m13 := 0; m14 := 0;
     m21 := 0; m22 := sy; m23 := 0; m24 := 0;
     m31 := 0; m32 := 0; m33 := sz; m34 := 0;
     m41 := 0; m42 := 0; m43 := 0; m44 := 1 |}.

Definition radians (degrees : R) : R := degrees * PI / 180.

(** Rotations about the vectors (1,0,0), (0,1,0) and (0,0,1); angles in
    degrees. *)
Definition rotationAboutX (degrees : R) : DOMMatrix :=
  {| m11 := 1; m12 := 0; m13 := 0; m14 := 0;
     m21 := 0; m22 := cos (radians degrees); m23 := sin (radians degrees); m24 := 0;
     m31 := 0; m32 := - sin (radians degrees); m33 := cos (radians degrees); m34 := 0;
     m41 := 0; m42 := 0; m43 := 0; m44 := 1 |}.

Definition rotationAboutY (degrees : R) : DOMMatrix :=
  {| m11 := cos (radians degrees); m12 := 0; m13 := - sin (radians degrees); m14 := 0;
     m21 := 0; m22 := 1; m23 := 0; m24 := 0;
     m31 := sin (radians degrees); m32 := 0; m33 := cos (radians degrees); m34 := 0;
     m41 := 0; m42 := 0; m43 := 0; m44 := 1 |}.

Definition rotationAboutZ (degrees : R) : DOMMatrix :=
  {| m11 := cos (radians degrees); m12 := sin (radians degrees); m13 := 0; m14 := 0;
     m21 := - sin (radians degrees); m22 := cos (radians degrees); m23 := 0; m24 := 0;
     m31 := 0; m32 := 0; m33 := 1; m34 := 0;
     m41 := 0; m42 := 0; m43 := 0; m44 := 1 |}.

(** [matrix.translateSelf(tx, ty)]: post-multiply a translation. *)
Definition translateSelf (tx ty : R) (matrix : DOMMatrix) : DOMMatrix :=
  multiply matrix (translation tx ty 0).

(** [matrix.rotateSelf(rotX, rotY, rotZ)]: post-multiply the rotation about
    z, then the one about y, then the one about x. *)
Definition rotateSelf (rotX rotY rotZ : R) (matrix : DOMMatrix) : DOMMatrix :=
  multiply (multiply (multiply matrix (rotationAboutZ rotZ)) (rotationAboutY rotY))
    (rotationAboutX rotX).

(** [matrix.scaleSelf(scaleX)]: [scaleY] defaults to [scaleX], [scaleZ] to 1. *)
Definition scaleSelf (scaleX : R) (matrix : DOMMatrix) : DOMMatrix :=
  multiply matrix (scaling scaleX scaleX 1).

(** [buildTransformMatrix(canvas)], with the [insertImageTransform] and the
    [imgWidth], [imgHeight] of its closure. *)
Definition buildTransformMatrix (t : ImageTransform) (imgWidth imgHeight : R)
    (canvasWidth canvasHeight : Z) : DOMMatrix :=
  let matrix := identityMatrix in
  let matrix := translateSelf ((x t / 100) * IZR canvasWidth) ((y t / 100) * IZR canvasHeight) matrix in
  let matrix := rotateSelf (rotateX t) (rotateY t) (rotation t) matrix in
  let matrix := scaleSelf (scale t / 100) matrix in
  let matrix := translateSelf (- imgWidth / 2) (- imgHeight / 2) matrix in
  matrix.

(** [ctx.setTransform(matrix)] keeps the entries a, b, c, d, e, f; a point
    of user space lands at: *)
Definition transformPoint (M : DOMMatrix) (q : R * R) : R * R :=
  (m11 M * fst q + m21 M * snd q + m41 M,
   m12 M * fst q + m22 M * snd q + m42 M).

(** The calls issued on the composite and on the placement-mask canvas,
    each with the transform and alpha in force when it is made. *)
Inductive PlacementCall :=
| p_drawImage (source : string) (globalAlpha : R) (transform : DOMMatrix) (dx dy dw dh : R)
| p_fillRect (fillStyle : string) (transform : DOMMatrix) (x y w h : R).

Record PlacementCanvas := {
  pc_width : Z;
  pc_height : Z;
  pc_calls : list PlacementCall
}.

Definition inRect (x y w h : R) (q : R * R) : Prop :=
  x <= fst q <= x + w /\ y <= snd q <= y + h.

(** The points of the plane a call paints: the image of its rectangle under
    its transform; a rectangle of zero width or height paints nothing. *)
Definition covers (call : PlacementCall) (p : R * R) : Prop :=
  match call with
  | p_drawImage _ _ M x y w h
  | p_fillRect _ M x y w h =>
    w <> 0 /\ h <> 0 /\ exists q, inRect x y w h q /\ transformPoint M q = p
  end.

Definition onCanvas (canvas : PlacementCanvas) (p : R * R) : Prop :=
  inRect 0 0 (IZR (pc_width canvas)) (IZR (pc_height canvas)) p.

(** Call number [i] is the last one that paints [p]. *)
Definition topmostAt (calls : list PlacementCall) (p : R * R) (i : nat) : Prop :=
  exists call, calls !! i = Some call /\ covers call p /\
    forall j later, (i < j)%nat -> calls !! j = Some later -> ~ covers later p.

(** Lines 286-296: base image, then the inserted object through the matrix. *)
Definition compositeCanvas (originalImage : OriginalImage) (insertImage : InsertImage)
    (t : ImageTransform) : PlacementCanvas :=
  let imgWidth := IZR (naturalWidth insertImage) in
  let imgHeight := IZR (naturalHeight insertImage) in
  let canvasWidth := setDimension defaultWidth (inject_Z (width originalImage)) in
  let canvasHeight := setDimension defaultHeight (inject_Z (height originalImage)) in
  {| pc_width := canvasWidth;
     pc_height := canvasHeight;
     pc_calls :=
       [p_drawImage (url originalImage) 1 identityMatrix 0 0
          (IZR (width originalImage)) (IZR (height originalImage));
        p_drawImage (insertUrl insertImage) (opacity t / 100)
          (buildTransformMatrix t imgWidth imgHeight canvasWidth canvasHeight)
          0 0 imgWidth imgHeight] |}.

(** Lines 300-311: black everywhere, then the white rectangle through the
    matrix. *)
Definition maskCanvas (originalImage : OriginalImage) (insertImage : InsertImage)
    (t : ImageTransform) : PlacementCanvas :=
  let imgWidth := IZR (naturalWidth insertImage) in
  let imgHeight := IZR (naturalHeight insertImage) in
  let canvasWidth := setDimension defaultWidth (inject_Z (width originalImage)) in
  let canvasHeight := setDimension defaultHeight (inject_Z (height originalImage)) in
  {| pc_width := canvasWidth;
     pc_height := canvasHeight;
     pc_calls :=
       [p_fillRect "black" identityMatrix 0 0 (IZR canvasWidth) (IZR canvasHeight);
        p_fillRect "white"
          (buildTransformMatrix t imgWidth imgHeight canvasWidth canvasHeight)
          0 0 imgWidth imgHeight] |}.

(** The white region of a mask canvas: the points of the canvas whose
    topmost paint is a white fill. *)
Definition maskWhite (canvas : PlacementCanvas) (p : R * R) : Prop :=
  onCanvas canvas p /\
  exists i M x y w h,
    topmostAt (pc_calls canvas) p i /\
    pc_calls canvas !! i = Some (p_fillRect "white" M x y w h).

(** Where the inserted object shows in the composite: the points of the
    canvas whose topmost paint is the second call, the one drawing it. *)
Definition objectShown (canvas : PlacementCanvas) (p : R * R) : Prop :=
  onCanvas canvas p /\ topmostAt (pc_calls canvas) p 1.

(** The matrix each canvas hands to [setTransform]. *)
Definition transformOf (call : PlacementCall) : DOMMatrix :=
  match call with
  | p_drawImage _ _ M _ _ _ _ => M
  | p_fillRect _ M _ _ _ _ => M
  end.

(** The spec's wording: inverse-transforming the white region gives back the
    object's native bounding box, i.e. a native point lands on white exactly
    when it lies in the box. *)
Definition recoversBoundingBox (originalImage : OriginalImage) (insertImage : InsertImage)
    (t : ImageTransform) : Prop :=
  let canvas := maskCanvas originalImage insertImage t in
  let M := buildTransformMatrix t (IZR (naturalWidth insertImage)) (IZR (naturalHeight insertImage))
             (pc_width canvas) (pc_height canvas) in
  forall q : R * R,
    maskWhite canvas (transformPoint M q) <->
    inRect 0 0 (IZR (naturalWidth insertImage)) (IZR (naturalHeight insertImage)) q.

Local Close Scope R_scope.

(** *** Submission *)

(** [err.message || 'An unexpected error occurred.'] *)
Definition orUnexpected (message : string) : string :=
  if String.eqb message "" then "An unexpected error occurred." else message.

(** JavaScript truthiness of [finalSelection] and of [prompt]. *)
Definition selected (finalSelection : option Editor.Base64) : bool :=
  match finalSelection with
  | Some selection => Editor.truthy selection
  | None => false
  end.

Definition nonEmpty (text : string) : bool := negb (String.eqb text "").

Section Backend.

(** Whether [getContext('2d')] of the canvases created at submit time
    yields a context. *)
Variable expandContext : bool.
Variable compositeContext : bool.
Variable maskContext : bool.

(** [fileToDataUrl(originalImage.file)], base64 part. *)
Variable fileToDataUrl : File -> Settled string.

(** The three calls of [services/geminiService], by their settled outcome.
    A canvas argument stands for its [toDataURL] encoding. *)
Variable expandImage : string -> ExpandCanvas -> string -> Settled string.
Variable editImageWithText :
  string -> string -> Editor.Base64 -> string -> string -> Settled string.
Variable blendImages :
  string -> PlacementCanvas -> PlacementCanvas -> string -> string -> Settled string.

(** [handleExpandSubmit], up to the moment its promise settles. *)
Definition handleExpandSubmit (s : App) : App :=
  match originalImage s with
  | None => s
  | Some originalImage =>
    let s1 := setLoadingMessage "Expanding your canvas..."
                (setAppState LOADING (setError None s)) in
    let canvas := expansionCanvas originalImage (expandSteps s) (expansionStepSize s) in
    if negb expandContext
    then setAppState EXPANDING
           (setError (Some (orUnexpected "Could not create canvas for expansion")) s1)
    else
      match expandImage (prompt s) canvas (type (file originalImage)) with
      | Resolved resultImageUrl =>
        setAppState RESULT (setResultData (Some resultImageUrl) s1)
      | Rejected message =>
        setAppState EXPANDING (setError (Some (orUnexpected message)) s1)
      end
  end.

(** The [catch] block of [handleEditSubmit]. *)
Definition catchEdit (message : string) (s : App) : App :=
  setAppState EDITING (setError (Some (orUnexpected message)) s).

(** [handleEditSubmit], up to the moment its promise settles. *)
Definition handleEditSubmit (s : App) : App :=
  match originalImage s, tool s with
  | Some originalImage, Some tool =>
    match tool with
    | expand => setError (Some "Invalid tool for this action.") s
    | _ =>
      if negb (selected (finalSelection s)) &&
         negb (match tool with insert => true | _ => false end)
      then setAppState EDITING
             (setError (Some "Selection is missing. Please select an area on the image.") s)
      else
        let s1 := setAppState LOADING (setError None s) in
        match fileToDataUrl (file originalImage) with
        | Rejected message => catchEdit message s1
        | Resolved originalBase64 =>
          match tool with
          | magicFill =>
            if negb (nonEmpty (prompt s))
            then setAppState EDITING
                   (setError (Some "Please enter a text prompt to describe your edit.") s1)
            else
              match finalSelection s with
              | Some (Editor.PngOf img) =>
                let s2 := setLoadingMessage "Applying AI magic..." s1 in
                match editImageWithText (prompt s) originalBase64 (Editor.PngOf img)
                        (type (file originalImage)) (systemContext s) with
                | Resolved resultImageUrl =>
                  setAppState RESULT (setResultData (Some resultImageUrl) s2)
                | Rejected message => catchEdit message s2
                end
              | _ =>
                setAppState EDITING
                  (setError (Some "Selection is missing. Please select an area on the image.") s1)
              end
          | insert =>
            match insertImage s with
            | None =>
              setAppState EDITING (setError (Some "Please upload an image to insert.") s1)
            | Some insertImage =>
              let s2 := setLoadingMessage "Blending image..." s1 in
              if negb compositeContext
              then catchEdit "Could not create canvas context" s2
              else if negb maskContext
              then catchEdit "Could not create mask canvas context" s2
              else
                match blendImages originalBase64
                        (compositeCanvas originalImage insertImage (insertImageTransform s))
                        (maskCanvas originalImage insertImage (insertImageTransform s))
                        (type (file originalImage)) (type (insertFile insertImage)) with
                | Resolved resultImageUrl =>
                  setAppState RESULT (setResultData (Some resultImageUrl) s2)
                | Rejected message => catchEdit message s2
                end
            end
          | expand => catchEdit "Invalid edit mode selected." s1
          end
        end
    end
  | _, _ => setError (Some "An unexpected error occurred. Please start over.") s
  end.

(** The "Insert & Blend" button:
    [setIsPlacingImage(false); handleEditSubmit();]. *)
Definition insertAndBlend (s : App) : App :=
  setIsPlacingImage false (handleEditSubmit s).

End Backend.

(** *** The Editing screen: "Next Step" and what it renders *)

(** The "Next Step" button.  [editor] is [editorRef.current]; an
    exception leaves the handler before any state is set. *)
Definition handleNextStep (maskContext : bool) (editor : option Editor.Editor) (s : App) : App :=
  let pleaseSelect := setError (Some "Please select an area before proceeding.") s in
  match editor with
  | None => pleaseSelect
  | Some ed =>
    match Editor.exportBinaryMask maskContext ed with
    | Threw _ => s
    | Returned selection =>
      if Editor.truthy selection
      then setError None (setIsSelectionDone true (setFinalSelection (Some selection) s))
      else pleaseSelect
    end
  end.

Definition isReadyForSubmit (s : App) : bool :=
  match tool s with
  | Some magicFill => nonEmpty (prompt s)
  | Some insert =>
    match insertImage s with
    | Some _ => negb (isPlacingImage s)
    | None => false
    end
  | _ => false
  end.

(** Whether the rendered Editing screen offers an enabled button that calls
    [handleEditSubmit]: none in "Step 1: Select Area", "Insert & Blend"
    while placing, the submit button once it is ready. *)
Definition submitOffered (s : App) : bool :=
  match appState s, originalImage s with
  | EDITING, Some _ =>
    negb (isCropping s) && isSelectionDone s && (isPlacingImage s || isReadyForSubmit s)
  | _, _ => false
  end.

(** *** Cropping *)

Definition handleStartCropping (s : App) : App :=
  let s1 :=
    match uncroppedOriginalImage s, originalImage s with
    | None, Some originalImage => setUncroppedOriginalImage (Some originalImage) s
    | _, _ => s
    end in
  setIsCropping true s1.

(** [handleRestoreOriginal]; [editor] is [editorRef.current]. *)
Definition handleRestoreOriginal (s : App) (editor : option Editor.Editor)
  : App * option Editor.Editor :=
  match uncroppedOriginalImage s with
  | Some uncroppedOriginalImage =>
    (setIsCropping false
       (setFinalSelection None
          (setIsSelectionDone false
             (setUncroppedOriginalImage None
                (setOriginalImage (Some uncroppedOriginalImage) s)))),
     option_map Editor.clearCanvas editor)
  | None => (setIsCropping false s, editor)
  end.

(** [handleSaveCrop(croppedDataUrl)].  [loaded] is the outcome of fetching
    the data URL and reading its size: the blob's type with the width and
    height. *)
Definition handleSaveCrop (croppedDataUrl : string) (loaded : Settled (string * (Z * Z)))
    (s : App) (editor : option Editor.Editor) : App * option Editor.Editor :=
  match loaded with
  | Resolved (blobType, (w, h)) =>
    let fileName :=
      String.append "cropped_"
        (match originalImage s with
         | Some originalImage => name (file originalImage)
         | None => "undefined"
         end) in
    (setIsCropping false
       (setFinalSelection None
          (setIsSelectionDone false
             (setOriginalImage
                (Some {| url := croppedDataUrl;
                         file := {| name := fileName; type := blobType |};
                         width := w; height := h |}) s))),
     option_map Editor.clearCanvas editor)
  | Rejected _ =>
    (setIsCropping false (setError (Some "Could not apply crop. Please try again.") s), editor)
  end.

(** [onCancel] of the cropper. *)
Definition handleCancelCrop (s : App) : App := setIsCropping false s.




End App.

(** ** ImageEditor.tsx: pointer events in sequence *)

Module EditorEvents.
Import DOM Editor.

(** The listeners of the drawing canvas, by the handler they call. *)
Inductive CanvasEvent :=
| Down (e : PointerEvent)
| Move (e : PointerEvent)
| Up (e : PointerEvent).

Section Dispatch.

Variable stroke : Stroke -> Canvas -> list Z.

Definition dispatch (ed : Editor) (ev : CanvasEvent) : Editor :=
  match ev with
  | Down e => startDrawing stroke e ed
  | Move e => onMove stroke e ed
  | Up e => stopDrawing e ed
  end.

Definition dispatchAll (evs : list CanvasEvent) (ed : Editor) : Editor :=
  fold_left dispatch evs ed.

End Dispatch.

End EditorEvents.

(** ** ImageCropper.tsx: pointer events in sequence *)

Module CropperEvents.
Import DOM Cropper.

Inductive CropEvent :=
| DragStart (e : PointerEvent)
| DragMove (e : PointerEvent)
| DragEnd (e : PointerEvent).

Definition dispatch (st : Cropper) (ev : CropEvent) : Cropper :=
  match ev with
  | DragStart e => handleDragStart e st
  | DragMove e => handleDragMove e st
  | DragEnd e => handleDragEnd e st
  end.

Definition dispatchAll (evs : list CropEvent) (st : Cropper) : Cropper :=
  fold_left dispatch evs st.

End CropperEvents.

(** ** App.tsx: uploads, navigation, generation and the placement drag *)

Module AppMore.
Import DOM App.
Local Open Scope string_scope.

(** A file chosen in a picker, with what [FileReader] and
    [getImageDimensions] report once it is read and decoded. *)
Record Picked := {
  pickedFile : File;
  dataUrl : string;
  pickedWidth : Z;
  pickedHeight : Z
}.

(** [handleFileChange]; [picked] is [e.target.files?.[0]]. *)
Definition handleFileChange (picked : option Picked) (s : App) : App :=
  match picked with
  | None => s
  | Some p =>
    if negb (String.prefix "image/" (type (pickedFile p)))
    then setError (Some "Please upload a valid image file (PNG, JPG, etc.).") s
    else
      setUncroppedOriginalImage None
        (setResultData None
           (setError None
              (setAppState TOOL_SELECTION
                 (setOriginalImage
                    (Some {| url := dataUrl p; file := pickedFile p;
                             width := pickedWidth p; height := pickedHeight p |}) s))))
  end.

(** [handleInsertFileChange]. *)
Definition handleInsertFileChange (picked : option Picked) (s : App) : App :=
  match picked with
  | None => s
  | Some p =>
    if negb (String.prefix "image/" (type (pickedFile p)))
    then setError (Some "Please upload a valid image file.") s
    else
      setInsertImageTransform
        {| x := 50; y := 50; scale := 50; rotation := 0; opacity := 100;
           perspective := 1000; rotateX := 0; rotateY := 0 |}
        (setIsPlacingImage true
           (setError None
              (setInsertImage
                 (Some {| insertUrl := dataUrl p; insertFile := pickedFile p;
                          naturalWidth := pickedWidth p;
                          naturalHeight := pickedHeight p |}) s)))
  end.

Definition handleEditAgain (s : App) : App :=
  setUncroppedOriginalImage None
    (setIsPlacingImage false
       (setInsertImage None
          (setPrompt ""
             (setResultData None
                (setAppState TOOL_SELECTION s))))).

Definition handleBackToUpload (s : App) : App :=
  setFinalSelection None
    (setIsSelectionDone false
       (setError None
          (setPrompt ""
             (setResultData None
                (setUncroppedOriginalImage None
                   (setOriginalImage None
                      (setAppState IDLE s))))))).

Definition handleBackToToolSelection (s : App) : App :=
  setExpandHistory []
    (setExpandSteps {| top := 0; right := 0; bottom := 0; left := 0 |}
       (setIsPlacingImage false
          (setInsertImage None
             (setPrompt ""
                (setAppState TOOL_SELECTION s))))).

(** [handleImageResultForEditing(imageUrl, fileName)].  [fetched] is the
    outcome of fetching the result and reading it back: the blob's type,
    the data URL and the decoded size. *)
Definition handleImageResultForEditing (fileName : string)
    (fetched : Settled (string * string * (Z * Z))) (s : App) : App :=
  match fetched with
  | Resolved (blobType, dataUrl, (w, h)) =>
    setExpandHistory []
      (setExpandSteps {| top := 0; right := 0; bottom := 0; left := 0 |}
         (setIsPlacingImage false
            (setTool None
               (setFinalSelection None
                  (setIsSelectionDone false
                     (setError None
                        (setInsertImage None
                           (setPrompt ""
                              (setResultData None
                                 (setAppState TOOL_SELECTION
                                    (setUncroppedOriginalImage None
                                       (setOriginalImage
                                          (Some {| url := dataUrl;
                                                   file := {| name := fileName;
                                                              type := blobType |};
                                                   width := w; height := h |})
                                          s))))))))))))
  | Rejected _ =>
    setAppState RESULT
      (setError (Some "Could not prepare image for editing. Please try again.") s)
  end.

(** The "Continue Editing" button of the result screen:
    [handleImageResultForEditing(resultData!.url, `edited-${originalImage.file.name}`)]. *)
Definition continueEditing (fetched : Settled (string * string * (Z * Z))) (s : App) : App :=
  match originalImage s with
  | Some originalImage =>
    handleImageResultForEditing (String.append "edited-" (name (file originalImage))) fetched s
  | None => handleImageResultForEditing "generated-image.png" fetched s
  end.

(** The session with the one further slot the next two handlers touch. *)
Record Shell := {
  app : App;
  generationPrompt : string
}.

Definition setSystemContext (v : string) (s : App) : App :=
  mkApp (appState s) (originalImage s) (uncroppedOriginalImage s) (insertImage s) (resultData s)
    (prompt s) (error s) (isSelectionDone s) (finalSelection s) (loadingMessage s)
    v (tool s) (isPlacingImage s) (insertImageTransform s)
    (expansionStepSize s) (expandSteps s) (expandHistory s) (isCropping s).

Definition handleReset (sh : Shell) : Shell :=
  {| app :=
       setExpandHistory []
         (setExpandSteps {| top := 0; right := 0; bottom := 0; left := 0 |}
            (setIsPlacingImage false
               (setTool None
                  (setSystemContext ""
                     (setFinalSelection None
                        (setIsSelectionDone false
                           (setError None
                              (setPrompt ""
                                 (setResultData None
                                    (setInsertImage None
                                       (setUncroppedOriginalImage None
                                          (setOriginalImage None
                                             (setAppState HOME (app sh))))))))))))));
     generationPrompt := "" |}.

Section Generate.

Variable generateImage : string -> Settled string.

(** [handleGenerateSubmit], up to the moment its promise settles. *)
Definition handleGenerateSubmit (sh : Shell) : Shell :=
  if negb (nonEmpty (generationPrompt sh)) then sh
  else
    let s1 :=
      setAppState LOADING
        (setLoadingMessage "Creating your image..." (setError None (app sh))) in
    match generateImage (generationPrompt sh) with
    | Resolved resultImageUrl =>
      {| app := setAppState RESULT
                  (setOriginalImage None (setResultData (Some resultImageUrl) s1));
         generationPrompt := generationPrompt sh |}
    | Rejected message =>
      {| app := setAppState GENERATE_PROMPT (setError (Some (orUnexpected message)) s1);
         generationPrompt := generationPrompt sh |}
    end.

End Generate.

(** What the Editing screen shows in place of the editor while cropping,
    and whether that cropper offers "Restore Original". *)
Definition cropperShown (s : App) : bool :=
  match appState s, originalImage s with
  | EDITING, Some _ => isCropping s
  | _, _ => false
  end.

Definition showRestoreButton (s : App) : bool :=
  match uncroppedOriginalImage s with
  | Some _ => true
  | None => false
  end.

(** *** Dragging the inserted object *)

Local Open Scope R_scope.

(** [isDragging] (state), the two refs written at drag start, and whether
    the window listeners for [mousemove] and [mouseup] are attached. *)
Record PlacementDrag := {
  isDragging : bool;
  dragStartPos : R * R;
  dragStartTransform : R * R;
  listening : bool
}.

Definition initialDrag : PlacementDrag :=
  {| isDragging := false; dragStartPos := (0, 0); dragStartTransform := (0, 0);
     listening := false |}.

(** [handleDragStart]; the event's [clientX], [clientY]. *)
Definition handleDragStart (clientX clientY : R) (sd : App * PlacementDrag)
  : App * PlacementDrag :=
  let (s, d) := sd in
  match isPlacingImage s, insertImage s with
  | true, Some _ =>
    (s, {| isDragging := true;
           dragStartPos := (clientX, clientY);
           dragStartTransform := (x (insertImageTransform s), y (insertImageTransform s));
           listening := true |})
  | _, _ => sd
  end.

(** [handleDragMove]; [container] is the size of
    [editorContainerRef.current], if mounted. *)
Definition handleDragMove (container : option (R * R)) (clientX clientY : R)
    (sd : App * PlacementDrag) : App * PlacementDrag :=
  let (s, d) := sd in
  match container with
  | None => sd
  | Some (width, height) =>
    let deltaX := clientX - fst (dragStartPos d) in
    let deltaY := clientY - snd (dragStartPos d) in
    let deltaXPercent := (deltaX / width) * 100 in
    let deltaYPercent := (deltaY / height) * 100 in
    let t := insertImageTransform s in
    (setInsertImageTransform
       {| x := Rmax 0 (Rmin 100 (fst (dragStartTransform d) + deltaXPercent));
          y := Rmax 0 (Rmin 100 (snd (dragStartTransform d) + deltaYPercent));
          scale := scale t; rotation := rotation t; opacity := opacity t;
          perspective := perspective t; rotateX := rotateX t; rotateY := rotateY t |} s,
     d)
  end.

Definition handleDragEnd (sd : App * PlacementDrag) : App * PlacementDrag :=
  let (s, d) := sd in
  (s, {| isDragging := false; dragStartPos := dragStartPos d;
         dragStartTransform := dragStartTransform d; listening := false |}).

(** Mouse events as the page delivers them: [mousedown] on the object,
    [mousemove] and [mouseup] on the window while the listeners are on. *)
Inductive DragEvent :=
| MouseDown (clientX clientY : R)
| MouseMove (clientX clientY : R)
| MouseUp.

Definition deliver (container : option (R * R)) (sd : App * PlacementDrag)
    (ev : DragEvent) : App * PlacementDrag :=
  match ev with
  | MouseDown clientX clientY => handleDragStart clientX clientY sd
  | MouseMove clientX clientY =>
    if listening (snd sd) then handleDragMove container clientX clientY sd else sd
  | MouseUp =>
    if listening (snd sd) then handleDragEnd sd else sd
  end.

Definition deliverAll (container : option (R * R)) (evs : list DragEvent)
    (sd : App * PlacementDrag) : App * PlacementDrag :=
  fold_left (deliver container) evs sd.

Local Close Scope R_scope.

End AppMore.

(** ** Loader.tsx: the rotating progress message *)

Module Loader.
Local Open Scope string_scope.

Definition MESSAGES : list string :=
  ["Applying AI magic...";
   "Polishing pixels...";
   "Consulting the art masters...";
   "Unleashing creativity...";
   "Adding the finishing touches..."].

(** [displayMessage] (state) and the [currentIndex] of the interval's
    closure. *)
Record Loader := {
  displayMessage : string;
  currentIndex : nat
}.

(** The first render with prop [message]: [message || MESSAGES[0]]. *)
Definition mount (message : string) : Loader :=
  {| displayMessage :=
       match message with
       | EmptyString => nth 0 MESSAGES EmptyString
       | _ => message
       end;
     currentIndex := 0 |}.

(** One firing of the 2500 ms interval. *)
Definition tick (l : Loader) : Loader :=
  let currentIndex := ((currentIndex l + 1) mod length MESSAGES)%nat in
  {| displayMessage := nth currentIndex MESSAGES EmptyString;
     currentIndex := currentIndex |}.

End Loader.

(** ** services/geminiService.ts: the four backend calls *)

Module Services.
Import DOM.
Local Open Scope string_scope.

(** The double-quote character, and a template literal as its pieces. *)
Definition dq : string := String (Ascii.ascii_of_nat 34) EmptyString.

Definition template (pieces : list string) : string :=
  String.concat EmptyString pieces.

(** An optional string inside a template literal: [undefined] prints as
    such. *)
Definition shown (v : option string) : string :=
  match v with
  | Some s => s
  | None => "undefined"
  end.

(** What a [throw] or a rejected promise carries: an [Error] with its
    message, or some other value. *)
Inductive Thrown :=
| ErrorObject (message : string)
| OtherValue.

(** How a call or an awaited promise ends. *)
Inductive Completion (A : Type) : Type :=
| Returns (a : A)
| Throws (e : Thrown).
Arguments Returns {A} a.
Arguments Throws {A} e.

(** The parts of the SDK's request and response the service reads or
    writes. *)
Record Blob := {
  data : option string;
  mimeType : option string
}.

Record Part := {
  text : option string;
  inlineData : option Blob
}.

Record Content := {
  parts : option (list Part)
}.

Record Candidate := {
  content : option Content
}.

Record GenerateContentResponse := {
  candidates : option (list Candidate)
}.

Inductive Modality := IMAGE | TEXT.

Record GenerateContentRequest := {
  model : string;
  contents : list Part;
  responseModalities : list Modality
}.

Record GenerateImagesRequest := {
  imagesModel : string;
  imagesPrompt : string;
  numberOfImages : Z;
  outputMimeType : string;
  aspectRatio : string
}.

Record Image := {
  imageBytes : option string
}.

Record GeneratedImage := {
  image : option Image
}.

Record GenerateImagesResponse := {
  generatedImages : option (list GeneratedImage)
}.

Definition textPart (t : string) : Part :=
  {| text := Some t; inlineData := None |}.

Definition inlinePart (d m : string) : Part :=
  {| text := None; inlineData := Some {| data := Some d; mimeType := Some m |} |}.

(** [response.candidates?.[0]?.content?.parts ?? []]. *)
Definition responseParts (response : GenerateContentResponse) : list Part :=
  match candidates response with
  | Some (candidate :: _) =>
    match content candidate with
    | Some c =>
      match parts c with
      | Some ps => ps
      | None => []
      end
    | None => []
    end
  | _ => []
  end.

(** The loop of [processImageResponse] over the parts still to visit. *)
Fixpoint scanParts (ps : list Part) : Completion string :=
  match ps with
  | [] =>
    Throws (ErrorObject "No image was generated. The model might have refused the request.")
  | part :: rest =>
    match inlineData part with
    | Some blob =>
      Returns (template ["data:";
                         shown (mimeType blob);
                         ";base64,";
                         shown (data blob)])
    | None => scanParts rest
    end
  end.

Definition processImageResponse (response : GenerateContentResponse) : Completion string :=
  scanParts (responseParts response).

Section Sdk.

(** [ai.models.generateContent] and [ai.models.generateImages], by how the
    awaited promise ends. *)
Variable generateContent : GenerateContentRequest -> Completion GenerateContentResponse.
Variable generateImages : GenerateImagesRequest -> Completion GenerateImagesResponse.

(** The message of the [TypeError] raised by reading [imageBytes] of a
    missing [image]. *)
Variable typeErrorMessage : string.

Definition editImageWithText (prompt originalImageBase64 maskImageBase64
    originalMimeType : string) (systemContext : option string) : Settled string :=
  let baseInstruction :=
    template ["You are an expert image editor. The user has provided an image and a selection mask. Modify the original image ONLY in the area specified by the white part of the selection mask. The rest of the image must remain untouched. The user's instruction is: ";
       dq;
       prompt;
       dq;
       ". Output only the final edited image without any additional text."] in
  let finalInstruction :=
    match systemContext with
    | Some (String c rest) =>
      let systemContext := String c rest in
      template ["You are an expert in ";
               systemContext;
               ". ";
               baseInstruction]
    | _ => baseInstruction
    end in
  let attempt :=
    match generateContent
            {| model := "gemini-2.5-flash-image-preview";
               contents := [textPart finalInstruction;
                            inlinePart originalImageBase64 originalMimeType;
                            inlinePart maskImageBase64 "image/png"];
               responseModalities := [IMAGE; TEXT] |} with
    | Returns response => processImageResponse response
    | Throws error => Throws error
    end in
  match attempt with
  | Returns url => Resolved url
  | Throws (ErrorObject message) =>
    Rejected (template ["Failed to edit image: ";
                      message])
  | Throws OtherValue =>
    Rejected "An unknown error occurred while editing the image."
  end.

Definition blendImages (originalImageBase64 compositeImageBase64 maskBase64
    originalMimeType compositeMimeType : string) : Settled string :=
  let instruction :=
    template ["You are an elite AI digital artist and compositor, specializing in creating hyper-realistic images that are indistinguishable from real photographs.

Your task is to perform a master-level composite, seamlessly integrating a subject from one image into a background scene from another. The final result must be a single, cohesive, and photorealistic image.

You have been provided with three images:
1.  **Original Image:** The main background scene.
2.  **Composite Image:** This shows the Original Image with a new object/subject crudely pasted on top. This is for placement reference only.
3.  **Mask:** A black and white image where the white area precisely marks the location of the pasted object.

Execute the following steps with artistic precision:

1.  **IDENTIFY & EXTRACT:** Use the Mask on the Composite Image to identify the subject. Perform a perfect ";
       dq;
       "deep etch";
       dq;
       " cutout of this subject, removing 100% of its original background. There must be absolutely NO edge halos, glows, or color fringing. The edges must be perfect.

2.  **ANALYZE THE SCENE:** Meticulously study the **Original Image** to understand its physical properties:
    *   **Lighting:** Identify all light sources. Note their direction, color, intensity, and whether they are hard or soft.
    *   **Environment:** Analyze the textures, materials, and overall mood of the scene.

3.  **INTEGRATE & GROUND THE SUBJECT:** This is the most critical phase. You must make the subject a believable part of the scene by creating realistic interactions between it and the background. This will involve modifying BOTH the subject AND the background pixels where they interact.
    *   **Relight the Subject:** Adjust the subject's lighting to perfectly match the direction, color, and quality of the light in the Original Image.
    *   **Cast Shadows:** Realistically render shadows cast by the subject onto the background. This includes soft ambient occlusion shadows where the subject is close to other surfaces and harder cast shadows from the primary light source. The shadow's properties (blurriness, color, density) must match existing shadows in the scene.
    *   **Create Reflections:** If the subject is on or near a reflective surface (like water, metal, or polished floors), you must render accurate reflections onto that surface.
    *   **Match Scene Properties:** Adjust the subject's color balance, saturation, black levels, grain, and sharpness to perfectly match the background image.

4.  **FINAL OUTPUT:**
    *   Your output MUST be a single image.
    *   This image is the **Original Image** seamlessly modified with the integrated subject.
    *   The pasted object from the Composite Image must be completely gone, replaced by your perfectly blended version. The background must be modified to include the new shadows and reflections.
    *   The area of the Original Image far from the new subject must remain untouched.

Output only the final, photorealistic image. Do not include any text."] in
  let attempt :=
    match generateContent
            {| model := "gemini-2.5-flash-image-preview";
               contents := [textPart instruction;
                            inlinePart originalImageBase64 originalMimeType;
                            inlinePart compositeImageBase64 compositeMimeType;
                            inlinePart maskBase64 "image/png"];
               responseModalities := [IMAGE; TEXT] |} with
    | Returns response => processImageResponse response
    | Throws error => Throws error
    end in
  match attempt with
  | Returns url => Resolved url
  | Throws (ErrorObject message) =>
    Rejected (template ["Failed to blend image: ";
                      message])
  | Throws OtherValue =>
    Rejected "An unknown error occurred while blending the image."
  end.

Definition expandImage (prompt compositeImageBase64 compositeMimeType : string)
  : Settled string :=
  let instruction :=
    template ["You are an expert AI image editor specializing in outpainting (image expansion). You will be given a composite image that has an original photo in the center and a solid gray (#808080) area around it.

Your task is to do two things simultaneously:
1.  **Extend the Scene:** Intelligently continue the scene from the original photo into the gray area. The extension MUST be perfectly seamless and consistent with the original photo's style, lighting, color, perspective, shadows, and textures.
2.  **Incorporate the User's Request:** While extending the scene, you must also incorporate the user's request for what should appear in the newly generated area.

**User's request for the expanded area:** ";
       dq;
       prompt;
       dq;
       "

**CRITICAL INSTRUCTIONS:**

1.  **DO NOT TOUCH THE ORIGINAL IMAGE:** The original photo in the center of the canvas is sacred. You MUST NOT modify, alter, or edit it in any way. Not a single pixel. Your work is confined ONLY to the gray (#808080) area.
2.  **CONSISTENCY IS PARAMOUNT:** The generated content in the gray area must look like a natural continuation of the original photo. If the user asks for ";
       dq;
       "a swimming pool";
       dq;
       ", you must draw a swimming pool that fits perfectly into the existing scene's environment, lighting, and perspective. Do not just draw a separate image of a swimming pool. It must feel like it was part of the original photograph.
3.  **SEAMLESS BLENDING:** The boundary between the original image and your generated content must be invisible.
4.  **INTELLIGENT INTERPRETATION:** Interpret the user's prompt (";
       dq;
       prompt;
       dq;
       ") as instructions for what to add *within the context of the extended scene*. For example, if the original image is a backyard and the prompt is ";
       dq;
       "a dog";
       dq;
       ", you add a dog that logically belongs in that backyard, matching the lighting and style.
5.  **OUTPUT:** Provide only the final, complete image as your output. No text, no conversation."] in
  let attempt :=
    match generateContent
            {| model := "gemini-2.5-flash-image-preview";
               contents := [textPart instruction;
                            inlinePart compositeImageBase64 compositeMimeType];
               responseModalities := [IMAGE; TEXT] |} with
    | Returns response => processImageResponse response
    | Throws error => Throws error
    end in
  match attempt with
  | Returns url => Resolved url
  | Throws (ErrorObject message) =>
    Rejected (template ["Failed to expand image: ";
                      message])
  | Throws OtherValue =>
    Rejected "An unknown error occurred while expanding the image."
  end.

Definition generateImage (prompt : string) : Settled string :=
  let attempt :=
    match generateImages
            {| imagesModel := "imagen-4.0-generate-001";
               imagesPrompt := prompt;
               numberOfImages := 1;
               outputMimeType := "image/png";
               aspectRatio := "1:1" |} with
    | Returns response =>
      match generatedImages response with
      | Some (first :: _) =>
        match image first with
        | Some img =>
          let base64ImageBytes := shown (imageBytes img) in
          Returns (template ["data:image/png;base64,";
                             base64ImageBytes])
        | None => Throws (ErrorObject typeErrorMessage)
        end
      | _ =>
        Throws (ErrorObject "No image was generated by the model. Please try a different prompt.")
      end
    | Throws error => Throws error
    end in
  match attempt with
  | Returns url => Resolved url
  | Throws (ErrorObject message) =>
    Rejected (template ["Failed to generate image: ";
                      message])
  | Throws OtherValue =>
    Rejected "An unknown error occurred while generating the image."
  end.

End Sdk.

End Services.

(** ** App.tsx: the whole session, screen by screen *)

Module Session.
Import DOM App AppMore.
Local Open Scope string_scope.

(** The sliders of the placement panel, with the [min] and [max] of their
    range inputs. *)
Inductive Slider :=
| XPosition | YPosition | Scale | Rotation | Perspective | TiltVertical | TiltHorizontal
| Opacity.

Definition sliderMin (slider : Slider) : Z :=
  match slider with
  | Scale => 1
  | Perspective => 300
  | TiltVertical | TiltHorizontal => -90
  | _ => 0
  end.

Definition sliderMax (slider : Slider) : Z :=
  match slider with
  | Scale => 200
  | Rotation => 360
  | Perspective => 2000
  | TiltVertical | TiltHorizontal => 90
  | _ => 100
  end.

(** The slider's [setter]: [t => ({ ...t, field: v })]. *)
Definition slide (slider : Slider) (v : R) (t : ImageTransform) : ImageTransform :=
  match slider with
  | XPosition =>
    {| x := v; y := y t; scale := scale t; rotation := rotation t; opacity := opacity t;
       perspective := perspective t; rotateX := rotateX t; rotateY := rotateY t |}
  | YPosition =>
    {| x := x t; y := v; scale := scale t; rotation := rotation t; opacity := opacity t;
       perspective := perspective t; rotateX := rotateX t; rotateY := rotateY t |}
  | Scale =>
    {| x := x t; y := y t; scale := v; rotation := rotation t; opacity := opacity t;
       perspective := perspective t; rotateX := rotateX t; rotateY := rotateY t |}
  | Rotation =>
    {| x := x t; y := y t; scale := scale t; rotation := v; opacity := opacity t;
       perspective := perspective t; rotateX := rotateX t; rotateY := rotateY t |}
  | Perspective =>
    {| x := x t; y := y t; scale := scale t; rotation := rotation t; opacity := opacity t;
       perspective := v; rotateX := rotateX t; rotateY := rotateY t |}
  | TiltVertical =>
    {| x := x t; y := y t; scale := scale t; rotation := rotation t; opacity := opacity t;
       perspective := perspective t; rotateX := v; rotateY := rotateY t |}
  | TiltHorizontal =>
    {| x := x t; y := y t; scale := scale t; rotation := rotation t; opacity := opacity t;
       perspective := perspective t; rotateX := rotateX t; rotateY := v |}
  | Opacity =>
    {| x := x t; y := y t; scale := scale t; rotation := rotation t; opacity := v;
       perspective := perspective t; rotateX := rotateX t; rotateY := rotateY t |}
  end.

(** All of the component's state that the handlers of [App] touch. *)
Record Session := {
  shell : Shell;
  placementDrag : PlacementDrag
}.

Definition initialSession : Session :=
  {| shell := {| app := initialApp; generationPrompt := "" |};
     placementDrag := initialDrag |}.

Definition onApp (f : App -> App) (ss : Session) : Session :=
  {| shell := {| app := f (app (shell ss));
                 generationPrompt := generationPrompt (shell ss) |};
     placementDrag := placementDrag ss |}.

Definition onShell (f : Shell -> Shell) (ss : Session) : Session :=
  {| shell := f (shell ss); placementDrag := placementDrag ss |}.

(** *** What [renderContent] puts on the page *)

Definition onScreen (screen : AppState) (s : App) : bool :=
  match appState s, screen with
  | HOME, HOME | IDLE, IDLE | GENERATE_PROMPT, GENERATE_PROMPT
  | TOOL_SELECTION, TOOL_SELECTION | EDITING, EDITING | EXPANDING, EXPANDING
  | LOADING, LOADING | RESULT, RESULT => true
  | _, _ => false
  end.

Definition isSome {A : Type} (o : option A) : bool :=
  match o with Some _ => true | None => false end.

(** The Expanding screen, which renders nothing without an image. *)
Definition expandingShown (s : App) : bool :=
  onScreen EXPANDING s && isSome (originalImage s).

(** [Object.values(expandSteps).some(v => v > 0)] and [isAtLimit]. *)
Definition hasExpanded (s : App) : bool :=
  existsb (fun v => (0 <? v)%Z)
    [top (expandSteps s); right (expandSteps s); bottom (expandSteps s); left (expandSteps s)].

Definition isAtLimit (s : App) : bool :=
  (MAX_EXPANSION_CLICKS <=? totalClicks (expandSteps s))%Z.

(** The Editing screen with the editor (not the cropper) on it, and its
    three side panels. *)
Definition editorShown (s : App) : bool :=
  onScreen EDITING s && isSome (originalImage s) && negb (isCropping s).

Definition selectPanel (s : App) : bool :=
  editorShown s && negb (isSelectionDone s).

Definition placePanel (s : App) : bool :=
  editorShown s && isSelectionDone s && isPlacingImage s.

Definition describePanel (s : App) : bool :=
  editorShown s && isSelectionDone s && negb (isPlacingImage s).

Definition usesTool (selectedTool : Tool) (s : App) : bool :=
  match tool s, selectedTool with
  | Some magicFill, magicFill | Some insert, insert | Some expand, expand => true
  | _, _ => false
  end.

(** [renderPlacementUI] returns the draggable object. *)
Definition placementShown (s : App) : bool :=
  editorShown s && isPlacingImage s && isSome (insertImage s).

(** *** What the user, the network and the clock can do *)

(** The browser's answers to one [handleEditSubmit]; [insertLoads] is
    whether [insertImg.onload] ever fires: a file that does not decode is
    accepted at upload and its load never completes. *)
Record EditEnv := {
  compositeContext : bool;
  maskContext : bool;
  fileToDataUrl : File -> Settled string;
  editImageWithText : string -> string -> Editor.Base64 -> string -> string -> Settled string;
  blendImages :
    string -> PlacementCanvas -> PlacementCanvas -> string -> string -> Settled string;
  insertLoads : bool
}.

(** Whether an Insert submission reaches the wait for both pictures
    (lines 269-272) and stays there. *)
Definition waitsForever (env : EditEnv) (s : App) : bool :=
  match originalImage s, tool s, insertImage s with
  | Some originalImage, Some insert, Some _ =>
    match fileToDataUrl env (file originalImage) with
    | Resolved _ => negb (insertLoads env)
    | Rejected _ => false
    end
  | _, _, _ => false
  end.

(** Where such a submission leaves the session. *)
Definition waiting (s : App) : App :=
  setLoadingMessage "Blending image..." (setAppState LOADING (setError None s)).

Definition submitEdit (env : EditEnv) (s : App) : App :=
  if waitsForever env s then waiting s
  else
    handleEditSubmit (compositeContext env) (maskContext env) (fileToDataUrl env)
      (editImageWithText env) (blendImages env) s.

Definition submitBlend (env : EditEnv) (s : App) : App :=
  if waitsForever env s then setIsPlacingImage false (waiting s)
  else
    insertAndBlend (compositeContext env) (maskContext env) (fileToDataUrl env)
      (editImageWithText env) (blendImages env) s.

(** Each control of the page with what the event carries; a request comes
    with the outcome it settles to, a button of the editor with the editor
    component's state at that moment. *)
Inductive Action :=
| EditAnImage
| CreateAnImage
| TypeGenerationPrompt (v : string)
| Generate (generateImage : string -> Settled string)
| TypeContext (v : string)
| Upload (picked : option Picked)
| SelectTool (selectedTool : Tool)
| ChangeImage
| ChangeTool
| Expander (direction : Direction)
| UndoExpansion
| TypePrompt (v : string)
| SubmitExpansion (expandContext : bool)
    (expandImage : string -> ExpandCanvas -> string -> Settled string)
| CropImage
| ApplyCrop (croppedDataUrl : string) (loaded : Settled (string * (Z * Z)))
    (editor : option Editor.Editor)
| CancelCrop
| RestoreOriginal (editor : option Editor.Editor)
| NextStep (hasContext : bool) (editor : option Editor.Editor)
| Slide (slider : Slider) (v : Z)
| Mouse (container : option (R * R)) (ev : DragEvent)
| InsertAndBlend (env : EditEnv)
| CancelPlacement
| UploadInsert (picked : option Picked)
| AdjustPlacement
| Submit (env : EditEnv)
| ContinueEditing (fetched : Settled (string * string * (Z * Z)))
| EditOriginalAgain
| StartOver
| Home.

(** Whether the page has the control, enabled, in this state.  A range
    input only reports values of its range; the window's mouse listeners
    are checked by [deliver]. *)
Definition offered (ss : Session) (a : Action) : bool :=
  let s := app (shell ss) in
  match a with
  | EditAnImage | CreateAnImage => onScreen HOME s
  | TypeGenerationPrompt _ => onScreen GENERATE_PROMPT s
  | Generate _ => onScreen GENERATE_PROMPT s && nonEmpty (generationPrompt (shell ss))
  | TypeContext _ | Upload _ => onScreen IDLE s
  | SelectTool _ | ChangeImage => onScreen TOOL_SELECTION s
  | ChangeTool => expandingShown s || editorShown s
  | Expander _ => expandingShown s && negb (isAtLimit s)
  | UndoExpansion => expandingShown s && negb (Nat.eqb (length (expandHistory s)) 0)
  | TypePrompt _ => expandingShown s || (describePanel s && usesTool magicFill s)
  | SubmitExpansion _ _ => expandingShown s && nonEmpty (prompt s) && hasExpanded s
  | CropImage => editorShown s && (usesTool magicFill s || usesTool insert s)
  | ApplyCrop _ _ _ | CancelCrop => cropperShown s
  | RestoreOriginal _ => cropperShown s && showRestoreButton s
  | NextStep _ _ => selectPanel s
  | Slide slider v =>
    placePanel s && (sliderMin slider <=? v)%Z && (v <=? sliderMax slider)%Z
  | Mouse _ (MouseDown _ _) => placementShown s
  | Mouse _ _ => true
  | InsertAndBlend _ | CancelPlacement => placePanel s
  | UploadInsert _ => describePanel s && usesTool insert s && negb (isSome (insertImage s))
  | AdjustPlacement => describePanel s && usesTool insert s && isSome (insertImage s)
  | Submit _ => describePanel s && isReadyForSubmit s
  | ContinueEditing _ => onScreen RESULT s && isSome (resultData s)
  | EditOriginalAgain => onScreen RESULT s && isSome (originalImage s)
  | StartOver => onScreen RESULT s
  | Home => negb (onScreen HOME s)
  end.

(** The handler behind each control. *)
Definition perform (ss : Session) (a : Action) : Session :=
  match a with
  | EditAnImage => onApp (setAppState IDLE) ss
  | CreateAnImage => onApp (setAppState GENERATE_PROMPT) ss
  | TypeGenerationPrompt v =>
    onShell (fun sh => {| app := app sh; generationPrompt := v |}) ss
  | Generate generateImage => onShell (handleGenerateSubmit generateImage) ss
  | TypeContext v => onApp (setSystemContext v) ss
  | Upload picked => onApp (handleFileChange picked) ss
  | SelectTool selectedTool => onApp (handleToolSelect selectedTool) ss
  | ChangeImage => onApp handleBackToUpload ss
  | ChangeTool => onApp handleBackToToolSelection ss
  | Expander direction => onApp (handleExpandClick direction) ss
  | UndoExpansion => onApp handleUndoExpand ss
  | TypePrompt v => onApp (setPrompt v) ss
  | SubmitExpansion expandContext expandImage =>
    onApp (handleExpandSubmit expandContext expandImage) ss
  | CropImage => onApp handleStartCropping ss
  | ApplyCrop croppedDataUrl loaded editor =>
    onApp (fun s => fst (handleSaveCrop croppedDataUrl loaded s editor)) ss
  | CancelCrop => onApp handleCancelCrop ss
  | RestoreOriginal editor => onApp (fun s => fst (handleRestoreOriginal s editor)) ss
  | NextStep hasContext editor => onApp (handleNextStep hasContext editor) ss
  | Slide slider v =>
    onApp (fun s => setInsertImageTransform (slide slider (IZR v) (insertImageTransform s)) s) ss
  | Mouse container ev =>
    let (s, d) := deliver container (app (shell ss), placementDrag ss) ev in
    {| shell := {| app := s; generationPrompt := generationPrompt (shell ss) |};
       placementDrag := d |}
  | InsertAndBlend env => onApp (submitBlend env) ss
  | CancelPlacement => onApp (fun s => setInsertImage None (setIsPlacingImage false s)) ss
  | UploadInsert picked => onApp (handleInsertFileChange picked) ss
  | AdjustPlacement => onApp (setIsPlacingImage true) ss
  | Submit env => onApp (submitEdit env) ss
  | ContinueEditing fetched => onApp (continueEditing fetched) ss
  | EditOriginalAgain => onApp handleEditAgain ss
  | StartOver | Home => onShell handleReset ss
  end.

(** Whether the request the action starts settles. *)
Definition settles (ss : Session) (a : Action) : bool :=
  match a with
  | Submit env | InsertAndBlend env => negb (waitsForever env (app (shell ss)))
  | _ => true
  end.

(** The sessions followed are those in which every request and every file
    read settles before the next action: a handler runs to the end of its
    promise in one step, and a press whose request never settles, after
    which only the Home button leads on, is left out of the run. *)
Definition act (ss : Session) (a : Action) : Session :=
  if offered ss a && settles ss a then perform ss a else ss.

Definition run (actions : list Action) (ss : Session) : Session :=
  fold_left act actions ss.

Local Close Scope string_scope.

End Session.

(** ** App.tsx: the preview of the Expanding screen *)

Module ExpandingScreen.
Import DOM App.

Definition MAX_VIEWPORT_DIM : Q := 550.

(** [Math.min(scaleX, scaleY, 1)]. *)
Definition Math_min3 (a b c : Q) : Q := Qmin (Qmin a b) c.

(** The pixel lengths written into [canvasStyle] and [imageStyle]. *)
Record PreviewStyle := {
  canvasStyleWidth : Q;
  canvasStyleHeight : Q;
  imageStyleWidth : Q;
  imageStyleHeight : Q;
  imageStyleTop : Q;
  imageStyleLeft : Q
}.

Definition previewScale (originalImage : OriginalImage) (expandSteps : ExpandSteps)
    (expansionStepSize : Z) : Q :=
  let expandedWidth :=
    inject_Z (width originalImage + (left expandSteps + right expandSteps) * expansionStepSize) in
  let expandedHeight :=
    inject_Z (height originalImage + (top expandSteps + bottom expandSteps) * expansionStepSize) in
  let scaleX := (MAX_VIEWPORT_DIM / expandedWidth)%Q in
  let scaleY := (MAX_VIEWPORT_DIM / expandedHeight)%Q in
  Math_min3 scaleX scaleY 1.

Definition previewStyle (originalImage : OriginalImage) (expandSteps : ExpandSteps)
    (expansionStepSize : Z) : PreviewStyle :=
  let expandedWidth :=
    inject_Z (width originalImage + (left expandSteps + right expandSteps) * expansionStepSize) in
  let expandedHeight :=
    inject_Z (height originalImage + (top expandSteps + bottom expandSteps) * expansionStepSize) in
  let scale := previewScale originalImage expandSteps expansionStepSize in
  let previewImageWidth := (inject_Z (width originalImage) * scale)%Q in
  let previewImageHeight := (inject_Z (height originalImage) * scale)%Q in
  {| canvasStyleWidth := (expandedWidth * scale)%Q;
     canvasStyleHeight := (expandedHeight * scale)%Q;
     imageStyleWidth := previewImageWidth;
     imageStyleHeight := previewImageHeight;
     imageStyleTop := (inject_Z (top expandSteps * expansionStepSize) * scale)%Q;
     imageStyleLeft := (inject_Z (left expandSteps * expansionStepSize) * scale)%Q |}.

End ExpandingScreen.

(** ** App.tsx calling services/geminiService.ts *)

Module Wiring.
Import DOM App.
Local Open Scope string_scope.

Section Calls.

(** The SDK behind the services. *)
Variable generateContent :
  Services.GenerateContentRequest -> Services.Completion Services.GenerateContentResponse.
Variable generateImages :
  Services.GenerateImagesRequest -> Services.Completion Services.GenerateImagesResponse.
Variable typeErrorMessage : string.

(** [toDataURL(type).split(',')[1]] of the mask exported by the editor and
    of the canvases built at submit time. *)
Variable maskBase64 : Editor.ImageData -> string.
Variable expandBase64 : ExpandCanvas -> string -> string.
Variable placementBase64 : PlacementCanvas -> string -> string.

(** [finalSelection] as the string it is. *)
Definition selectionString (selection : Editor.Base64) : string :=
  match selection with
  | Editor.EmptyStr => ""
  | Editor.PngOf img => maskBase64 img
  end.

(** [editImageWithText(prompt, originalBase64, finalSelection,
    originalImage.file.type, systemContext)]. *)
Definition callEdit (prompt originalBase64 : string) (finalSelection : Editor.Base64)
    (originalMimeType systemContext : string) : Settled string :=
  Services.editImageWithText generateContent prompt originalBase64
    (selectionString finalSelection) originalMimeType (Some systemContext).

(** [blendImages(originalBase64, compositeBase64, preciseMaskBase64,
    originalImage.file.type, insertImage.file.type)]. *)
Definition callBlend (originalBase64 : string) (composite mask : PlacementCanvas)
    (originalMimeType insertMimeType : string) : Settled string :=
  Services.blendImages generateContent originalBase64
    (placementBase64 composite insertMimeType) (placementBase64 mask "image/png")
    originalMimeType insertMimeType.

(** [expandImage(prompt, compositeBase64, originalImage.file.type)]. *)
Definition callExpand (prompt : string) (canvas : ExpandCanvas) (originalMimeType : string)
  : Settled string :=
  Services.expandImage generateContent prompt (expandBase64 canvas originalMimeType)
    originalMimeType.

(** [generateImage(generationPrompt)]. *)
Definition callGenerate (generationPrompt : string) : Settled string :=
  Services.generateImage generateImages typeErrorMessage generationPrompt.

End Calls.

End Wiring.

(** ** Sample values used by the worked instances *)

Module Samples.
Import App.
Local Open Scope string_scope.

(** An 800-by-600 upload, waiting on the tool-selection screen. *)
Definition photo : OriginalImage :=
  {| url := "data:image/png;base64,AAAA";
     file := {| name := "photo.png"; type := "image/png" |};
     width := 800; height := 600 |}.

Definition uploaded : App :=
  setAppState TOOL_SELECTION (setOriginalImage (Some photo) initialApp).

(** A 50-by-50 object to insert. *)
Definition sticker : InsertImage :=
  {| insertUrl := "data:image/png;base64,BBBB";
     insertFile := {| name := "sticker.png"; type := "image/png" |};
     naturalWidth := 50; naturalHeight := 50 |}.

End Samples.

(** * Properties *)

(** ** DOM conversions *)

Module DOMFacts.
Import DOM.

Lemma Qltb_lt (a b : Q) : Qltb a b = true <-> (a < b)%Q.
Proof.
  unfold Qltb. rewrite negb_true_iff. split.
  - intros H. apply Qnot_le_lt. intros Hle.
    apply Qle_bool_iff in Hle. congruence.
  - intros H. apply not_true_is_false. intros Hle.
    apply Qle_bool_iff in Hle. apply (Qlt_not_le _ _ H). exact Hle.
Qed.

Lemma Qltb_ge (a b : Q) : Qltb a b = false <-> (b <= a)%Q.
Proof.
  unfold Qltb. rewrite negb_false_iff. apply Qle_bool_iff.
Qed.

(** Assigning a non-negative number below 2^31 to a canvas dimension keeps
    its integer part. *)
Lemma setDimension_floor (default : Z) (q : Q) :
  (0 <= q)%Q -> (q < inject_Z (2 ^ 31))%Q -> setDimension default q = Qfloor q.
Proof.
  intros Hlo Hhi.
  assert (H0 : 0 <= Qfloor q).
  { change 0 with (Qfloor (inject_Z 0)). apply Qfloor_resp_le. exact Hlo. }
  assert (H1 : Qfloor q < 2 ^ 31).
  { rewrite Zlt_Qlt. apply Qle_lt_trans with q; [apply Qfloor_le | exact Hhi]. }
  unfold setDimension, toUnsignedLong, Qtruncate.
  replace (Qltb q 0) with false by (symmetry; apply Qltb_ge; exact Hlo).
  rewrite Z.mod_small by lia.
  replace (Qfloor q <=? 2147483647) with true by (symmetry; apply Z.leb_le; lia).
  reflexivity.
Qed.

Lemma setDimension_Z (default z : Z) :
  0 <= z <= 2147483647 -> setDimension default (inject_Z z) = z.
Proof.
  intros [Hlo Hhi]. rewrite setDimension_floor.
  - apply Qfloor_Z.
  - change 0%Q with (inject_Z 0). rewrite <- Zle_Qle. exact Hlo.
  - rewrite <- Zlt_Qlt. lia.
Qed.

End DOMFacts.

(** ** Signs of double operations *)

Module DoubleFacts.
Import DOM Double.

(** Not below zero, where the double has a sign at all. *)
Definition signless (d : double) : bool :=
  match d with
  | SpecFloat.S754_zero s | SpecFloat.S754_infinity s | SpecFloat.S754_finite s _ _ => negb s
  | SpecFloat.S754_nan => true
  end.

Lemma round_signless (m e : Z) (l : SpecFloat.location) :
  signless (SpecFloat.binary_round_aux prec emax false m e l) = true.
Proof.
  unfold SpecFloat.binary_round_aux.
  destruct (SpecFloat.shr_fexp prec emax m e l) as [mrs' e'].
  destruct (SpecFloat.shr_fexp prec emax _ e' SpecFloat.loc_Exact) as [mrs'' e''].
  destruct (SpecFloat.shr_m mrs''); [reflexivity| |reflexivity].
  destruct (e'' <=? emax - prec); reflexivity.
Qed.

Lemma ofZ_signless (z : Z) : 0 <= z -> signless (ofZ z) = true.
Proof.
  intros H. destruct z as [|m|m]; [reflexivity| |lia].
  unfold ofZ, SpecFloat.binary_normalize, SpecFloat.binary_round.
  destruct (SpecFloat.shl_align _ _ _) as [mz ez]. apply round_signless.
Qed.

Lemma div_signless (a b : double) :
  signless a = true -> signless b = true -> signless (div a b) = true.
Proof.
  intros Ha Hb. destruct a as [[]|[]| |[] ma ea], b as [[]|[]| |[] mb eb];
    try discriminate; try reflexivity.
  unfold div, SpecFloat.SFdiv.
  destruct (SpecFloat.SFdiv_core_binary prec emax _ _ _ _) as [[mz ez] lz].
  apply round_signless.
Qed.

Lemma mul_signless (a b : double) :
  signless a = true -> signless b = true -> signless (mul a b) = true.
Proof.
  intros Ha Hb. destruct a as [[]|[]| |[] ma ea], b as [[]|[]| |[] mb eb];
    try discriminate; try reflexivity.
  unfold mul, SpecFloat.SFmul. apply round_signless.
Qed.

Lemma ofQ_signless (q : Q) : (0 <= q)%Q -> signless (ofQ q) = true.
Proof.
  intros H. unfold ofQ. destruct q as [n d]. cbn [Qnum Qden].
  destruct n as [|n|n]; [reflexivity| |].
  - apply div_signless; reflexivity.
  - exfalso. unfold Qle in H. cbn in H. lia.
Qed.

Lemma signless_value (d : double) (w : Q) :
  signless d = true -> valueOf d = Some w -> (0 <= w)%Q.
Proof.
  intros Hs Hv. destruct d as [s|s| |s m e]; try discriminate.
  - inversion Hv. apply Qle_refl.
  - destruct s; [discriminate|]. cbn in Hv. inversion Hv.
    destruct e as [|k|k]; unfold Qle; cbn; lia.
Qed.
End DoubleFacts.

(** ** ImageEditor.tsx *)

Module EditorProofs.
Import DOM Editor.

(** The mask bytes the loop is meant to produce, four bytes at a time. *)
Fixpoint binarize (d : list Z) : list Z :=
  match d with
  | _ :: _ :: _ :: a :: rest =>
    (if 0 <? a then [255; 255; 255; 255] else [0; 0; 0; 255]) ++ binarize rest
  | _ => []
  end.

(** Whether some pixel has a positive alpha byte. *)
Fixpoint anyAlpha (d : list Z) : bool :=
  match d with
  | _ :: _ :: _ :: a :: rest => (0 <? a) || anyAlpha rest
  | _ => false
  end.

Lemma writePixel_app (i : nat) (m1 m2 : list Z) (w x y z r g b a : Z) :
  i = length m1 ->
  writePixel i r g b a (m1 ++ w :: x :: y :: z :: m2)
  = (m1 ++ [r; g; b; a]) ++ m2.
Proof.
  intros ->. unfold writePixel.
  rewrite !insert_app_r_alt by lia.
  replace (length m1 - length m1)%nat with 0%nat by lia.
  replace (length m1 + 1 - length m1)%nat with 1%nat by lia.
  replace (length m1 + 2 - length m1)%nat with 2%nat by lia.
  replace (length m1 + 3 - length m1)%nat with 3%nat by lia.
  simpl. rewrite <- app_assoc. reflexivity.
Qed.

(** The loop, started at a pixel boundary with enough fuel, runs to the end
    of the data and leaves [binarize] of the remaining pixels. *)
Lemma maskLoop_spec (k : nat) :
  forall (d1 d2 m1 m2 : list Z) (h : bool) (fuel : nat),
    length m1 = length d1 ->
    length m2 = length d2 ->
    length d2 = (4 * k)%nat ->
    (k < fuel)%nat ->
    maskLoop fuel (length d1) (d1 ++ d2) (m1 ++ m2) h
    = (m1 ++ binarize d2, h || anyAlpha d2).
Proof.
  induction k as [|k IH]; intros d1 d2 m1 m2 h fuel Hm1 Hm2 Hd2 Hfuel.
  - destruct d2; [|discriminate]. destruct m2; [|discriminate].
    destruct fuel as [|fuel]; [lia|]. simpl.
    rewrite app_nil_r.
    replace (length d1 <? length d1)%nat with false
      by (symmetry; apply Nat.ltb_ge; lia).
    rewrite orb_false_r. reflexivity.
  - destruct d2 as [|r [|g [|b [|a d2]]]]; simpl in Hd2; try lia.
    destruct m2 as [|w [|x [|y [|z m2]]]]; simpl in Hm2; try lia.
    destruct fuel as [|fuel]; [lia|].
    cbn [maskLoop].
    replace (length d1 <? length (d1 ++ r :: g :: b :: a :: d2))%nat with true
      by (symmetry; apply Nat.ltb_lt; rewrite length_app; simpl; lia).
    replace ((d1 ++ r :: g :: b :: a :: d2) !! (length d1 + 3)%nat) with (Some a)
      by (rewrite lookup_app_r by lia;
          replace (length d1 + 3 - length d1)%nat with 3%nat by lia; reflexivity).
    rewrite !(writePixel_app (length d1)) by (symmetry; exact Hm1).
    replace (d1 ++ r :: g :: b :: a :: d2) with ((d1 ++ [r; g; b; a]) ++ d2)
      by (rewrite <- app_assoc; reflexivity).
    replace (length d1 + 4)%nat with (length (d1 ++ [r; g; b; a]))
      by (rewrite length_app; reflexivity).
    unfold alphaSet.
    destruct (0 <? a) eqn:Ha.
    + rewrite IH; [| rewrite !length_app; simpl; lia | lia | lia | lia].
      cbn [binarize anyAlpha]. rewrite Ha. rewrite <- app_assoc.
      rewrite orb_true_r. reflexivity.
    + rewrite IH; [| rewrite !length_app; simpl; lia | lia | lia | lia].
      cbn [binarize anyAlpha]. rewrite Ha. rewrite <- app_assoc. reflexivity.
Qed.

Lemma maskLoop_whole (d : list Z) (k : nat) :
  length d = (4 * k)%nat ->
  maskLoop (S (length d)) 0 d (replicate (length d) 0) false
  = (binarize d, anyAlpha d).
Proof.
  intros Hd.
  apply (maskLoop_spec k [] d [] (replicate (length d) 0) false (S (length d)));
    [reflexivity | apply length_replicate | exact Hd | lia].
Qed.

Lemma binarize_length (k : nat) :
  forall d, length d = (4 * k)%nat -> length (binarize d) = length d.
Proof.
  induction k as [|k IH]; intros d Hd.
  - destruct d; [reflexivity|discriminate].
  - destruct d as [|r [|g [|b [|a d]]]]; simpl in Hd; try lia.
    cbn [binarize]. rewrite length_app. rewrite IH by lia.
    destruct (0 <? a); reflexivity.
Qed.

(** Pixel [p] of the source, and the four bytes of pixel [p] of the mask. *)
Definition alphaAt (d : list Z) (p : nat) : option Z := d !! (4 * p + 3)%nat.

Definition pixelBytes (d : list Z) (p : nat) : list (option Z) :=
  [d !! (4 * p)%nat; d !! (4 * p + 1)%nat; d !! (4 * p + 2)%nat; d !! (4 * p + 3)%nat].

Definition white : list (option Z) := [Some 255; Some 255; Some 255; Some 255].
Definition black : list (option Z) := [Some 0; Some 0; Some 0; Some 255].

Lemma binarize_pixel (k : nat) :
  forall d p, length d = (4 * k)%nat -> (p < k)%nat ->
    exists a, alphaAt d p = Some a /\
      pixelBytes (binarize d) p = if 0 <? a then white else black.
Proof.
  induction k as [|k IH]; intros d p Hd Hp; [lia|].
  destruct d as [|r [|g [|b [|a d]]]]; simpl in Hd; try lia.
  destruct p as [|p].
  - exists a. split; [reflexivity|].
    cbn [binarize]. destruct (0 <? a); reflexivity.
  - destruct (IH d p) as [a' [Ha' Hpx]]; [lia|lia|].
    exists a'. split.
    + unfold alphaAt in *. replace (4 * S p + 3)%nat with (S (S (S (S (4 * p + 3))))) by lia.
      exact Ha'.
    + rewrite <- Hpx. unfold pixelBytes. cbn [binarize].
      replace (4 * S p)%nat with (4 + 4 * p)%nat by lia.
      replace (4 + 4 * p + 1)%nat with (4 + (4 * p + 1))%nat by lia.
      replace (4 + 4 * p + 2)%nat with (4 + (4 * p + 2))%nat by lia.
      replace (4 + 4 * p + 3)%nat with (4 + (4 * p + 3))%nat by lia.
      destruct (0 <? a); reflexivity.
Qed.

Lemma anyAlpha_true (k : nat) :
  forall d, length d = (4 * k)%nat ->
    (anyAlpha d = true <-> exists p a, (p < k)%nat /\ alphaAt d p = Some a /\ 0 < a).
Proof.
  induction k as [|k IH]; intros d Hd.
  - destruct d; [|discriminate]. simpl. split; [discriminate|].
    intros (p & a & Hp & _). lia.
  - destruct d as [|r [|g [|b [|a d]]]]; simpl in Hd; try lia.
    cbn [anyAlpha]. rewrite orb_true_iff, (IH d) by lia. split.
    + intros [Ha | (p & a' & Hp & Hq & Hpos)].
      * exists 0%nat, a. repeat split; [lia | apply Z.ltb_lt; exact Ha].
      * exists (S p), a'. repeat split; [lia | | exact Hpos].
        unfold alphaAt in *.
        replace (4 * S p + 3)%nat with (S (S (S (S (4 * p + 3))))) by lia. exact Hq.
    + intros (p & a' & Hp & Hq & Hpos). destruct p as [|p].
      * left. unfold alphaAt in Hq. simpl in Hq. inversion Hq; subst.
        apply Z.ltb_lt; exact Hpos.
      * right. exists p, a'. repeat split; [lia | | exact Hpos].
        unfold alphaAt in *.
        replace (4 * S p + 3)%nat with (S (S (S (S (4 * p + 3))))) in Hq by lia. exact Hq.
Qed.

(** A stroke canvas as the editor sizes it: positive dimensions and four
    bytes per pixel. *)
Definition wellFormed (canvas : Canvas) : Prop :=
  0 < width canvas /\ 0 < height canvas /\
  Z.of_nat (length (bitmap canvas)) = 4 * width canvas * height canvas.

Definition pixelCount (canvas : Canvas) : nat := Z.to_nat (width canvas * height canvas).

Definition somePixelDrawn (canvas : Canvas) : Prop :=
  exists p a, (p < pixelCount canvas)%nat /\ alphaAt (bitmap canvas) p = Some a /\ 0 < a.

Definition noPixelDrawn (canvas : Canvas) : Prop :=
  forall p a, (p < pixelCount canvas)%nat -> alphaAt (bitmap canvas) p = Some a -> a <= 0.

Lemma wellFormed_length (canvas : Canvas) :
  wellFormed canvas -> length (bitmap canvas) = (4 * pixelCount canvas)%nat.
Proof.
  intros (Hw & Hh & Hlen). unfold pixelCount. nia.
Qed.

Lemma getMaskAsBase64_eval (maskContext : bool) (canvas : Canvas) :
  context2d canvas = true -> wellFormed canvas ->
  getMaskAsBase64 maskContext (Some canvas) =
    if negb (anyAlpha (bitmap canvas)) then Returned EmptyStr
    else if negb maskContext then Returned EmptyStr
    else Returned (PngOf {| data := binarize (bitmap canvas);
                            sw := width canvas; sh := height canvas |}).
Proof.
  intros Hctx Hwf. pose proof (wellFormed_length canvas Hwf) as Hlen.
  destruct Hwf as (Hw & Hh & Hbytes).
  unfold getMaskAsBase64, getImageData. rewrite Hctx. cbn [negb].
  replace (width canvas =? 0) with false by (symmetry; apply Z.eqb_neq; lia).
  replace (height canvas =? 0) with false by (symmetry; apply Z.eqb_neq; lia).
  cbn [orb data].
  rewrite (maskLoop_whole (bitmap canvas) (pixelCount canvas) Hlen).
  destruct (anyAlpha (bitmap canvas)); cbn [negb]; [|reflexivity].
  destruct maskContext; cbn [negb]; [|reflexivity].
  unfold newImageData.
  rewrite (binarize_length (pixelCount canvas)) by exact Hlen.
  replace (0 <? width canvas) with true by (symmetry; apply Z.ltb_lt; lia).
  replace (0 <? height canvas) with true by (symmetry; apply Z.ltb_lt; lia).
  replace (Z.of_nat (length (bitmap canvas)) =? 4 * width canvas * height canvas)
    with true by (symmetry; apply Z.eqb_eq; exact Hbytes).
  reflexivity.
Qed.

Lemma noPixelDrawn_anyAlpha (canvas : Canvas) :
  wellFormed canvas -> noPixelDrawn canvas -> anyAlpha (bitmap canvas) = false.
Proof.
  intros Hwf Hnone. apply not_true_is_false. intros Hany.
  apply (anyAlpha_true (pixelCount canvas)) in Hany; [|apply wellFormed_length; exact Hwf].
  destruct Hany as (p & a & Hp & Ha & Hpos).
  specialize (Hnone p a Hp Ha). lia.
Qed.

(** An empty export leaves "Next Step" on the validation message. *)
Lemma handleNextStep_empty (maskContext : bool) (ed : Editor) (s : App.App) :
  exportBinaryMask maskContext ed = Returned EmptyStr ->
  App.handleNextStep maskContext (Some ed) s
  = App.setError (Some "Please select an area before proceeding."%string) s.
Proof.
  intros H. unfold App.handleNextStep. rewrite H. reflexivity.
Qed.

Lemma submitOffered_needs_selection (s : App.App) :
  App.isSelectionDone s = false -> App.submitOffered s = false.
Proof.
  intros H. unfold App.submitOffered.
  destruct (App.appState s); try reflexivity.
  destruct (App.originalImage s); try reflexivity.
  rewrite H. rewrite andb_false_r. reflexivity.
Qed.

(** C4.  For a stroke canvas whose context is available: if some pixel has
    alpha above 0, [exportBinaryMask] returns a mask of the canvas's own
    width and height, with as many bytes as the source, in which every pixel
    with source alpha above 0 is (255,255,255,255) and every other pixel is
    (0,0,0,255); if no pixel has alpha above 0 it returns the empty string,
    after which "Next Step" finalises nothing, shows the select-an-area
    message, and the Editing screen offers no submit button. *)
Theorem exportBinaryMask_binary (ed : Editor) (canvas : Canvas) :
  drawingCanvas ed = Some canvas ->
  context2d canvas = true ->
  wellFormed canvas ->
  (somePixelDrawn canvas ->
   exists maskData,
     exportBinaryMask true ed
     = Returned (PngOf {| data := maskData; sw := width canvas; sh := height canvas |}) /\
     length maskData = length (bitmap canvas) /\
     forall p, (p < pixelCount canvas)%nat ->
       exists a, alphaAt (bitmap canvas) p = Some a /\
         pixelBytes maskData p = if 0 <? a then white else black) /\
  (noPixelDrawn canvas ->
   forall maskContext,
     exportBinaryMask maskContext ed = Returned EmptyStr /\
     forall s, App.isSelectionDone s = false ->
       let s' := App.handleNextStep maskContext (Some ed) s in
       App.isSelectionDone s' = false /\
       App.finalSelection s' = App.finalSelection s /\
       App.error s' = Some "Please select an area before proceeding."%string /\
       App.submitOffered s' = false).
Proof.
  intros Hcanvas Hctx Hwf.
  pose proof (wellFormed_length canvas Hwf) as Hlen.
  unfold exportBinaryMask. rewrite Hcanvas. split.
  - intros Hsome.
    apply (anyAlpha_true (pixelCount canvas)) in Hsome; [|exact Hlen].
    exists (binarize (bitmap canvas)). split; [|split].
    + rewrite getMaskAsBase64_eval by assumption. rewrite Hsome. reflexivity.
    + apply (binarize_length (pixelCount canvas)); exact Hlen.
    + intros p Hp. apply (binarize_pixel (pixelCount canvas)); assumption.
  - intros Hnone maskContext.
    assert (Hempty : getMaskAsBase64 maskContext (Some canvas) = Returned EmptyStr).
    { rewrite getMaskAsBase64_eval by assumption.
      rewrite (noPixelDrawn_anyAlpha canvas Hwf Hnone). reflexivity. }
    split; [exact Hempty|].
    intros s Hs. cbv zeta.
    rewrite handleNextStep_empty
      by (unfold exportBinaryMask; rewrite Hcanvas; exact Hempty).
    repeat split; try assumption.
    apply submitOffered_needs_selection. exact Hs.
Qed.

(** A 2-by-1 stroke canvas with its first pixel painted at half opacity. *)
Definition sampleRect : DOMRect :=
  {| rect_left := 0; rect_top := 0; rect_width := 2; rect_height := 1 |}.

Definition sampleCanvas : Canvas :=
  {| width := 2; height := 1; rect := sampleRect; context2d := true;
     bitmap := [255; 255; 255; 128; 0; 0; 0; 0] |}.

Definition sampleEditor : Editor :=
  {| isDrawing := false; lastPoint := None;
     drawingCanvas := Some sampleCanvas; brushSize := 30 |}.

Lemma exportBinaryMask_binary_witness :
  (somePixelDrawn sampleCanvas ->
   exists maskData,
     exportBinaryMask true sampleEditor
     = Returned (PngOf {| data := maskData; sw := 2; sh := 1 |}) /\
     length maskData = 8%nat /\
     forall p, (p < pixelCount sampleCanvas)%nat ->
       exists a, alphaAt (bitmap sampleCanvas) p = Some a /\
         pixelBytes maskData p = if 0 <? a then white else black) /\
  (noPixelDrawn sampleCanvas ->
   forall maskContext,
     exportBinaryMask maskContext sampleEditor = Returned EmptyStr /\
     forall s, App.isSelectionDone s = false ->
       let s' := App.handleNextStep maskContext (Some sampleEditor) s in
       App.isSelectionDone s' = false /\
       App.finalSelection s' = App.finalSelection s /\
       App.error s' = Some "Please select an area before proceeding."%string /\
       App.submitOffered s' = false).
Proof.
  apply (exportBinaryMask_binary sampleEditor sampleCanvas).
  - reflexivity.
  - reflexivity.
  - unfold wellFormed. simpl. lia.
Defined.

(** C10.  [getMaskAsBase64] returns the same empty string when the drawing
    canvas is unavailable, when its 2D context is unavailable, and when no
    pixel was drawn; and "Next Step" answers each of the three with the same
    state, the one carrying the select-an-area message. *)
Theorem getMaskAsBase64_failures_coincide
    (maskContext : bool) (noContext blank : Canvas)
    (isDrawing : bool) (lastPoint : option (Q * Q)) (brushSize : Z) (s : App.App) :
  context2d noContext = false ->
  context2d blank = true ->
  wellFormed blank ->
  noPixelDrawn blank ->
  let mounted c :=
    {| isDrawing := isDrawing; lastPoint := lastPoint;
       drawingCanvas := c; brushSize := brushSize |} in
  let pleaseSelect :=
    App.setError (Some "Please select an area before proceeding."%string) s in
  getMaskAsBase64 maskContext None = Returned EmptyStr /\
  getMaskAsBase64 maskContext (Some noContext) = Returned EmptyStr /\
  getMaskAsBase64 maskContext (Some blank) = Returned EmptyStr /\
  App.handleNextStep maskContext (Some (mounted None)) s = pleaseSelect /\
  App.handleNextStep maskContext (Some (mounted (Some noContext))) s = pleaseSelect /\
  App.handleNextStep maskContext (Some (mounted (Some blank))) s = pleaseSelect.
Proof.
  intros HnoCtx Hctx Hwf Hnone mounted pleaseSelect.
  assert (H1 : getMaskAsBase64 maskContext None = Returned EmptyStr) by reflexivity.
  assert (H2 : getMaskAsBase64 maskContext (Some noContext) = Returned EmptyStr).
  { unfold getMaskAsBase64. rewrite HnoCtx. reflexivity. }
  assert (H3 : getMaskAsBase64 maskContext (Some blank) = Returned EmptyStr).
  { rewrite getMaskAsBase64_eval by assumption.
    rewrite (noPixelDrawn_anyAlpha blank Hwf Hnone). reflexivity. }
  repeat split; try assumption;
    apply handleNextStep_empty; unfold exportBinaryMask; assumption.
Qed.

Definition noContextCanvas : Canvas :=
  {| width := 2; height := 1; rect := sampleRect; context2d := false;
     bitmap := [0; 0; 0; 0; 0; 0; 0; 0] |}.

Definition blankCanvas : Canvas :=
  {| width := 2; height := 1; rect := sampleRect; context2d := true;
     bitmap := [0; 0; 0; 0; 0; 0; 0; 0] |}.

Lemma blankCanvas_noPixelDrawn : noPixelDrawn blankCanvas.
Proof.
  intros p a Hp Ha. unfold pixelCount in Hp. simpl in Hp.
  destruct p as [|[|p]]; [| |lia]; vm_compute in Ha; inversion Ha; lia.
Qed.

Lemma getMaskAsBase64_failures_coincide_witness :
  let mounted c :=
    {| isDrawing := false; lastPoint := None;
       drawingCanvas := c; brushSize := 30 |} in
  let pleaseSelect :=
    App.setError (Some "Please select an area before proceeding."%string) App.initialApp in
  getMaskAsBase64 true None = Returned EmptyStr /\
  getMaskAsBase64 true (Some noContextCanvas) = Returned EmptyStr /\
  getMaskAsBase64 true (Some blankCanvas) = Returned EmptyStr /\
  App.handleNextStep true (Some (mounted None)) App.initialApp = pleaseSelect /\
  App.handleNextStep true (Some (mounted (Some noContextCanvas))) App.initialApp = pleaseSelect /\
  App.handleNextStep true (Some (mounted (Some blankCanvas))) App.initialApp = pleaseSelect.
Proof.
  apply (getMaskAsBase64_failures_coincide true noContextCanvas blankCanvas
           false None 30 App.initialApp).
  - reflexivity.
  - reflexivity.
  - unfold wellFormed. simpl. lia.
  - exact blankCanvas_noPixelDrawn.
Defined.

(** *** Taps *)

Section Taps.

Variable stroke : Stroke -> Canvas -> list Z.

(** A pointer-down on an idle editor never reaches [ctx.stroke()]: [draw]
    runs with the [isDrawing] of the render that was on screen. *)
Lemma startDrawing_idle (e : PointerEvent) (ed : Editor) :
  isDrawing ed = false ->
  drawingCanvas (startDrawing stroke e ed) = drawingCanvas ed.
Proof.
  intros Hidle. unfold startDrawing. rewrite Hidle.
  destruct (getCoords ed e); reflexivity.
Qed.

Lemma stopDrawing_canvas (e : PointerEvent) (ed : Editor) :
  drawingCanvas (stopDrawing e ed) = drawingCanvas ed.
Proof.
  unfold stopDrawing. destruct (isDrawing ed); reflexivity.
Qed.

Lemma tap_idle (down up : PointerEvent) (ed : Editor) :
  isDrawing ed = false ->
  drawingCanvas (tap stroke down up ed) = drawingCanvas ed.
Proof.
  intros Hidle. unfold tap. rewrite stopDrawing_canvas.
  apply startDrawing_idle. exact Hidle.
Qed.

(** By contrast a move after the pointer-down does stroke, from the point
    of the pointer-down to the point of the move. *)
Lemma move_after_down_strokes (down move : PointerEvent) (ed : Editor)
    (canvas : Canvas) (c1 c2 : Q * Q) :
  isDrawing ed = false ->
  drawingCanvas ed = Some canvas ->
  context2d canvas = true ->
  getCoords ed down = Some c1 ->
  getCoords ed move = Some c2 ->
  drawingCanvas (onMove stroke move (startDrawing stroke down ed))
  = Some (set_bitmap
            (stroke {| from := c1; to := c2;
                       lineWidth := (inject_Z (brushSize ed)
                                     * (inject_Z (width canvas) / rect_width (rect canvas)))%Q |}
                    canvas) canvas).
Proof.
  intros Hidle Hcanvas Hctx Hdown Hmove.
  unfold startDrawing. rewrite Hidle, Hdown. cbn [draw negb].
  unfold onMove. cbn [isDrawing set_isDrawing set_lastPoint draw negb drawingCanvas].
  rewrite Hcanvas, Hctx. cbn [negb].
  unfold getCoords in *. cbn [drawingCanvas set_isDrawing set_lastPoint lastPoint].
  rewrite Hcanvas in *. rewrite Hmove. reflexivity.
Qed.

End Taps.

(** A blank 2-by-2 stroke canvas shown at its native size, idle. *)
Definition tapCanvas : Canvas :=
  {| width := 2; height := 2;
     rect := {| rect_left := 0; rect_top := 0; rect_width := 2; rect_height := 2 |};
     context2d := true;
     bitmap := replicate 16 0 |}.

Definition tapEditor : Editor :=
  {| isDrawing := false; lastPoint := None;
     drawingCanvas := Some tapCanvas; brushSize := 30 |}.

(** C2 (the code departs from it).  Whatever the rasteriser, a tap at the
    valid coordinate (1,1) of a blank, idle editor leaves the stroke canvas
    as it was, and the export that follows is the empty string: no dot is
    painted. *)
Theorem tap_paints_nothing (stroke : Stroke -> Canvas -> list Z) :
  let down := MouseEvent 1 1 in
  let up := MouseEvent 1 1 in
  (exists c, getCoords tapEditor down = Some c /\ (fst c == 1)%Q /\ (snd c == 1)%Q) /\
  drawingCanvas (tap stroke down up tapEditor) = Some tapCanvas /\
  exportBinaryMask true (tap stroke down up tapEditor) = Returned EmptyStr.
Proof.
  cbv zeta. split; [|split].
  - eexists. split; [reflexivity|]. split; reflexivity.
  - reflexivity.
  - reflexivity.
Qed.

End EditorProofs.

(** ** ImageCropper.tsx *)

Module CropperProofs.
Import DOM DOMFacts DoubleFacts Cropper.

(** The display-to-native size the code computes, [crop.width * scaleX],
    in doubles: the quotient is rounded, then the product. *)
Definition nativeSize (display : Q) (native client : Z) : Double.double :=
  Double.mul (Double.ofQ display) (Double.div (Double.ofZ native) (Double.ofZ client)).

Lemma nativeSize_signless (display : Q) (native client : Z) :
  (0 <= display)%Q -> 0 <= native -> 0 <= client ->
  signless (nativeSize display native client) = true.
Proof.
  intros Hd Hn Hc. unfold nativeSize. apply mul_signless.
  - apply ofQ_signless. exact Hd.
  - apply div_signless; apply ofZ_signless; assumption.
Qed.

(** C6, as amended.  At the end of a drag, a rectangle with a side below 5
    display pixels is discarded and applying the crop then produces nothing;
    a rectangle of at least 5 by 5 is kept, and applying it to a displayed
    image produces a canvas whose width and height are the integer parts
    (floor) of the double-precision products
    [display size * (natural size / displayed size)], per axis, whenever
    these products are finite and below 2^31. *)
Theorem crop_drag_end_size (st : Cropper) (c : Crop) (e : PointerEvent) :
  isDragging st = true ->
  crop st = Some c ->
  ((width c < 5 \/ height c < 5)%Q ->
   crop (handleDragEnd e st) = None /\ handleApplyCrop (handleDragEnd e st) = None) /\
  ((5 <= width c)%Q -> (5 <= height c)%Q ->
   forall img w h,
     image st = Some img -> context2d st = true ->
     0 < clientWidth img -> 0 < clientHeight img ->
     0 <= naturalWidth img -> 0 <= naturalHeight img ->
     Double.valueOf (nativeSize (width c) (naturalWidth img) (clientWidth img)) = Some w ->
     Double.valueOf (nativeSize (height c) (naturalHeight img) (clientHeight img)) = Some h ->
     (w < inject_Z (2 ^ 31))%Q -> (h < inject_Z (2 ^ 31))%Q ->
     exists out,
       handleApplyCrop (handleDragEnd e st) = Some out /\
       canvasWidth out = Qfloor w /\
       canvasHeight out = Qfloor h).
Proof.
  intros Hdrag Hcrop. unfold handleDragEnd. rewrite Hdrag, Hcrop. cbn [negb]. split.
  - intros Hsmall.
    assert (Htest : Qltb (width c) 5 || Qltb (height c) 5 = true).
    { apply orb_true_iff. destruct Hsmall as [H|H]; [left|right]; apply Qltb_lt; exact H. }
    rewrite Htest. split; [reflexivity|].
    unfold handleApplyCrop. cbn [crop set_crop image].
    destruct (image _); reflexivity.
  - intros Hw Hh img w h Himg Hctx Hcw Hch Hnw Hnh Ew Eh Hw1 Hh1.
    assert (Hw0 : (0 <= w)%Q).
    { apply (signless_value _ w (nativeSize_signless _ _ _
               (Qle_trans 0 5 _ ltac:(discriminate) Hw) Hnw (Z.lt_le_incl _ _ Hcw)) Ew). }
    assert (Hh0 : (0 <= h)%Q).
    { apply (signless_value _ h (nativeSize_signless _ _ _
               (Qle_trans 0 5 _ ltac:(discriminate) Hh) Hnh (Z.lt_le_incl _ _ Hch)) Eh). }
    assert (Htest : Qltb (width c) 5 || Qltb (height c) 5 = false).
    { apply orb_false_iff. split; apply Qltb_ge; assumption. }
    rewrite Htest.
    unfold handleApplyCrop.
    cbn [crop image context2d set_startPoint set_isDragging].
    rewrite Himg, Hcrop, Hctx.
    assert (Hwpos : (0 < width c)%Q) by (apply Qlt_le_trans with 5%Q; [reflexivity|exact Hw]).
    assert (Hhpos : (0 < height c)%Q) by (apply Qlt_le_trans with 5%Q; [reflexivity|exact Hh]).
    replace (Qeq_bool (width c) 0) with false.
    2:{ symmetry. apply not_true_is_false. intros H. apply Qeq_bool_iff in H.
        rewrite H in Hwpos. discriminate. }
    replace (Qeq_bool (height c) 0) with false.
    2:{ symmetry. apply not_true_is_false. intros H. apply Qeq_bool_iff in H.
        rewrite H in Hhpos. discriminate. }
    cbn [orb negb]. eexists. split; [reflexivity|].
    cbn [canvasWidth canvasHeight]. unfold Double.setDimensionOfDouble.
    unfold nativeSize in Ew, Eh. rewrite Ew, Eh. split.
    + apply setDimension_floor; assumption.
    + apply setDimension_floor; assumption.
Qed.

(** A 126-by-126 picture shown at 100 by 100, and a drag from (0,0) to
    (10,10) over it. *)
Definition shownImage : Image :=
  {| naturalWidth := 126; naturalHeight := 126;
     clientWidth := 100; clientHeight := 100;
     src := "data:image/png;base64,AAAA" |}.

Definition idleCropper : Cropper :=
  {| crop := None; isDragging := false; startPoint := None;
     container := Some {| rect_left := 0; rect_top := 0;
                          rect_width := 100; rect_height := 100 |};
     image := Some shownImage; context2d := true |}.

Definition dragged : Cropper :=
  handleDragMove (MouseEvent 10 10) (handleDragStart (MouseEvent 0 0) idleCropper).

Definition draggedCrop : Crop :=
  {| x := Qmin (10 - 0) (0 - 0); y := Qmin (10 - 0) (0 - 0);
     width := Qabs (10 - 0 - (0 - 0)); height := Qabs (10 - 0 - (0 - 0)) |}.

(** The double nearest to 10 * 1.26. *)
Definition draggedSize : Q :=
  Eval vm_compute in
    match Double.valueOf (nativeSize 10 126 100) with
    | Some q => q
    | None => 0%Q
    end.

Lemma crop_drag_end_size_witness :
  ((width draggedCrop < 5 \/ height draggedCrop < 5)%Q ->
   crop (handleDragEnd (MouseEvent 10 10) dragged) = None /\
   handleApplyCrop (handleDragEnd (MouseEvent 10 10) dragged) = None) /\
  (exists out,
     handleApplyCrop (handleDragEnd (MouseEvent 10 10) dragged) = Some out /\
     canvasWidth out = Qfloor draggedSize /\
     canvasHeight out = Qfloor draggedSize).
Proof.
  destruct (crop_drag_end_size dragged draggedCrop (MouseEvent 10 10) eq_refl eq_refl)
    as [Hsmall Hkept].
  split; [exact Hsmall|].
  apply (Hkept ltac:(vm_compute; discriminate) ltac:(vm_compute; discriminate)
           shownImage draggedSize draggedSize).
  - reflexivity.
  - reflexivity.
  - reflexivity.
  - reflexivity.
  - discriminate.
  - discriminate.
  - vm_compute. reflexivity.
  - vm_compute. reflexivity.
  - reflexivity.
  - reflexivity.
Defined.

(** The claim's wording of the second half: the produced canvas has the
    rounded native size on each axis. *)
Definition producesRoundedSize (st : Cropper) (c : Crop) (img : Image) : Prop :=
  exists out,
    handleApplyCrop st = Some out /\
    canvasWidth out = roundedSize (width c) (naturalWidth img) (clientWidth img) /\
    canvasHeight out = roundedSize (height c) (naturalHeight img) (clientHeight img).

(** The 10-by-10 drag at ratio 1.26 gives a 12-by-12 canvas, while the
    rounded size of 12.6 is 13. *)
Lemma crop_size_is_not_rounded :
  (5 <= width draggedCrop)%Q /\ (5 <= height draggedCrop)%Q /\
  crop dragged = Some draggedCrop /\ isDragging dragged = true /\
  ~ producesRoundedSize (handleDragEnd (MouseEvent 10 10) dragged) draggedCrop shownImage.
Proof.
  split; [vm_compute; discriminate|].
  split; [vm_compute; discriminate|].
  split; [reflexivity|]. split; [reflexivity|].
  intros (out & Hout & Hw & _).
  vm_compute in Hout. inversion Hout; subst out.
  vm_compute in Hw. discriminate.
Qed.

(** A 450-pixel-wide picture shown 672 pixels wide, with 336 display
    pixels selected: the exact product is 225, the product of the doubles
    is 224.99999999999997, and the canvas is 224 pixels wide. *)
Definition halfOfWide : Cropper :=
  {| crop := Some {| x := 0; y := 0; width := 336; height := 336 |};
     isDragging := false; startPoint := None;
     container := Some {| rect_left := 0; rect_top := 0;
                          rect_width := 672; rect_height := 672 |};
     image := Some {| naturalWidth := 450; naturalHeight := 450;
                      clientWidth := 672; clientHeight := 672;
                      src := "data:image/png;base64,AAAA" |};
     context2d := true |}.

Lemma double_product_below_exact :
  option_map canvasWidth (handleApplyCrop halfOfWide) = Some 224 /\
  Qfloor (336 * (inject_Z 450 / inject_Z 672)) = 225.
Proof. split; vm_compute; reflexivity. Qed.

End CropperProofs.

(** ** App.tsx: Magic Expand *)

Module ExpandProofs.
Import DOM App Samples.

Definition entered : App := handleToolSelect expand uploaded.

Lemma totalClicks_sum (steps : ExpandSteps) :
  totalClicks steps = top steps + right steps + bottom steps + left steps.
Proof. unfold totalClicks. simpl. lia. Qed.

(** A press adds one to one counter, or one to each of two. *)
Lemma increment_total (direction : Direction) (steps : ExpandSteps) :
  totalClicks (increment direction steps) = totalClicks steps + 1 \/
  totalClicks (increment direction steps) = totalClicks steps + 2.
Proof.
  rewrite !totalClicks_sum.
  destruct direction; cbn; lia.
Qed.

Lemma handleExpandClick_rejected (direction : Direction) (s : App) :
  MAX_EXPANSION_CLICKS <= totalClicks (expandSteps s) ->
  expandSteps (handleExpandClick direction s) = expandSteps s /\
  expandHistory (handleExpandClick direction s) = expandHistory s.
Proof.
  intros H. unfold handleExpandClick.
  replace (MAX_EXPANSION_CLICKS <=? totalClicks (expandSteps s)) with true
    by (symmetry; apply Z.leb_le; exact H).
  split; reflexivity.
Qed.

Lemma handleExpandClick_accepted (direction : Direction) (s : App) :
  totalClicks (expandSteps s) < MAX_EXPANSION_CLICKS ->
  handleExpandClick direction s
  = setExpandSteps (increment direction (expandSteps s))
      (setExpandHistory (expandHistory s ++ [expandSteps s]) s).
Proof.
  intros H. unfold handleExpandClick.
  replace (MAX_EXPANSION_CLICKS <=? totalClicks (expandSteps s)) with false
    by (symmetry; apply Z.leb_gt; exact H).
  reflexivity.
Qed.

(** What the guard does ensure: the total is below the maximum before every
    accepted press, so it never passes the maximum by more than one. *)
Lemma handleExpandClick_total (direction : Direction) (s : App) :
  totalClicks (expandSteps s) <= MAX_EXPANSION_CLICKS + 1 ->
  totalClicks (expandSteps (handleExpandClick direction s)) <= MAX_EXPANSION_CLICKS + 1.
Proof.
  intros H.
  destruct (Z_lt_le_dec (totalClicks (expandSteps s)) MAX_EXPANSION_CLICKS) as [Hlt|Hge].
  - rewrite handleExpandClick_accepted by exact Hlt. cbn [expandSteps setExpandSteps].
    destruct (increment_total direction (expandSteps s)) as [E|E]; rewrite E; lia.
  - destruct (handleExpandClick_rejected direction s Hge) as [E _]. rewrite E. exact H.
Qed.

(** Along any run of clicks and undos from a fresh Magic Expand screen,
    every snapshot in the history was taken below the maximum, and the
    current total stays within one of it. *)
Definition withinReach (s : App) : Prop :=
  Forall (fun steps => totalClicks steps < MAX_EXPANSION_CLICKS) (expandHistory s) /\
  totalClicks (expandSteps s) <= MAX_EXPANSION_CLICKS + 1.

Lemma withinReach_step (s : App) (ev : ExpandEvent) :
  withinReach s -> withinReach (expandStep s ev).
Proof.
  intros [Hhist Htotal]. destruct ev as [direction|]; cbn [expandStep].
  - split; [|apply handleExpandClick_total; exact Htotal].
    destruct (Z_lt_le_dec (totalClicks (expandSteps s)) MAX_EXPANSION_CLICKS) as [Hlt|Hge].
    + rewrite handleExpandClick_accepted by exact Hlt.
      cbn [expandHistory setExpandSteps setExpandHistory].
      apply Forall_app. split; [exact Hhist|]. constructor; [exact Hlt|constructor].
    + destruct (handleExpandClick_rejected direction s Hge) as [_ E]. rewrite E. exact Hhist.
  - unfold handleUndoExpand.
    destruct (last (expandHistory s)) as [previousSteps|] eqn:Hlast; [|split; assumption].
    cbn [expandHistory expandSteps setExpandSteps setExpandHistory].
    apply last_Some in Hlast. destruct Hlast as [h Hh].
    rewrite Hh in Hhist |- *. rewrite removelast_last.
    apply Forall_app in Hhist. destruct Hhist as [Hh1 Hh2].
    split; [exact Hh1|]. apply Forall_inv in Hh2. cbv beta in Hh2.
    cbn [expandSteps setExpandSteps setExpandHistory]. lia.
Qed.

Lemma withinReach_run (evs : list ExpandEvent) :
  forall s, withinReach s -> withinReach (expandRun evs s).
Proof.
  induction evs as [|ev evs IH]; intros s H; [exact H|].
  cbn [expandRun fold_left]. fold (expandRun evs (expandStep s ev)).
  apply IH. apply withinReach_step. exact H.
Qed.

(** C1 (the code departs from it).  From a fresh Magic Expand screen, five
    presses of "top" followed by one press of the diagonal "top-left" are
    all accepted and leave the counters at top 6, left 1: their sum is 7,
    above the maximum of 6. *)
Theorem diagonal_click_passes_cap :
  let presses := [Click d_top; Click d_top; Click d_top; Click d_top; Click d_top] in
  let before := expandRun presses entered in
  let after := handleExpandClick d_top_left before in
  totalClicks (expandSteps before) = 5 /\
  expandSteps after = {| top := 6; right := 0; bottom := 0; left := 1 |} /\
  totalClicks (expandSteps after) = 7 /\
  MAX_EXPANSION_CLICKS < totalClicks (expandSteps after).
Proof.
  cbv zeta. split; [reflexivity|]. split; [reflexivity|]. split; reflexivity.
Qed.

(** *** Undo *)

(** The oldest snapshot, or the current counters when nothing was pushed. *)
Definition oldest (s : App) : ExpandSteps := hd (expandSteps s) (expandHistory s).

Lemma history_cases (h : list ExpandSteps) :
  h = [] \/ exists h' a, h = h' ++ [a].
Proof.
  induction h as [|a h' _] using rev_ind; [left; reflexivity|].
  right. exists h', a. reflexivity.
Qed.

Lemma handleUndoExpand_after_click (direction : Direction) (s : App) :
  totalClicks (expandSteps s) < MAX_EXPANSION_CLICKS ->
  expandHistory (handleExpandClick direction s) = expandHistory s ++ [expandSteps s] /\
  expandSteps (handleUndoExpand (handleExpandClick direction s)) = expandSteps s /\
  expandHistory (handleUndoExpand (handleExpandClick direction s)) = expandHistory s.
Proof.
  intros H. rewrite handleExpandClick_accepted by exact H.
  unfold handleUndoExpand. cbn [expandHistory setExpandSteps setExpandHistory].
  rewrite last_snoc. cbn [expandSteps expandHistory setExpandSteps setExpandHistory].
  rewrite removelast_last. repeat split; reflexivity.
Qed.

Lemma handleUndoExpand_empty (s : App) :
  expandHistory s = [] -> handleUndoExpand s = s.
Proof.
  intros H. unfold handleUndoExpand. rewrite H. reflexivity.
Qed.

Lemma oldest_click (direction : Direction) (s : App) :
  oldest (handleExpandClick direction s) = oldest s.
Proof.
  destruct (Z_lt_le_dec (totalClicks (expandSteps s)) MAX_EXPANSION_CLICKS) as [Hlt|Hge].
  - rewrite handleExpandClick_accepted by exact Hlt. unfold oldest.
    cbn [expandSteps expandHistory setExpandSteps setExpandHistory].
    destruct (expandHistory s); reflexivity.
  - unfold oldest. destruct (handleExpandClick_rejected direction s Hge) as [E1 E2].
    rewrite E1, E2. reflexivity.
Qed.

Lemma handleUndoExpand_pop (s : App) (h : list ExpandSteps) (a : ExpandSteps) :
  expandHistory s = h ++ [a] ->
  expandSteps (handleUndoExpand s) = a /\ expandHistory (handleUndoExpand s) = h.
Proof.
  intros H. unfold handleUndoExpand. rewrite H, last_snoc.
  cbn [expandSteps expandHistory setExpandSteps setExpandHistory].
  rewrite removelast_last. split; reflexivity.
Qed.

Lemma oldest_undo (s : App) : oldest (handleUndoExpand s) = oldest s.
Proof.
  destruct (history_cases (expandHistory s)) as [Hh | (h & a & Hh)].
  - rewrite handleUndoExpand_empty by exact Hh. reflexivity.
  - destruct (handleUndoExpand_pop s _ _ Hh) as [E1 E2].
    unfold oldest. rewrite E1, E2, Hh. destruct h; reflexivity.
Qed.

Lemma oldest_run (evs : list ExpandEvent) :
  forall s, oldest (expandRun evs s) = oldest s.
Proof.
  induction evs as [|ev evs IH]; intros s; [reflexivity|].
  cbn [expandRun fold_left]. fold (expandRun evs (expandStep s ev)).
  rewrite IH. destruct ev; [apply oldest_click | apply oldest_undo].
Qed.

(** Undoing once per snapshot empties the history and lands on the oldest
    snapshot. *)
Lemma undo_all (n : nat) :
  forall s, length (expandHistory s) = n ->
    expandSteps (Nat.iter n handleUndoExpand s) = oldest s /\
    expandHistory (Nat.iter n handleUndoExpand s) = [].
Proof.
  induction n as [|n IH]; intros s Hlen.
  - destruct (expandHistory s) eqn:Hh; [|discriminate].
    unfold oldest. rewrite Hh. split; [reflexivity | exact Hh].
  - rewrite Nat.iter_succ_r.
    destruct (history_cases (expandHistory s)) as [Hh | (h & a & Hh)];
      [rewrite Hh in Hlen; discriminate|].
    destruct (handleUndoExpand_pop s _ _ Hh) as [E1 E2].
    rewrite Hh, length_app in Hlen. simpl in Hlen.
    destruct (IH (handleUndoExpand s)) as [F1 F2]; [rewrite E2; lia|].
    rewrite F1, F2, oldest_undo. split; reflexivity.
Qed.

(** C8.  On the Magic Expand screen reached by choosing the tool, after any
    clicks and undos: an accepted click pushes the pre-click counters onto
    the end of the history, and one undo then restores exactly those
    counters and that history; undoing once per history entry brings the
    counters back to all zero with an empty history; and undo with an empty
    history changes nothing. *)
Theorem undo_restores_previous_steps
    (s0 : App) (image : OriginalImage) (evs : list ExpandEvent) :
  originalImage s0 = Some image ->
  let s := expandRun evs (handleToolSelect expand s0) in
  (forall direction,
     totalClicks (expandSteps s) < MAX_EXPANSION_CLICKS ->
     expandHistory (handleExpandClick direction s) = expandHistory s ++ [expandSteps s] /\
     expandSteps (handleUndoExpand (handleExpandClick direction s)) = expandSteps s /\
     expandHistory (handleUndoExpand (handleExpandClick direction s)) = expandHistory s) /\
  (expandSteps (Nat.iter (length (expandHistory s)) handleUndoExpand s) = noSteps /\
   expandHistory (Nat.iter (length (expandHistory s)) handleUndoExpand s) = []) /\
  (expandHistory s = [] -> handleUndoExpand s = s).
Proof.
  intros Himage s. split; [|split].
  - intros direction. apply handleUndoExpand_after_click.
  - destruct (undo_all (length (expandHistory s)) s eq_refl) as [E1 E2].
    split; [|exact E2]. rewrite E1. unfold s. rewrite oldest_run.
    unfold handleToolSelect. rewrite Himage. reflexivity.
  - apply handleUndoExpand_empty.
Qed.

(** Three clicks on "right" and one on a diagonal, from the 800-by-600
    upload. *)
Lemma undo_restores_previous_steps_witness :
  let s := expandRun [Click d_right; Click d_right; Click d_right; Click d_bottom_left]
             (handleToolSelect expand uploaded) in
  (forall direction,
     totalClicks (expandSteps s) < MAX_EXPANSION_CLICKS ->
     expandHistory (handleExpandClick direction s) = expandHistory s ++ [expandSteps s] /\
     expandSteps (handleUndoExpand (handleExpandClick direction s)) = expandSteps s /\
     expandHistory (handleUndoExpand (handleExpandClick direction s)) = expandHistory s) /\
  (expandSteps (Nat.iter (length (expandHistory s)) handleUndoExpand s) = noSteps /\
   expandHistory (Nat.iter (length (expandHistory s)) handleUndoExpand s) = []) /\
  (expandHistory s = [] -> handleUndoExpand s = s).
Proof.
  apply (undo_restores_previous_steps uploaded photo
           [Click d_right; Click d_right; Click d_right; Click d_bottom_left]).
  reflexivity.
Defined.

(** *** The expansion canvas *)

Lemma inside_true (x y w h px py : Z) :
  x <= px < x + w -> y <= py < y + h -> inside x y w h px py = true.
Proof.
  intros Hx Hy. unfold inside.
  rewrite !andb_true_iff, !Z.leb_le, !Z.ltb_lt. lia.
Qed.

(** C5.  At submit time, for an original image of positive size, counters
    and step size that are not negative, and a final size within the range
    of a canvas dimension: the canvas handed to [expandImage] has width
    [originalWidth + (left+right)*step] and height
    [originalHeight + (top+bottom)*step]; its first call fills every pixel
    with #808080; its second call draws the original image at offset
    [(left*step, top*step)] at its own width and height, so that a canvas
    pixel inside that rectangle shows the image pixel at the same offset
    from the rectangle's corner and every other pixel stays #808080. *)
Theorem expansion_canvas_layout
    (expandImage : string -> ExpandCanvas -> string -> Settled string)
    (s : App) (image : OriginalImage) :
  originalImage s = Some image ->
  0 < width image -> 0 < height image ->
  0 <= top (expandSteps s) -> 0 <= right (expandSteps s) ->
  0 <= bottom (expandSteps s) -> 0 <= left (expandSteps s) ->
  0 <= expansionStepSize s ->
  let step := expansionStepSize s in
  let finalWidth := width image + (left (expandSteps s) + right (expandSteps s)) * step in
  let finalHeight := height image + (top (expandSteps s) + bottom (expandSteps s)) * step in
  let offsetX := left (expandSteps s) * step in
  let offsetY := top (expandSteps s) * step in
  finalWidth <= 2147483647 -> finalHeight <= 2147483647 ->
  let canvas := expansionCanvas image (expandSteps s) step in
  let loading :=
    setLoadingMessage "Expanding your canvas..."%string
      (setAppState LOADING (setError None s)) in
  handleExpandSubmit true expandImage s
  = match expandImage (prompt s) canvas (type (file image)) with
    | Resolved resultImageUrl =>
      setAppState RESULT (setResultData (Some resultImageUrl) loading)
    | Rejected message =>
      setAppState EXPANDING (setError (Some (orUnexpected message)) loading)
    end /\
  canvas_width canvas = finalWidth /\
  canvas_height canvas = finalHeight /\
  calls canvas = [fillRect "#808080" 0 0 finalWidth finalHeight;
                  drawImage image offsetX offsetY (width image) (height image)] /\
  (forall px py, onExpandCanvas canvas px py ->
     pixelAt (firstn 1 (calls canvas)) px py = Colour "#808080") /\
  (forall px py, onExpandCanvas canvas px py ->
     pixelAt (calls canvas) px py =
       if inside offsetX offsetY (width image) (height image) px py
       then Sampled image (px - offsetX) (py - offsetY) (Colour "#808080")
       else Colour "#808080").
Proof.
  intros Himage Hw Hh Ht Hr Hb Hl Hstep step finalWidth finalHeight offsetX offsetY
    HfinalW HfinalH canvas loading.
  assert (Hcw : canvas_width canvas = finalWidth).
  { unfold canvas, expansionCanvas. cbn [canvas_width].
    apply DOMFacts.setDimension_Z. subst finalWidth step. nia. }
  assert (Hch : canvas_height canvas = finalHeight).
  { unfold canvas, expansionCanvas. cbn [canvas_height].
    apply DOMFacts.setDimension_Z. subst finalHeight step. nia. }
  split; [|split; [exact Hcw | split; [exact Hch | split; [reflexivity | split]]]].
  - unfold handleExpandSubmit. rewrite Himage. reflexivity.
  - intros px py [Hpx Hpy]. rewrite Hcw in Hpx. rewrite Hch in Hpy.
    unfold canvas, expansionCanvas, pixelAt. cbn [calls firstn fold_left paintCall].
    fold finalWidth finalHeight.
    rewrite inside_true by lia. reflexivity.
  - intros px py [Hpx Hpy]. rewrite Hcw in Hpx. rewrite Hch in Hpy.
    unfold canvas, expansionCanvas, pixelAt. cbn [calls fold_left paintCall].
    fold step. fold finalWidth finalHeight offsetX offsetY.
    rewrite (inside_true 0 0 finalWidth finalHeight px py) by lia.
    destruct (inside offsetX offsetY (width image) (height image) px py); [|reflexivity].
    rewrite !Z.div_mul by lia. reflexivity.
Qed.

(** The 800-by-600 upload after three clicks on "right": step 150, a
    1250-by-600 canvas with the image at the origin. *)
Definition threeRight : App :=
  expandRun [Click d_right; Click d_right; Click d_right] entered.

Definition overloaded (prompt : string) (canvas : ExpandCanvas) (mime : string)
  : Settled string :=
  Rejected "Failed to expand image: overloaded".

Lemma expansion_canvas_layout_witness :
  let expandImage := overloaded in
  let canvas := expansionCanvas photo (expandSteps threeRight) 150 in
  let loading :=
    setLoadingMessage "Expanding your canvas..."%string
      (setAppState LOADING (setError None threeRight)) in
  handleExpandSubmit true expandImage threeRight
  = match expandImage (prompt threeRight) canvas "image/png"%string with
    | Resolved resultImageUrl =>
      setAppState RESULT (setResultData (Some resultImageUrl) loading)
    | Rejected message =>
      setAppState EXPANDING (setError (Some (orUnexpected message)) loading)
    end /\
  canvas_width canvas = 1250 /\
  canvas_height canvas = 600 /\
  calls canvas = [fillRect "#808080" 0 0 1250 600; drawImage photo 0 0 800 600] /\
  (forall px py, onExpandCanvas canvas px py ->
     pixelAt (firstn 1 (calls canvas)) px py = Colour "#808080") /\
  (forall px py, onExpandCanvas canvas px py ->
     pixelAt (calls canvas) px py =
       if inside 0 0 800 600 px py
       then Sampled photo (px - 0) (py - 0) (Colour "#808080")
       else Colour "#808080").
Proof.
  apply (expansion_canvas_layout overloaded threeRight photo);
    try reflexivity; lazy; discriminate.
Defined.

End ExpandProofs.


(** ** App.tsx: Insert, the composite and the placement mask *)

Module PlacementProofs.
Import DOM App Samples.
Local Open Scope R_scope.

(** Rows 1 and 2 of a product with each of the special matrices; these two
    rows are all [setTransform] reads in the end. *)
Lemma multiply_translation (tx ty tz : R) (A : DOMMatrix) :
  let B := multiply A (translation tx ty tz) in
  (m11 B = m11 A /\ m21 B = m21 A /\ m31 B = m31 A /\
   m41 B = m11 A * tx + m21 A * ty + m31 A * tz + m41 A) /\
  (m12 B = m12 A /\ m22 B = m22 A /\ m32 B = m32 A /\
   m42 B = m12 A * tx + m22 A * ty + m32 A * tz + m42 A).
Proof.
  unfold multiply, translation.
  cbn [m11 m12 m13 m14 m21 m22 m23 m24 m31 m32 m33 m34 m41 m42 m43 m44].
  split; (split; [ring|]; split; [ring|]; split; ring).
Qed.

Lemma multiply_scaling (sx sy sz : R) (A : DOMMatrix) :
  let B := multiply A (scaling sx sy sz) in
  (m11 B = m11 A * sx /\ m21 B = m21 A * sy /\ m31 B = m31 A * sz /\ m41 B = m41 A) /\
  (m12 B = m12 A * sx /\ m22 B = m22 A * sy /\ m32 B = m32 A * sz /\ m42 B = m42 A).
Proof.
  unfold multiply, scaling.
  cbn [m11 m12 m13 m14 m21 m22 m23 m24 m31 m32 m33 m34 m41 m42 m43 m44].
  split; (split; [ring|]; split; [ring|]; split; ring).
Qed.

Lemma multiply_rotationAboutZ (degrees : R) (A : DOMMatrix) :
  let B := multiply A (rotationAboutZ degrees) in
  let c := cos (radians degrees) in let s := sin (radians degrees) in
  (m11 B = m11 A * c + m21 A * s /\ m21 B = m21 A * c - m11 A * s /\
   m31 B = m31 A /\ m41 B = m41 A) /\
  (m12 B = m12 A * c + m22 A * s /\ m22 B = m22 A * c - m12 A * s /\
   m32 B = m32 A /\ m42 B = m42 A).
Proof.
  unfold multiply, rotationAboutZ.
  cbn [m11 m12 m13 m14 m21 m22 m23 m24 m31 m32 m33 m34 m41 m42 m43 m44].
  split; (split; [ring|]; split; [ring|]; split; ring).
Qed.

Lemma multiply_rotationAboutY (degrees : R) (A : DOMMatrix) :
  let B := multiply A (rotationAboutY degrees) in
  let c := cos (radians degrees) in let s := sin (radians degrees) in
  (m11 B = m11 A * c - m31 A * s /\ m21 B = m21 A /\
   m31 B = m11 A * s + m31 A * c /\ m41 B = m41 A) /\
  (m12 B = m12 A * c - m32 A * s /\ m22 B = m22 A /\
   m32 B = m12 A * s + m32 A * c /\ m42 B = m42 A).
Proof.
  unfold multiply, rotationAboutY.
  cbn [m11 m12 m13 m14 m21 m22 m23 m24 m31 m32 m33 m34 m41 m42 m43 m44].
  split; (split; [ring|]; split; [ring|]; split; ring).
Qed.

Lemma multiply_rotationAboutX (degrees : R) (A : DOMMatrix) :
  let B := multiply A (rotationAboutX degrees) in
  let c := cos (radians degrees) in let s := sin (radians degrees) in
  (m11 B = m11 A /\ m21 B = m21 A * c + m31 A * s /\
   m31 B = m31 A * c - m21 A * s /\ m41 B = m41 A) /\
  (m12 B = m12 A /\ m22 B = m22 A * c + m32 A * s /\
   m32 B = m32 A * c - m22 A * s /\ m42 B = m42 A).
Proof.
  unfold multiply, rotationAboutX.
  cbn [m11 m12 m13 m14 m21 m22 m23 m24 m31 m32 m33 m34 m41 m42 m43 m44].
  split; (split; [ring|]; split; [ring|]; split; ring).
Qed.

Section Entries.

Variable t : ImageTransform.
Variables imgWidth imgHeight : R.
Variables canvasWidth canvasHeight : Z.

Let M := buildTransformMatrix t imgWidth imgHeight canvasWidth canvasHeight.
Let s := scale t / 100.
Let ca := cos (radians (rotateX t)).
Let sa := sin (radians (rotateX t)).
Let cb := cos (radians (rotateY t)).
Let sb := sin (radians (rotateY t)).
Let cg := cos (radians (rotation t)).
Let sg := sin (radians (rotation t)).

(** The six entries [setTransform] keeps. *)
Lemma matrix_entries :
  m11 M = s * (cg * cb) /\
  m12 M = s * (sg * cb) /\
  m21 M = s * (cg * sb * sa - sg * ca) /\
  m22 M = s * (sg * sb * sa + cg * ca) /\
  m41 M = x t / 100 * IZR canvasWidth + m11 M * (- imgWidth / 2) + m21 M * (- imgHeight / 2) /\
  m42 M = y t / 100 * IZR canvasHeight + m12 M * (- imgWidth / 2) + m22 M * (- imgHeight / 2).
Proof.
  unfold M, buildTransformMatrix, translateSelf, rotateSelf, scaleSelf. cbv zeta.
  remember (multiply identityMatrix
              (translation (x t / 100 * IZR canvasWidth) (y t / 100 * IZR canvasHeight) 0))
    as A1 eqn:E1.
  remember (multiply A1 (rotationAboutZ (rotation t))) as A2 eqn:E2.
  remember (multiply A2 (rotationAboutY (rotateY t))) as A3 eqn:E3.
  remember (multiply A3 (rotationAboutX (rotateX t))) as A4 eqn:E4.
  remember (multiply A4 (scaling (scale t / 100) (scale t / 100) 1)) as A5 eqn:E5.
  destruct (multiply_translation (- imgWidth / 2) (- imgHeight / 2) 0 A5)
    as ((T11 & T21 & T31 & T41) & (T12 & T22 & T32 & T42)).
  destruct (multiply_scaling (scale t / 100) (scale t / 100) 1 A4)
    as ((S11 & S21 & S31 & S41) & (S12 & S22 & S32 & S42)).
  destruct (multiply_rotationAboutX (rotateX t) A3)
    as ((X11 & X21 & X31 & X41) & (X12 & X22 & X32 & X42)).
  destruct (multiply_rotationAboutY (rotateY t) A2)
    as ((Y11 & Y21 & Y31 & Y41) & (Y12 & Y22 & Y32 & Y42)).
  destruct (multiply_rotationAboutZ (rotation t) A1)
    as ((Z11 & Z21 & Z31 & Z41) & (Z12 & Z22 & Z32 & Z42)).
  destruct (multiply_translation (x t / 100 * IZR canvasWidth)
              (y t / 100 * IZR canvasHeight) 0 identityMatrix)
    as ((I11 & I21 & I31 & I41) & (I12 & I22 & I32 & I42)).
  cbn [identityMatrix m11 m12 m21 m22 m31 m32 m41 m42]
    in I11, I21, I31, I41, I12, I22, I32, I42.
  rewrite <- E1 in I11, I21, I31, I41, I12, I22, I32, I42.
  rewrite <- E2 in Z11, Z21, Z31, Z41, Z12, Z22, Z32, Z42.
  rewrite <- E3 in Y11, Y21, Y31, Y41, Y12, Y22, Y32, Y42.
  rewrite <- E4 in X11, X21, X31, X41, X12, X22, X32, X42.
  rewrite <- E5 in S11, S21, S31, S41, S12, S22, S32, S42.
  rewrite ?T41, ?T42, ?T11, ?T12, ?T21, ?T22.
  rewrite ?S41, ?S42, ?S11, ?S12, ?S21, ?S22, ?S31, ?S32.
  rewrite ?X41, ?X42, ?X11, ?X12, ?X21, ?X22, ?X31, ?X32.
  rewrite ?Y41, ?Y42, ?Y11, ?Y12, ?Y21, ?Y22, ?Y31, ?Y32.
  rewrite ?Z41, ?Z42, ?Z11, ?Z12, ?Z21, ?Z22, ?Z31, ?Z32.
  rewrite ?I11, ?I21, ?I31, ?I41, ?I12, ?I22, ?I32, ?I42.
  unfold s, ca, sa, cb, sb, cg, sg.
  split; [ring|]. split; [ring|]. split; [ring|]. split; [ring|]. split; ring.
Qed.

(** Its determinant: the squared scale times the cosines of the tilts. *)
Lemma matrix_determinant :
  m11 M * m22 M - m21 M * m12 M = s * s * (ca * cb).
Proof.
  destruct matrix_entries as (E11 & E12 & E21 & E22 & _).
  rewrite E11, E12, E21, E22.
  assert (Hg : sg * sg + cg * cg = 1) by (unfold sg, cg; apply sin2_cos2).
  transitivity (s * s * (ca * cb) * (sg * sg + cg * cg)); [ring|].
  rewrite Hg. ring.
Qed.

End Entries.

Lemma cos_tilt_positive (degrees : R) :
  -90 < degrees < 90 -> 0 < cos (radians degrees).
Proof.
  intros [Hlo Hhi]. pose proof PI_RGT_0 as Hpi. unfold radians.
  apply cos_gt_0; nra.
Qed.

(** A matrix with a non-zero determinant sends distinct points to distinct
    points. *)
Lemma transformPoint_injective (M : DOMMatrix) (q q' : R * R) :
  m11 M * m22 M - m21 M * m12 M <> 0 ->
  transformPoint M q = transformPoint M q' -> q = q'.
Proof.
  intros Hdet Heq. destruct q as [qx qy], q' as [qx' qy'].
  unfold transformPoint in Heq. cbn [fst snd] in Heq.
  injection Heq as H1 H2.
  assert (K1 : m11 M * (qx - qx') + m21 M * (qy - qy') = 0)
    by (apply Rminus_diag_eq in H1; rewrite <- H1; ring).
  assert (K2 : m12 M * (qx - qx') + m22 M * (qy - qy') = 0)
    by (apply Rminus_diag_eq in H2; rewrite <- H2; ring).
  assert (Hx : (m11 M * m22 M - m21 M * m12 M) * (qx - qx') = 0).
  { transitivity (m22 M * (m11 M * (qx - qx') + m21 M * (qy - qy'))
                  - m21 M * (m12 M * (qx - qx') + m22 M * (qy - qy'))); [ring|].
    rewrite K1, K2. ring. }
  assert (Hy : (m11 M * m22 M - m21 M * m12 M) * (qy - qy') = 0).
  { transitivity (m11 M * (m12 M * (qx - qx') + m22 M * (qy - qy'))
                  - m12 M * (m11 M * (qx - qx') + m21 M * (qy - qy'))); [ring|].
    rewrite K1, K2. ring. }
  apply Rmult_integral in Hx. apply Rmult_integral in Hy.
  destruct Hx as [Hx|Hx]; [contradiction|].
  destruct Hy as [Hy|Hy]; [contradiction|].
  f_equal; lra.
Qed.

(** Which call is on top, on a canvas that received two calls. *)
Lemma topmostAt_two (c0 c1 : PlacementCall) (p : R * R) (i : nat) :
  topmostAt [c0; c1] p i <->
  (i = 1%nat /\ covers c1 p) \/ (i = 0%nat /\ covers c0 p /\ ~ covers c1 p).
Proof.
  unfold topmostAt. split.
  - intros (call & Hi & Hcov & Hlater).
    destruct i as [|[|i]]; cbn in Hi; [| |discriminate].
    + right. inversion Hi; subst call. repeat split; [exact Hcov|].
      apply (Hlater 1%nat c1); [lia|reflexivity].
    + left. inversion Hi; subst call. split; [reflexivity|exact Hcov].
  - intros [[-> Hcov] | (-> & Hcov & Hnot)].
    + exists c1. repeat split; [exact Hcov|].
      intros j later Hj Hl. destruct j as [|[|j]]; [lia|lia|discriminate].
    + exists c0. repeat split; [exact Hcov|].
      intros j later Hj Hl. destruct j as [|[|j]]; [lia| |discriminate].
      cbn in Hl. inversion Hl; subst later. exact Hnot.
Qed.

Section OneSubmission.

Variable originalImage : OriginalImage.
Variable insertImage : InsertImage.
Variable t : ImageTransform.

Let composite := compositeCanvas originalImage insertImage t.
Let mask := maskCanvas originalImage insertImage t.
Let imgWidth := IZR (naturalWidth insertImage).
Let imgHeight := IZR (naturalHeight insertImage).
Let M := buildTransformMatrix t imgWidth imgHeight (pc_width mask) (pc_height mask).

(** The transformed bounding box of the object. *)
Definition placedBox (p : R * R) : Prop :=
  imgWidth <> 0 /\ imgHeight <> 0 /\
  exists q, inRect 0 0 imgWidth imgHeight q /\ transformPoint M q = p.

Lemma maskWhite_placedBox (p : R * R) :
  maskWhite mask p <-> onCanvas mask p /\ placedBox p.
Proof.
  unfold maskWhite. split.
  - intros (Hon & i & M' & x' & y' & w' & h' & Htop & Hcall).
    split; [exact Hon|].
    unfold mask, maskCanvas in Htop, Hcall. cbn [pc_calls] in Htop, Hcall.
    apply topmostAt_two in Htop.
    destruct Htop as [[-> Hcov] | (-> & _ & _)].
    + exact Hcov.
    + cbn in Hcall. inversion Hcall.
  - intros (Hon & Hbox). split; [exact Hon|].
    exists 1%nat, M, 0, 0, imgWidth, imgHeight. split; [|reflexivity].
    unfold mask, maskCanvas. cbn [pc_calls].
    apply topmostAt_two. left. split; [reflexivity|exact Hbox].
Qed.

Lemma objectShown_placedBox (p : R * R) :
  objectShown composite p <-> onCanvas mask p /\ placedBox p.
Proof.
  unfold objectShown, composite, compositeCanvas. cbn [pc_calls].
  rewrite topmostAt_two. split.
  - intros (Hon & [[_ Hcov] | (Hne & _)]); [|discriminate].
    split; [exact Hon | exact Hcov].
  - intros (Hon & Hbox). split; [exact Hon|].
    left. split; [reflexivity|exact Hbox].
Qed.

Lemma matrix_invertible :
  0 < scale t -> -90 < rotateX t < 90 -> -90 < rotateY t < 90 ->
  m11 M * m22 M - m21 M * m12 M <> 0.
Proof.
  intros Hs Hx Hy. unfold M. rewrite matrix_determinant.
  pose proof (cos_tilt_positive _ Hx) as Hcx.
  pose proof (cos_tilt_positive _ Hy) as Hcy.
  assert (0 < scale t / 100) by lra.
  apply Rgt_not_eq. apply Rmult_gt_0_compat.
  - apply Rmult_gt_0_compat; assumption.
  - apply Rmult_gt_0_compat; assumption.
Qed.

(** C3, as amended.  For every placement transform and object size the
    composite and the mask canvas have the same size and hand the same
    matrix, [buildTransformMatrix] of that size, to [setTransform]; the
    white region of the mask is the part of the transformed bounding box
    that lies on the canvas, and it is exactly where the object shows in the
    composite.  When the scale is positive, both tilts lie strictly between
    -90 and 90 and the object has positive size, a native point lands on
    white exactly when it is in the bounding box and its image is on the
    canvas; so inverse-transforming the white region recovers the whole
    bounding box whenever the placed object lies within the canvas. *)
Theorem placement_mask_matches_composite :
  (pc_width composite = pc_width mask /\ pc_height composite = pc_height mask) /\
  (exists base object black white,
     pc_calls composite = [base; object] /\
     pc_calls mask = [black; white] /\
     transformOf object = M /\ transformOf white = M) /\
  (forall p, maskWhite mask p <-> objectShown composite p) /\
  (forall p, maskWhite mask p <-> onCanvas mask p /\ placedBox p) /\
  (0 < scale t -> -90 < rotateX t < 90 -> -90 < rotateY t < 90 ->
   (0 < naturalWidth insertImage)%Z -> (0 < naturalHeight insertImage)%Z ->
   (forall q, maskWhite mask (transformPoint M q) <->
              inRect 0 0 imgWidth imgHeight q /\ onCanvas mask (transformPoint M q)) /\
   ((forall q, inRect 0 0 imgWidth imgHeight q -> onCanvas mask (transformPoint M q)) ->
    recoversBoundingBox originalImage insertImage t)).
Proof.
  split; [split; reflexivity|].
  split; [do 4 eexists; repeat split; reflexivity|].
  split; [intros p; rewrite maskWhite_placedBox, objectShown_placedBox; reflexivity|].
  split; [exact maskWhite_placedBox|].
  intros Hs Hx Hy Hw Hh.
  pose proof (matrix_invertible Hs Hx Hy) as Hdet.
  assert (Hiw : imgWidth <> 0) by (apply Rgt_not_eq; apply IZR_lt; exact Hw).
  assert (Hih : imgHeight <> 0) by (apply Rgt_not_eq; apply IZR_lt; exact Hh).
  assert (Hrecover : forall q, maskWhite mask (transformPoint M q) <->
            inRect 0 0 imgWidth imgHeight q /\ onCanvas mask (transformPoint M q)).
  { intros q. rewrite maskWhite_placedBox. split.
    - intros (Hon & _ & _ & q' & Hin & Heq).
      apply (transformPoint_injective M q' q Hdet) in Heq. subst q'.
      split; assumption.
    - intros (Hin & Hon). split; [exact Hon|].
      split; [exact Hiw|]. split; [exact Hih|]. exists q. split; [exact Hin|reflexivity]. }
  split; [exact Hrecover|].
  intros Hfits q. fold mask imgWidth imgHeight M.
  rewrite Hrecover. split.
  - intros [Hin _]. exact Hin.
  - intros Hin. split; [exact Hin | apply Hfits; exact Hin].
Qed.

End OneSubmission.

(** *** Three placements of a 50-by-50 object on an 800-by-600 image *)

(** Centre of the image, full size, no rotation, no tilt. *)
Definition centred : ImageTransform :=
  {| x := 50; y := 50; scale := 100; rotation := 0; opacity := 100;
     perspective := 1000; rotateX := 0; rotateY := 0 |}.

(** The same with the vertical tilt at the end of its slider. *)
Definition edgeOn : ImageTransform :=
  {| x := 50; y := 50; scale := 100; rotation := 0; opacity := 100;
     perspective := 1000; rotateX := 90; rotateY := 0 |}.

(** The same as [centred], dragged to the top-left corner. *)
Definition atCorner : ImageTransform :=
  {| x := 0; y := 0; scale := 100; rotation := 0; opacity := 100;
     perspective := 1000; rotateX := 0; rotateY := 0 |}.

Lemma radians_0 : radians 0 = 0.
Proof. unfold radians. lra. Qed.

Lemma radians_90 : radians 90 = PI / 2.
Proof. unfold radians. lra. Qed.

(** With no rotation and no tilt at scale 100 the matrix is a translation
    of the object's centre to the chosen position. *)
Lemma upright_entries (t : ImageTransform) (imgWidth imgHeight : R)
    (canvasWidth canvasHeight : Z) :
  scale t = 100 -> rotation t = 0 -> rotateX t = 0 -> rotateY t = 0 ->
  let M := buildTransformMatrix t imgWidth imgHeight canvasWidth canvasHeight in
  m11 M = 1 /\ m12 M = 0 /\ m21 M = 0 /\ m22 M = 1 /\
  m41 M = x t / 100 * IZR canvasWidth - imgWidth / 2 /\
  m42 M = y t / 100 * IZR canvasHeight - imgHeight / 2.
Proof.
  intros Hs Hg Ha Hb M.
  destruct (matrix_entries t imgWidth imgHeight canvasWidth canvasHeight)
    as (E11 & E12 & E21 & E22 & E41 & E42).
  fold M in E11, E12, E21, E22, E41, E42.
  rewrite Hs, Hg, Hb in E11, E12, E21, E22. rewrite Ha in E21, E22.
  rewrite radians_0 in E11, E12, E21, E22.
  rewrite cos_0 in E11, E12, E21, E22. rewrite sin_0 in E12, E21, E22.
  rewrite E11, E21 in E41. rewrite E12, E22 in E42.
  rewrite E11, E12, E21, E22, E41, E42.
  split; [lra|]. split; [lra|]. split; [lra|]. split; [lra|]. split; field.
Qed.

(** At a vertical tilt of 90 degrees the second column vanishes: the
    object is seen edge-on. *)
Lemma edgeOn_entries :
  let M := buildTransformMatrix edgeOn 50 50 800 600 in
  m11 M = 1 /\ m12 M = 0 /\ m21 M = 0 /\ m22 M = 0 /\ m41 M = 375 /\ m42 M = 300.
Proof.
  intros M.
  destruct (matrix_entries edgeOn 50 50 800 600) as (E11 & E12 & E21 & E22 & E41 & E42).
  fold M in E11, E12, E21, E22, E41, E42.
  cbn [edgeOn x y scale rotation rotateX rotateY] in E11, E12, E21, E22, E41, E42.
  rewrite radians_0 in E11, E12, E21, E22. rewrite radians_90 in E21, E22.
  rewrite cos_0 in E11, E12, E21, E22. rewrite sin_0 in E12, E21, E22.
  rewrite cos_PI2, sin_PI2 in E21, E22.
  rewrite E11, E21 in E41. rewrite E12, E22 in E42.
  rewrite E11, E12, E21, E22, E41, E42.
  split; [lra|]. split; [lra|]. split; [lra|]. split; [lra|]. split; lra.
Qed.

(** The claim's wording fails twice.  Edge-on, the native point (0,1000),
    far outside the 50-by-50 box, lands on white.  At the corner, the native
    point (0,0) of the box lands off the canvas, so on no white pixel. *)
Lemma mask_does_not_recover_box :
  ~ recoversBoundingBox photo sticker edgeOn /\
  ~ recoversBoundingBox photo sticker atCorner.
Proof.
  split.
  - intros H. specialize (H (0, 1000)). destruct H as [H _].
    change (pc_width (maskCanvas photo sticker edgeOn)) with 800%Z in H.
    change (pc_height (maskCanvas photo sticker edgeOn)) with 600%Z in H.
    change (IZR (naturalWidth sticker)) with 50 in H.
    change (IZR (naturalHeight sticker)) with 50 in H.
    destruct edgeOn_entries as (E11 & E12 & E21 & E22 & E41 & E42).
    assert (Hwhite : maskWhite (maskCanvas photo sticker edgeOn)
                       (transformPoint (buildTransformMatrix edgeOn 50 50 800 600) (0, 1000))).
    { apply maskWhite_placedBox. unfold transformPoint. cbn [fst snd].
      rewrite E11, E12, E21, E22, E41, E42. split.
      - unfold onCanvas, inRect. cbn [fst snd].
        change (IZR (pc_width (maskCanvas photo sticker edgeOn))) with 800.
        change (IZR (pc_height (maskCanvas photo sticker edgeOn))) with 600.
        lra.
      - unfold placedBox.
        change (IZR (naturalWidth sticker)) with 50.
        change (IZR (naturalHeight sticker)) with 50.
        change (pc_width (maskCanvas photo sticker edgeOn)) with 800%Z.
        change (pc_height (maskCanvas photo sticker edgeOn)) with 600%Z.
        split; [lra|]. split; [lra|]. exists (0, 0). split.
        + unfold inRect. cbn [fst snd]. lra.
        + unfold transformPoint. cbn [fst snd].
          rewrite E11, E12, E41, E42. f_equal; lra. }
    apply H in Hwhite. unfold inRect in Hwhite. cbn [fst snd] in Hwhite. lra.
  - intros H. specialize (H (0, 0)). destruct H as [_ H].
    change (pc_width (maskCanvas photo sticker atCorner)) with 800%Z in H.
    change (pc_height (maskCanvas photo sticker atCorner)) with 600%Z in H.
    change (IZR (naturalWidth sticker)) with 50 in H.
    change (IZR (naturalHeight sticker)) with 50 in H.
    destruct (upright_entries atCorner 50 50 800 600 eq_refl eq_refl eq_refl eq_refl)
      as (E11 & E12 & E21 & E22 & E41 & E42).
    cbn [atCorner x y] in E41, E42.
    assert (Hin : inRect 0 0 50 50 (0, 0)) by (unfold inRect; cbn [fst snd]; lra).
    apply H in Hin. destruct Hin as [Hon _].
    unfold onCanvas, inRect, transformPoint in Hon. cbn [fst snd] in Hon.
    rewrite E11, E21, E41 in Hon. lra.
Qed.

(** Scenario: the centred placement keeps the whole box on the canvas, and
    the white square is recovered exactly. *)
Lemma placement_mask_matches_composite_witness :
  recoversBoundingBox photo sticker centred.
Proof.
  destruct (placement_mask_matches_composite photo sticker centred)
    as (_ & _ & _ & _ & H).
  destruct H as [_ H].
  - cbn. lra.
  - cbn. lra.
  - cbn. lra.
  - reflexivity.
  - reflexivity.
  - apply H. intros q Hin.
    change (pc_width (maskCanvas photo sticker centred)) with 800%Z.
    change (pc_height (maskCanvas photo sticker centred)) with 600%Z.
    change (IZR (naturalWidth sticker)) with 50 in *.
    change (IZR (naturalHeight sticker)) with 50 in *.
    destruct (upright_entries centred 50 50 800 600 eq_refl eq_refl eq_refl eq_refl)
      as (E11 & E12 & E21 & E22 & E41 & E42).
    cbn [centred x y] in E41, E42.
    unfold onCanvas, inRect, transformPoint in *. cbn [fst snd] in *.
    change (IZR (pc_width (maskCanvas photo sticker centred))) with 800.
    change (IZR (pc_height (maskCanvas photo sticker centred))) with 600.
    rewrite E11, E12, E21, E22, E41, E42. lra.
Defined.

End PlacementProofs.

(** ** App.tsx: submission failures and crop restore *)

Module SessionProofs.
Import DOM App Samples.

(** Everything the user entered or chose before pressing a submit button. *)
Definition userData (s : App) :=
  (prompt s, systemContext s, tool s,
   (finalSelection s, isSelectionDone s),
   (insertImage s, insertImageTransform s),
   (expandSteps s, expandHistory s, expansionStepSize s),
   (originalImage s, uncroppedOriginalImage s)).

(** After a failed submission: back on the screen [phase], which is the
    screen the submission started from, with the user's data as it was and
    the failure's message in the error slot. *)
Definition reverted (phase : AppState) (message : string) (s s' : App) : Prop :=
  appState s' = phase /\
  appState s' = appState s /\
  userData s' = userData s /\
  error s' = Some (orUnexpected message).

Section FailedSubmission.

Variable compositeContext : bool.
Variable maskContext : bool.
Variable fileToDataUrl : File -> Settled string.
Variable expandImage : string -> ExpandCanvas -> string -> Settled string.
Variable editImageWithText :
  string -> string -> Editor.Base64 -> string -> string -> Settled string.
Variable blendImages :
  string -> PlacementCanvas -> PlacementCanvas -> string -> string -> Settled string.

Let submitEdit : App -> App :=
  handleEditSubmit compositeContext maskContext fileToDataUrl editImageWithText blendImages.
Let submitBlend : App -> App :=
  insertAndBlend compositeContext maskContext fileToDataUrl editImageWithText blendImages.
Let submitExpand : App -> App := handleExpandSubmit true expandImage.

(** A Magic Fill submission that reaches [editImageWithText], which rejects. *)
Definition magicFillRejected (s : App) (message : string) : Prop :=
  appState s = EDITING /\ tool s = Some magicFill /\
  exists image base64 mask,
    originalImage s = Some image /\
    finalSelection s = Some (Editor.PngOf mask) /\
    nonEmpty (prompt s) = true /\
    fileToDataUrl (file image) = Resolved base64 /\
    editImageWithText (prompt s) base64 (Editor.PngOf mask) (type (file image))
      (systemContext s) = Rejected message.

(** An Insert submission that reaches [blendImages], which rejects. *)
Definition insertRejected (s : App) (message : string) : Prop :=
  appState s = EDITING /\ tool s = Some insert /\
  compositeContext = true /\ maskContext = true /\
  exists image object base64,
    originalImage s = Some image /\
    insertImage s = Some object /\
    fileToDataUrl (file image) = Resolved base64 /\
    blendImages base64
      (compositeCanvas image object (insertImageTransform s))
      (maskCanvas image object (insertImageTransform s))
      (type (file image)) (type (insertFile object)) = Rejected message.

(** An Expand submission that reaches [expandImage], which rejects. *)
Definition expandRejected (s : App) (message : string) : Prop :=
  appState s = EXPANDING /\
  exists image,
    originalImage s = Some image /\
    expandImage (prompt s)
      (expansionCanvas image (expandSteps s) (expansionStepSize s))
      (type (file image)) = Rejected message.

Ltac split_cases :=
  repeat match goal with
         | |- context [match ?scrutinee with _ => _ end] => destruct scrutinee
         end.

(** No submit handler writes to the user's data, whatever happens. *)
Lemma handleEditSubmit_userData (s : App) : userData (submitEdit s) = userData s.
Proof.
  unfold submitEdit, handleEditSubmit, catchEdit. split_cases; reflexivity.
Qed.

Lemma insertAndBlend_userData (s : App) : userData (submitBlend s) = userData s.
Proof.
  unfold submitBlend, insertAndBlend.
  change (userData (setIsPlacingImage false
            (handleEditSubmit compositeContext maskContext fileToDataUrl
               editImageWithText blendImages s)))
    with (userData (submitEdit s)).
  apply handleEditSubmit_userData.
Qed.

Lemma handleExpandSubmit_userData (s : App) : userData (submitExpand s) = userData s.
Proof.
  unfold submitExpand, handleExpandSubmit. split_cases; reflexivity.
Qed.

Lemma magicFillRejected_result (s : App) (message : string) :
  magicFillRejected s message ->
  submitEdit s
  = catchEdit message
      (setLoadingMessage "Applying AI magic..."%string
         (setAppState LOADING (setError None s))).
Proof.
  intros (_ & Htool & image & base64 & mask & Himage & Hsel & Hprompt & Hfile & Hcall).
  unfold submitEdit, handleEditSubmit.
  rewrite Himage, Htool, Hsel, Hfile, Hprompt, Hcall. reflexivity.
Qed.

Lemma insertRejected_result (s : App) (message : string) :
  insertRejected s message ->
  submitEdit s
  = catchEdit message
      (setLoadingMessage "Blending image..."%string
         (setAppState LOADING (setError None s))).
Proof.
  intros (_ & Htool & Hc & Hm & image & object & base64 & Himage & Hobject & Hfile & Hcall).
  unfold submitEdit, handleEditSubmit.
  rewrite Himage, Htool, Hobject, Hfile, Hc, Hm, Hcall.
  rewrite andb_false_r. reflexivity.
Qed.

Lemma expandRejected_result (s : App) (message : string) :
  expandRejected s message ->
  submitExpand s
  = setAppState EXPANDING
      (setError (Some (orUnexpected message))
         (setLoadingMessage "Expanding your canvas..."%string
            (setAppState LOADING (setError None s)))).
Proof.
  intros (_ & image & Himage & Hcall).
  unfold submitExpand, handleExpandSubmit. rewrite Himage, Hcall. reflexivity.
Qed.

(** C7.  When the external call of a Magic Fill or Insert submission
    rejects, the session is back in EDITING, and when that of an Expand
    submission rejects, back in EXPANDING: in each case the phase the
    submission started from, never TOOL_SELECTION; prompt, mask selection,
    inserted object, placement transform, expansion steps with their
    history, and the images are unchanged, and the error slot holds the
    failure's message.  Nothing has to be entered again: submitting from the
    reverted state reaches the same external call with the same arguments.
    This holds for the submit button and for "Insert & Blend". *)
Theorem failed_submission_reverts (s : App) (message : string) :
  (magicFillRejected s message ->
   reverted EDITING message s (submitEdit s) /\
   magicFillRejected (submitEdit s) message) /\
  (insertRejected s message ->
   (reverted EDITING message s (submitEdit s) /\
    insertRejected (submitEdit s) message) /\
   (reverted EDITING message s (submitBlend s) /\
    insertRejected (submitBlend s) message)) /\
  (expandRejected s message ->
   reverted EXPANDING message s (submitExpand s) /\
   expandRejected (submitExpand s) message).
Proof.
  split; [|split].
  - intros H. pose proof (magicFillRejected_result s message H) as E.
    split.
    + destruct H as (Hphase & _).
      unfold reverted. rewrite handleEditSubmit_userData, Hphase, E.
      repeat split; reflexivity.
    + rewrite E.
      destruct H as (_ & Htool & image & base64 & mask & Himage & Hsel & Hprompt & Hfile & Hcall).
      split; [reflexivity|]. split; [exact Htool|].
      exists image, base64, mask. repeat split; assumption.
  - intros H. pose proof (insertRejected_result s message H) as E.
    assert (Hagain : insertRejected (submitEdit s) message).
    { rewrite E.
      destruct H as (_ & Htool & Hc & Hm & image & object & base64 &
                     Himage & Hobject & Hfile & Hcall).
      split; [reflexivity|]. split; [exact Htool|].
      split; [exact Hc|]. split; [exact Hm|].
      exists image, object, base64. repeat split; assumption. }
    destruct H as (Hphase & _).
    split; (split; [|exact Hagain]).
    + unfold reverted. rewrite handleEditSubmit_userData, Hphase, E.
      repeat split; reflexivity.
    + unfold reverted. rewrite insertAndBlend_userData, Hphase.
      unfold submitBlend, insertAndBlend. fold submitEdit. rewrite E.
      repeat split; reflexivity.
  - intros H. pose proof (expandRejected_result s message H) as E.
    split.
    + destruct H as (Hphase & _).
      unfold reverted. rewrite handleExpandSubmit_userData, Hphase, E.
      repeat split; reflexivity.
    + rewrite E. destruct H as (_ & image & Himage & Hcall).
      split; [reflexivity|]. exists image. split; assumption.
Qed.

End FailedSubmission.

(** *** A backend that is down *)

Definition readFile (f : File) : Settled string := Resolved "AAAA"%string.

Definition editDown (prompt base64 : string) (mask : Editor.Base64) (mime context : string)
  : Settled string :=
  Rejected "Failed to edit image: 503"%string.

Definition blendDown (base64 : string) (composite mask : PlacementCanvas) (m1 m2 : string)
  : Settled string :=
  Rejected "Failed to blend image: 503"%string.

Definition expandDown (prompt : string) (canvas : ExpandCanvas) (mime : string)
  : Settled string :=
  Rejected "Failed to expand image: 503"%string.

(** Magic Fill, with a brushed selection and a prompt typed. *)
Definition fillReady : App :=
  setPrompt "remove the object"%string
    (handleNextStep true (Some EditorProofs.sampleEditor)
       (handleToolSelect magicFill uploaded)).

(** Insert, with the selection made and the object being placed. *)
Definition insertReady : App :=
  setIsPlacingImage true
    (setInsertImage (Some sticker)
       (handleNextStep true (Some EditorProofs.sampleEditor)
          (handleToolSelect insert uploaded))).

(** Magic Expand, one click to the right and a prompt typed. *)
Definition expandReady : App :=
  setPrompt "a beach"%string
    (handleExpandClick d_right (handleToolSelect expand uploaded)).

Lemma failed_submission_reverts_witness :
  reverted EDITING "Failed to edit image: 503" fillReady
    (handleEditSubmit true true readFile editDown blendDown fillReady) /\
  reverted EDITING "Failed to blend image: 503" insertReady
    (handleEditSubmit true true readFile editDown blendDown insertReady) /\
  reverted EDITING "Failed to blend image: 503" insertReady
    (insertAndBlend true true readFile editDown blendDown insertReady) /\
  reverted EXPANDING "Failed to expand image: 503" expandReady
    (handleExpandSubmit true expandDown expandReady).
Proof.
  split; [|split; [|split]].
  - destruct (failed_submission_reverts true true readFile expandDown editDown blendDown
                fillReady "Failed to edit image: 503") as (Hfill & _ & _).
    apply Hfill.
    split; [reflexivity|]. split; [reflexivity|].
    eexists photo, "AAAA"%string, _.
    split; [reflexivity|]. split; [reflexivity|]. split; [reflexivity|].
    split; reflexivity.
  - destruct (failed_submission_reverts true true readFile expandDown editDown blendDown
                insertReady "Failed to blend image: 503") as (_ & Hinsert & _).
    apply Hinsert.
    split; [reflexivity|]. split; [reflexivity|]. split; [reflexivity|].
    split; [reflexivity|].
    exists photo, sticker, "AAAA"%string.
    split; [reflexivity|]. split; [reflexivity|]. split; reflexivity.
  - destruct (failed_submission_reverts true true readFile expandDown editDown blendDown
                insertReady "Failed to blend image: 503") as (_ & Hinsert & _).
    apply Hinsert.
    split; [reflexivity|]. split; [reflexivity|]. split; [reflexivity|].
    split; [reflexivity|].
    exists photo, sticker, "AAAA"%string.
    split; [reflexivity|]. split; [reflexivity|]. split; reflexivity.
  - destruct (failed_submission_reverts true true readFile expandDown editDown blendDown
                expandReady "Failed to expand image: 503") as (_ & _ & Hexpand).
    apply Hexpand.
    split; [reflexivity|]. exists photo. split; reflexivity.
Defined.

(** *** Crop and restore *)










End SessionProofs.

(** * Further properties *)

(** ** ImageEditor.tsx: coordinates, gestures, clearing *)

Module EditorMoreProofs.
Import DOM Editor EditorEvents.

(** A display offset [d] within [0, r] scaled by [n / r] lands within
    [0, n], with the ends on the ends. *)
Lemma scaled_within (d r n : Q) :
  (0 < r)%Q -> (0 <= n)%Q -> (0 <= d)%Q -> (d <= r)%Q ->
  (0 <= d * (n / r))%Q /\ (d * (n / r) <= n)%Q.
Proof.
  intros Hr Hn Hd0 Hdr.
  assert (Hq : (0 <= n / r)%Q).
  { unfold Qdiv. apply Qmult_le_0_compat; [exact Hn|].
    apply Qinv_le_0_compat. apply Qlt_le_weak. exact Hr. }
  split.
  - apply Qmult_le_0_compat; assumption.
  - apply Qle_trans with (r * (n / r))%Q.
    + apply Qmult_le_compat_r; assumption.
    + assert (E : (r * (n / r) == n)%Q).
      { field. intros H. rewrite H in Hr. discriminate. }
      rewrite E. apply Qle_refl.
Qed.

Lemma offset_nonneg (c o : Q) : (o <= c)%Q -> (0 <= c - o)%Q.
Proof.
  intros H. unfold Qminus. rewrite <- Qle_minus_iff. exact H.
Qed.

Lemma offset_within (c o r : Q) : (c <= o + r)%Q -> (c - o <= r)%Q.
Proof.
  intros H. apply (Qplus_le_l _ _ o).
  assert (E : (c - o + o == c)%Q) by ring.
  rewrite E, (Qplus_comm r o). exact H.
Qed.

Lemma scaled_full (r n : Q) : (0 < r)%Q -> (r * (n / r) == n)%Q.
Proof.
  intros Hr. field. intros H. rewrite H in Hr. discriminate.
Qed.

(** X1.  Over exact rationals, [getCoords] maps the canvas's on-screen
    rectangle onto its backing store: a pointer inside the rectangle lands
    inside [0, width] x [0, height], the rectangle's top-left corner on
    (0,0) and its bottom-right corner on (width, height); a touch event
    without touch points yields no position.  The rounding of doubles is
    left out: with it a pointer on the right or bottom edge can land one
    unit in the last place beyond [width] or [height]
    ([right_edge_in_doubles]). *)
Theorem getCoords_rect_onto_buffer (ed : Editor) (canvas : Canvas) (clientX clientY : Q) :
  drawingCanvas ed = Some canvas ->
  (0 < rect_width (rect canvas))%Q -> (0 < rect_height (rect canvas))%Q ->
  0 <= width canvas -> 0 <= height canvas ->
  (rect_left (rect canvas) <= clientX)%Q ->
  (clientX <= rect_left (rect canvas) + rect_width (rect canvas))%Q ->
  (rect_top (rect canvas) <= clientY)%Q ->
  (clientY <= rect_top (rect canvas) + rect_height (rect canvas))%Q ->
  (exists c,
     getCoords ed (MouseEvent clientX clientY) = Some c /\
     (0 <= fst c)%Q /\ (fst c <= inject_Z (width canvas))%Q /\
     (0 <= snd c)%Q /\ (snd c <= inject_Z (height canvas))%Q) /\
  (exists c0 c1,
     getCoords ed (MouseEvent (rect_left (rect canvas)) (rect_top (rect canvas))) = Some c0 /\
     (fst c0 == 0)%Q /\ (snd c0 == 0)%Q /\
     getCoords ed (MouseEvent (rect_left (rect canvas) + rect_width (rect canvas))
                              (rect_top (rect canvas) + rect_height (rect canvas))) = Some c1 /\
     (fst c1 == inject_Z (width canvas))%Q /\ (snd c1 == inject_Z (height canvas))%Q) /\
  getCoords ed (TouchEvent []) = None.
Proof.
  intros Hcanvas Hrw Hrh Hw Hh Hx0 Hx1 Hy0 Hy1.
  assert (HW : (0 <= inject_Z (width canvas))%Q)
    by (change 0%Q with (inject_Z 0); rewrite <- Zle_Qle; exact Hw).
  assert (HH : (0 <= inject_Z (height canvas))%Q)
    by (change 0%Q with (inject_Z 0); rewrite <- Zle_Qle; exact Hh).
  unfold getCoords. rewrite Hcanvas. cbn [clientPoint].
  split; [|split; [|reflexivity]].
  - eexists. split; [reflexivity|]. cbn [fst snd].
    destruct (scaled_within (clientX - rect_left (rect canvas)) (rect_width (rect canvas))
                (inject_Z (width canvas)) Hrw HW) as [A B].
    { apply offset_nonneg. exact Hx0. }
    { apply offset_within. exact Hx1. }
    destruct (scaled_within (clientY - rect_top (rect canvas)) (rect_height (rect canvas))
                (inject_Z (height canvas)) Hrh HH) as [C D].
    { apply offset_nonneg. exact Hy0. }
    { apply offset_within. exact Hy1. }
    repeat split; assumption.
  - eexists. eexists. split; [reflexivity|]. cbn [fst snd].
    split; [ring|]. split; [ring|]. split; [reflexivity|]. cbn [fst snd].
    split.
    + rewrite <- (scaled_full (rect_width (rect canvas)) (inject_Z (width canvas)) Hrw) at 2.
      ring.
    + rewrite <- (scaled_full (rect_height (rect canvas)) (inject_Z (height canvas)) Hrh) at 2.
      ring.
Qed.

(** A blank 4-by-2 stroke canvas shown at 8 by 4, offset by (10,20). *)
Definition shownCanvas : Canvas :=
  {| width := 4; height := 2;
     rect := {| rect_left := 10; rect_top := 20; rect_width := 8; rect_height := 4 |};
     context2d := true;
     bitmap := replicate 32 0 |}.

Definition shownEditor : Editor :=
  {| isDrawing := false; lastPoint := None;
     drawingCanvas := Some shownCanvas; brushSize := 30 |}.

Lemma getCoords_rect_onto_buffer_witness :
  (exists c,
     getCoords shownEditor (MouseEvent 14 22) = Some c /\
     (0 <= fst c)%Q /\ (fst c <= inject_Z 4)%Q /\
     (0 <= snd c)%Q /\ (snd c <= inject_Z 2)%Q) /\
  (exists c0 c1,
     getCoords shownEditor (MouseEvent 10 20) = Some c0 /\
     (fst c0 == 0)%Q /\ (snd c0 == 0)%Q /\
     getCoords shownEditor (MouseEvent (10 + 8) (20 + 4)) = Some c1 /\
     (fst c1 == inject_Z 4)%Q /\ (snd c1 == inject_Z 2)%Q) /\
  getCoords shownEditor (TouchEvent []) = None.
Proof.
  apply (getCoords_rect_onto_buffer shownEditor shownCanvas 14 22);
    try reflexivity; try (cbn; lia); try (cbn; discriminate).
Defined.

(** In doubles, the right edge of a 78-pixel-wide rectangle over a
    100-pixel-wide canvas: [78 * (100 / 78)] is 100.00000000000001. *)
Lemma right_edge_in_doubles :
  exists q,
    Double.valueOf (Double.mul (Double.ofZ 78) (Double.div (Double.ofZ 100) (Double.ofZ 78)))
    = Some q /\ (100 < q)%Q /\ (q < 100 + (1 # 10 ^ 13))%Q.
Proof. eexists. split; [vm_compute; reflexivity|]. split; reflexivity. Qed.

(** *** Gestures *)

Section Gestures.

Variable stroke : Stroke -> Canvas -> list Z.

(** One segment painted on a canvas, and a polyline from [last] through
    [points]: what the canvas holds and where the pen ends. *)
Definition segment (brushSize : Z) (canvas : Canvas) (a b : Q * Q) : Canvas :=
  set_bitmap
    (stroke {| from := a; to := b;
               lineWidth := (inject_Z brushSize
                             * (inject_Z (width canvas) / rect_width (rect canvas)))%Q |}
            canvas)
    canvas.

Fixpoint polyline (brushSize : Z) (canvas : Canvas) (last : Q * Q) (points : list (Q * Q))
  : Canvas * (Q * Q) :=
  match points with
  | [] => (canvas, last)
  | p :: rest => polyline brushSize (segment brushSize canvas last p) p rest
  end.

(** The position an event has on a canvas depends on the canvas's size and
    rectangle only. *)
Definition sameFrame (c1 c2 : Canvas) : Prop :=
  width c1 = width c2 /\ height c1 = height c2 /\ rect c1 = rect c2 /\
  context2d c1 = context2d c2.

Lemma getCoords_sameFrame (ed1 ed2 : Editor) (c1 c2 : Canvas) (e : PointerEvent) :
  drawingCanvas ed1 = Some c1 -> drawingCanvas ed2 = Some c2 -> sameFrame c1 c2 ->
  getCoords ed1 e = getCoords ed2 e.
Proof.
  intros H1 H2 (Hw & Hh & Hr & _). unfold getCoords.
  rewrite H1, H2, Hw, Hh, Hr. reflexivity.
Qed.

Lemma segment_sameFrame (brushSize : Z) (canvas : Canvas) (a b : Q * Q) :
  sameFrame canvas (segment brushSize canvas a b).
Proof. repeat split. Qed.

(** While drawing, each move strokes from the previous point to its own. *)
Lemma moves_polyline (moves : list PointerEvent) :
  forall (points : list (Q * Q)) (ed : Editor) (canvas : Canvas) (last : Q * Q),
    isDrawing ed = true ->
    drawingCanvas ed = Some canvas ->
    context2d canvas = true ->
    lastPoint ed = Some last ->
    Forall2 (fun e p => getCoords ed e = Some p) moves points ->
    let ed' := dispatchAll stroke (map Move moves) ed in
    drawingCanvas ed' = Some (fst (polyline (brushSize ed) canvas last points)) /\
    lastPoint ed' = Some (snd (polyline (brushSize ed) canvas last points)) /\
    isDrawing ed' = true /\ brushSize ed' = brushSize ed.
Proof.
  induction moves as [|e moves IH]; intros points ed canvas last Hdraw Hcanvas Hctx Hlast Hall.
  - inversion Hall; subst. cbn. repeat split; assumption.
  - inversion Hall as [|e' p moves' points' Hp Hrest]; subst.
    cbn [map dispatchAll fold_left dispatch].
    fold (dispatchAll stroke (map Move moves) (onMove stroke e ed)).
    assert (Hstep : onMove stroke e ed
                    = set_lastPoint (Some p)
                        (set_drawingCanvas (Some (segment (brushSize ed) canvas last p)) ed)).
    { unfold onMove, draw. rewrite Hdraw, Hcanvas, Hctx, Hp, Hlast. reflexivity. }
    rewrite Hstep.
    set (ed1 := set_lastPoint (Some p)
                  (set_drawingCanvas (Some (segment (brushSize ed) canvas last p)) ed)).
    destruct (IH points' ed1 (segment (brushSize ed) canvas last p) p) as (A & B & C & D);
      try reflexivity; try assumption.
    { eapply Forall2_impl; [exact Hrest|]. intros e0 p0 H0. rewrite <- H0.
      apply (getCoords_sameFrame ed1 ed (segment (brushSize ed) canvas last p) canvas);
        [reflexivity | exact Hcanvas |].
      repeat split. }
    cbn [polyline]. repeat split; assumption.
Qed.

(** X2.  A gesture on an idle editor whose context is available: the press
    paints nothing, every following move strokes one segment from the
    previous pointer position to the new one, so the canvas ends up holding
    the polyline through the positions in order, and the release keeps the
    canvas, forgets the last point and ends the drawing state. *)
Theorem gesture_paints_polyline (ed : Editor) (canvas : Canvas)
    (down up : PointerEvent) (start : Q * Q)
    (moves : list PointerEvent) (points : list (Q * Q)) :
  isDrawing ed = false ->
  drawingCanvas ed = Some canvas ->
  context2d canvas = true ->
  getCoords ed down = Some start ->
  Forall2 (fun e p => getCoords ed e = Some p) moves points ->
  let drawn := dispatchAll stroke (Down down :: map Move moves) ed in
  let released := dispatch stroke drawn (Up up) in
  drawingCanvas drawn = Some (fst (polyline (brushSize ed) canvas start points)) /\
  lastPoint drawn = Some (snd (polyline (brushSize ed) canvas start points)) /\
  isDrawing drawn = true /\
  drawingCanvas released = drawingCanvas drawn /\
  lastPoint released = None /\
  isDrawing released = false.
Proof.
  intros Hidle Hcanvas Hctx Hdown Hall drawn released.
  assert (Hpress : startDrawing stroke down ed
                   = set_isDrawing true (set_lastPoint (Some start) ed)).
  { unfold startDrawing. rewrite Hdown, Hidle. reflexivity. }
  destruct (moves_polyline moves points (set_isDrawing true (set_lastPoint (Some start) ed))
              canvas start) as (A & B & C & D);
    [reflexivity | exact Hcanvas | exact Hctx | reflexivity | exact Hall |].
  assert (Hdrawn : drawn = dispatchAll stroke (map Move moves)
                             (set_isDrawing true (set_lastPoint (Some start) ed))).
  { unfold drawn. cbn [dispatchAll fold_left dispatch]. rewrite Hpress. reflexivity. }
  cbn [brushSize set_isDrawing set_lastPoint] in A, B.
  rewrite <- Hdrawn in A, B, C.
  split; [exact A|]. split; [exact B|]. split; [exact C|].
  unfold released. cbn [dispatch]. unfold stopDrawing. rewrite C. cbn.
  repeat split.
Qed.

Definition isDown (ev : CanvasEvent) : bool :=
  match ev with Down _ => true | _ => false end.

(** X3.  Without a press nothing is drawn: on an idle editor any sequence
    of moves and releases leaves the editor exactly as it was. *)
Theorem moves_without_press_change_nothing (ed : Editor) (evs : list CanvasEvent) :
  isDrawing ed = false ->
  forallb (fun ev => negb (isDown ev)) evs = true ->
  dispatchAll stroke evs ed = ed.
Proof.
  intros Hidle. induction evs as [|ev evs IH]; intros Hevs; [reflexivity|].
  cbn [forallb] in Hevs. apply andb_true_iff in Hevs. destruct Hevs as [Hev Hrest].
  cbn [dispatchAll fold_left]. fold (dispatchAll stroke evs (dispatch stroke ed ev)).
  assert (Hsame : dispatch stroke ed ev = ed).
  { destruct ev as [e|e|e]; [discriminate| |].
    - cbn [dispatch]. unfold onMove, draw. rewrite Hidle. reflexivity.
    - cbn [dispatch]. unfold stopDrawing. rewrite Hidle. reflexivity. }
  rewrite Hsame. apply IH. exact Hrest.
Qed.

End Gestures.

(** A rasteriser for the worked instances: it marks the whole canvas. *)
Definition floodPainter (s : Stroke) (canvas : Canvas) : list Z :=
  replicate (length (bitmap canvas)) 128.

Definition coordsOf (ed : Editor) (e : PointerEvent) : Q * Q :=
  match getCoords ed e with
  | Some c => c
  | None => (0, 0)%Q
  end.

Definition sampleMoves : list PointerEvent := [MouseEvent 14 22; MouseEvent 18 24].

Lemma gesture_paints_polyline_witness :
  let points := map (coordsOf shownEditor) sampleMoves in
  let start := coordsOf shownEditor (MouseEvent 10 20) in
  let drawn :=
    dispatchAll floodPainter (Down (MouseEvent 10 20) :: map Move sampleMoves) shownEditor in
  let released := dispatch floodPainter drawn (Up (MouseEvent 18 24)) in
  drawingCanvas drawn = Some (fst (polyline floodPainter 30 shownCanvas start points)) /\
  lastPoint drawn = Some (snd (polyline floodPainter 30 shownCanvas start points)) /\
  isDrawing drawn = true /\
  drawingCanvas released = drawingCanvas drawn /\
  lastPoint released = None /\
  isDrawing released = false.
Proof.
  apply (gesture_paints_polyline floodPainter shownEditor shownCanvas
           (MouseEvent 10 20) (MouseEvent 18 24)
           (coordsOf shownEditor (MouseEvent 10 20))
           sampleMoves (map (coordsOf shownEditor) sampleMoves)).
  - reflexivity.
  - reflexivity.
  - reflexivity.
  - reflexivity.
  - repeat constructor.
Defined.

Lemma moves_without_press_change_nothing_witness :
  dispatchAll floodPainter
    [Move (MouseEvent 14 22); Up (MouseEvent 14 22); Move (MouseEvent 18 24)] shownEditor
  = shownEditor.
Proof.
  apply (moves_without_press_change_nothing floodPainter shownEditor
           [Move (MouseEvent 14 22); Up (MouseEvent 14 22); Move (MouseEvent 18 24)]).
  - reflexivity.
  - reflexivity.
Defined.

(** *** Clearing and exporting *)

Lemma anyAlpha_false_noPixelDrawn (canvas : Canvas) :
  EditorProofs.wellFormed canvas ->
  EditorProofs.anyAlpha (bitmap canvas) = false ->
  EditorProofs.noPixelDrawn canvas.
Proof.
  intros Hwf Hnone p a Hp Ha.
  destruct (Z_lt_le_dec 0 a) as [Hpos|Hle]; [|exact Hle].
  assert (Hany : EditorProofs.anyAlpha (bitmap canvas) = true).
  { apply (EditorProofs.anyAlpha_true (EditorProofs.pixelCount canvas));
      [apply EditorProofs.wellFormed_length; exact Hwf|].
    exists p, a. repeat split; assumption. }
  congruence.
Qed.

(** X4.  The export is non-empty exactly when there is something to
    export and somewhere to put it: for a stroke canvas with its context
    available, [exportBinaryMask] returns the empty string if and only if no
    pixel has alpha above 0 or the context of the auxiliary mask canvas is
    unavailable; in every other case it returns a PNG of the canvas's size. *)
Theorem exportBinaryMask_empty_iff (maskContext : bool) (ed : Editor) (canvas : Canvas) :
  drawingCanvas ed = Some canvas ->
  context2d canvas = true ->
  EditorProofs.wellFormed canvas ->
  (exportBinaryMask maskContext ed = Returned EmptyStr <->
   EditorProofs.noPixelDrawn canvas \/ maskContext = false) /\
  (exportBinaryMask maskContext ed <> Returned EmptyStr ->
   exists maskData,
     exportBinaryMask maskContext ed
     = Returned (PngOf {| data := maskData; sw := width canvas; sh := height canvas |})).
Proof.
  intros Hcanvas Hctx Hwf. unfold exportBinaryMask. rewrite Hcanvas.
  rewrite EditorProofs.getMaskAsBase64_eval by assumption.
  destruct (EditorProofs.anyAlpha (bitmap canvas)) eqn:Hany; cbn [negb].
  - destruct maskContext; cbn [negb].
    + split.
      * split; [discriminate|]. intros [Hnone | Hmc]; [|discriminate].
        rewrite (EditorProofs.noPixelDrawn_anyAlpha canvas Hwf Hnone) in Hany. discriminate.
      * intros _. eexists. reflexivity.
    + split.
      * split; [intros _; right; reflexivity | reflexivity].
      * intros H. contradiction H. reflexivity.
  - split.
    + split; [|reflexivity]. intros _. left.
      apply anyAlpha_false_noPixelDrawn; assumption.
    + intros H. contradiction H. reflexivity.
Qed.

Lemma exportBinaryMask_empty_iff_witness :
  (exportBinaryMask false EditorProofs.sampleEditor = Returned EmptyStr <->
   EditorProofs.noPixelDrawn EditorProofs.sampleCanvas \/ false = false) /\
  (exportBinaryMask false EditorProofs.sampleEditor <> Returned EmptyStr ->
   exists maskData,
     exportBinaryMask false EditorProofs.sampleEditor
     = Returned (PngOf {| data := maskData; sw := 2; sh := 1 |})).
Proof.
  apply (exportBinaryMask_empty_iff false EditorProofs.sampleEditor EditorProofs.sampleCanvas).
  - reflexivity.
  - reflexivity.
  - unfold EditorProofs.wellFormed. simpl. lia.
Defined.

Lemma cleared_noPixelDrawn (canvas : Canvas) :
  EditorProofs.noPixelDrawn
    (set_bitmap (replicate (length (bitmap canvas)) 0) canvas).
Proof.
  intros p a _ Ha. unfold EditorProofs.alphaAt in Ha. cbn [bitmap set_bitmap] in Ha.
  apply lookup_replicate in Ha. destruct Ha as [-> _]. lia.
Qed.

(** X5.  Clearing empties the selection whatever had been drawn: after
    [clearCanvas] the canvas keeps its size, every byte is 0, and the export
    is the empty string, so "Next Step" answers with the select-an-area
    message and finalises nothing. *)
Theorem clearCanvas_then_export_empty (maskContext : bool) (ed : Editor) (canvas : Canvas)
    (s : App.App) :
  drawingCanvas ed = Some canvas ->
  context2d canvas = true ->
  EditorProofs.wellFormed canvas ->
  (exists cleared,
     drawingCanvas (clearCanvas ed) = Some cleared /\
     width cleared = width canvas /\ height cleared = height canvas /\
     length (bitmap cleared) = length (bitmap canvas) /\
     Forall (fun byte => byte = 0) (bitmap cleared)) /\
  exportBinaryMask maskContext (clearCanvas ed) = Returned EmptyStr /\
  App.handleNextStep maskContext (Some (clearCanvas ed)) s
  = App.setError (Some "Please select an area before proceeding."%string) s.
Proof.
  intros Hcanvas Hctx Hwf.
  assert (Hclear : clearCanvas ed
                   = set_drawingCanvas
                       (Some (set_bitmap (replicate (length (bitmap canvas)) 0) canvas)) ed).
  { unfold clearCanvas. rewrite Hcanvas, Hctx. reflexivity. }
  assert (Hwf' : EditorProofs.wellFormed
                   (set_bitmap (replicate (length (bitmap canvas)) 0) canvas)).
  { destruct Hwf as (Hw & Hh & Hlen). unfold EditorProofs.wellFormed.
    cbn [width height bitmap set_bitmap]. rewrite length_replicate. repeat split; assumption. }
  assert (Hexport : exportBinaryMask maskContext (clearCanvas ed) = Returned EmptyStr).
  { rewrite Hclear. unfold exportBinaryMask. cbn [drawingCanvas set_drawingCanvas].
    rewrite EditorProofs.getMaskAsBase64_eval; [|exact Hctx|exact Hwf'].
    rewrite (EditorProofs.noPixelDrawn_anyAlpha _ Hwf' (cleared_noPixelDrawn canvas)).
    reflexivity. }
  split; [|split; [exact Hexport|]].
  - rewrite Hclear. eexists. split; [reflexivity|].
    cbn [width height bitmap set_bitmap]. rewrite length_replicate.
    repeat split. apply Forall_replicate. reflexivity.
  - apply EditorProofs.handleNextStep_empty. exact Hexport.
Qed.

Lemma clearCanvas_then_export_empty_witness :
  (exists cleared,
     drawingCanvas (clearCanvas EditorProofs.sampleEditor) = Some cleared /\
     width cleared = 2 /\ height cleared = 1 /\
     length (bitmap cleared) = 8%nat /\
     Forall (fun byte => byte = 0) (bitmap cleared)) /\
  exportBinaryMask true (clearCanvas EditorProofs.sampleEditor) = Returned EmptyStr /\
  App.handleNextStep true (Some (clearCanvas EditorProofs.sampleEditor)) App.initialApp
  = App.setError (Some "Please select an area before proceeding."%string) App.initialApp.
Proof.
  apply (clearCanvas_then_export_empty true EditorProofs.sampleEditor
           EditorProofs.sampleCanvas App.initialApp).
  - reflexivity.
  - reflexivity.
  - unfold EditorProofs.wellFormed. simpl. lia.
Defined.

End EditorMoreProofs.

(** ** ImageCropper.tsx: the dragged rectangle *)

Module CropperMoreProofs.
Import DOM DOMFacts Cropper CropperEvents.





(** What may be selected while no drag is in progress: nothing, or a
    rectangle of at least 5 by 5 display pixels. *)
Definition settled (st : Cropper) : Prop :=
  isDragging st = false ->
  match crop st with
  | None => True
  | Some c => (5 <= width c)%Q /\ (5 <= height c)%Q
  end.

Lemma settled_dispatch (st : Cropper) (ev : CropEvent) :
  settled st -> settled (dispatch st ev).
Proof.
  intros Hst. destruct ev as [e|e|e]; cbn [dispatch].
  - unfold handleDragStart. destruct (getCoords st e); [|exact Hst].
    intros H. discriminate H.
  - unfold handleDragMove. destruct (isDragging st) eqn:Hdrag; cbn [negb]; [|exact Hst].
    destruct (startPoint st); [|exact Hst].
    destruct (getCoords st e); [|exact Hst].
    intros H. cbn in H. congruence.
  - unfold handleDragEnd. destruct (isDragging st) eqn:Hdrag; cbn [negb]; [|exact Hst].
    destruct (crop st) as [c|] eqn:Hcrop.
    + destruct (Qltb (width c) 5 || Qltb (height c) 5) eqn:Htest.
      * intros _. exact I.
      * intros _. cbn [crop set_startPoint set_isDragging]. rewrite Hcrop.
        apply orb_false_iff in Htest. destruct Htest as [Hw Hh].
        split; apply Qltb_ge; assumption.
    + intros _. cbn [crop set_startPoint set_isDragging]. rewrite Hcrop. exact I.
Qed.

(** X7.  From a cropper with no selection and no drag in progress, after
    any sequence of drag starts, moves and ends: whenever no drag is in
    progress, either nothing is selected and "Apply Crop" does nothing, or
    the selection is at least 5 by 5 display pixels.  A smaller rectangle
    is never left selected. *)
Theorem selection_at_rest (st : Cropper) (evs : list CropEvent) :
  isDragging st = false ->
  crop st = None ->
  let st' := dispatchAll evs st in
  isDragging st' = false ->
  (crop st' = None /\ handleApplyCrop st' = None) \/
  (exists c, crop st' = Some c /\ (5 <= width c)%Q /\ (5 <= height c)%Q).
Proof.
  intros Hidle Hnone st' Hrest.
  assert (Hsettled : settled st').
  { unfold st'. clear Hrest st'.
    assert (H0 : settled st) by (intros _; rewrite Hnone; exact I).
    clear Hidle Hnone. revert st H0.
    induction evs as [|ev evs IH]; intros st H0; [exact H0|].
    cbn [dispatchAll fold_left]. fold (dispatchAll evs (dispatch st ev)).
    apply IH. apply settled_dispatch. exact H0. }
  specialize (Hsettled Hrest).
  destruct (crop st') as [c|] eqn:Hcrop.
  - right. exists c. split; [reflexivity|exact Hsettled].
  - left. split; [reflexivity|].
    unfold handleApplyCrop. rewrite Hcrop. destruct (image st'); reflexivity.
Qed.

(** A 3-pixel slip followed by a real drag. *)
Definition slipThenDrag : list CropEvent :=
  [DragStart (MouseEvent 10 10); DragMove (MouseEvent 13 12); DragEnd (MouseEvent 13 12);
   DragStart (MouseEvent 20 20); DragMove (MouseEvent 60 50); DragEnd (MouseEvent 60 50)].

Lemma selection_at_rest_witness :
  (crop (dispatchAll slipThenDrag CropperProofs.idleCropper) = None /\
   handleApplyCrop (dispatchAll slipThenDrag CropperProofs.idleCropper) = None) \/
  (exists c,
     crop (dispatchAll slipThenDrag CropperProofs.idleCropper) = Some c /\
     (5 <= width c)%Q /\ (5 <= height c)%Q).
Proof.
  apply (selection_at_rest CropperProofs.idleCropper slipThenDrag).
  - reflexivity.
  - reflexivity.
  - reflexivity.
Defined.

End CropperMoreProofs.

(** ** App.tsx: the Magic Expand screen *)

Module ExpandMoreProofs.
Import DOM App Samples.

(** [Math.round(m * 0.25)] on an integer [m]. *)
Lemma Math_round_quarter (m : Z) :
  Math_round (inject_Z m * (1 # 4)) = (m + 2) / 4.
Proof.
  unfold Math_round, Qfloor, Qplus, Qmult, inject_Z. cbn [Qnum Qden].
  change (Z.pos (1 * 4 * 2)) with (4 * 2).
  replace (m * 1 * 2 + 1 * Z.pos (1 * 4)) with ((m + 2) * 2) by lia.
  apply Z.div_mul_cancel_r; lia.
Qed.

Lemma entering_expand (s : App) (image : OriginalImage) :
  originalImage s = Some image ->
  let s' := handleToolSelect expand s in
  appState s' = EXPANDING /\
  expandSteps s' = noSteps /\
  expandHistory s' = [] /\
  expansionStepSize s' = (Z.min (width image) (height image) + 2) / 4.
Proof.
  intros Himage s'. unfold s', handleToolSelect. rewrite Himage.
  split; [reflexivity|]. split; [reflexivity|]. split; [reflexivity|].
  cbn [expansionStepSize setExpandHistory setExpandSteps setAppState setExpansionStepSize].
  apply Math_round_quarter.
Qed.

(** X8.  Choosing Magic Expand with an image loaded opens the Expanding
    screen with all counters at zero, an empty history, and a step of a
    quarter of the image's shorter side rounded to the nearest integer,
    halves up: [floor((min(width, height) + 2) / 4)].  The step is at least
    1 as soon as the shorter side is at least 2 pixels, and 0 for a side of
    1 pixel. *)
Theorem handleToolSelect_expand_step (s : App) (image : OriginalImage) :
  originalImage s = Some image ->
  0 < width image -> 0 < height image ->
  let shorter := Z.min (width image) (height image) in
  let s' := handleToolSelect expand s in
  appState s' = EXPANDING /\
  expandSteps s' = noSteps /\
  expandHistory s' = [] /\
  expansionStepSize s' = (shorter + 2) / 4 /\
  4 * expansionStepSize s' - 2 <= shorter <= 4 * expansionStepSize s' + 1 /\
  (2 <= shorter -> 1 <= expansionStepSize s') /\
  (shorter = 1 -> expansionStepSize s' = 0).
Proof.
  intros Himage Hw Hh shorter s'.
  destruct (entering_expand s image Himage) as (Eapp & Esteps & Ehist & Estep).
  fold s' in Eapp, Esteps, Ehist, Estep. fold shorter in Estep.
  split; [exact Eapp|]. split; [exact Esteps|]. split; [exact Ehist|].
  split; [exact Estep|]. rewrite Estep.
  pose proof (Z.div_mod (shorter + 2) 4 ltac:(lia)) as Hdm.
  pose proof (Z.mod_pos_bound (shorter + 2) 4 ltac:(lia)) as Hmod.
  split; [lia|]. split.
  - intros H2. apply Z.div_le_lower_bound; lia.
  - intros H1. rewrite H1. reflexivity.
Qed.

Lemma handleToolSelect_expand_step_witness :
  let s' := handleToolSelect expand uploaded in
  appState s' = EXPANDING /\
  expandSteps s' = noSteps /\
  expandHistory s' = [] /\
  expansionStepSize s' = (600 + 2) / 4 /\
  4 * expansionStepSize s' - 2 <= 600 <= 4 * expansionStepSize s' + 1 /\
  (2 <= 600 -> 1 <= expansionStepSize s') /\
  (600 = 1 -> expansionStepSize s' = 0).
Proof.
  apply (handleToolSelect_expand_step uploaded photo); reflexivity.
Defined.

(** *** What every reachable Expanding state satisfies *)

Definition nonNegative (steps : ExpandSteps) : Prop :=
  0 <= top steps /\ 0 <= right steps /\ 0 <= bottom steps /\ 0 <= left steps.

(** Counters and snapshots as clicks and undos keep them: nothing negative,
    every snapshot taken below the maximum and no smaller than its position
    in the history, the current total within one of the maximum and no
    smaller than the number of snapshots. *)
Definition orderly (s : App) : Prop :=
  nonNegative (expandSteps s) /\
  Forall nonNegative (expandHistory s) /\
  Forall (fun steps => totalClicks steps < MAX_EXPANSION_CLICKS) (expandHistory s) /\
  totalClicks (expandSteps s) <= MAX_EXPANSION_CLICKS + 1 /\
  (forall k steps, expandHistory s !! k = Some steps -> Z.of_nat k <= totalClicks steps) /\
  Z.of_nat (length (expandHistory s)) <= totalClicks (expandSteps s).

Lemma orderly_fresh (s : App) :
  expandSteps s = noSteps -> expandHistory s = [] -> orderly s.
Proof.
  intros Esteps Ehist. unfold orderly. rewrite Esteps, Ehist.
  split; [unfold nonNegative; cbn; lia|].
  split; [constructor|]. split; [constructor|].
  rewrite ExpandProofs.totalClicks_sum. unfold MAX_EXPANSION_CLICKS.
  split; [cbn; lia|].
  split; [intros k steps Hk; discriminate Hk | cbn; lia].
Qed.

Lemma orderly_same (s s' : App) :
  expandSteps s' = expandSteps s -> expandHistory s' = expandHistory s ->
  orderly s -> orderly s'.
Proof. intros E1 E2 H. unfold orderly in *. rewrite E1, E2. exact H. Qed.

Lemma increment_grows (direction : Direction) (steps : ExpandSteps) :
  nonNegative steps ->
  nonNegative (increment direction steps) /\
  totalClicks steps + 1 <= totalClicks (increment direction steps) <= totalClicks steps + 2 /\
  top steps <= top (increment direction steps) /\
  right steps <= right (increment direction steps) /\
  bottom steps <= bottom (increment direction steps) /\
  left steps <= left (increment direction steps).
Proof.
  intros (Ht & Hr & Hb & Hl). rewrite !ExpandProofs.totalClicks_sum.
  unfold nonNegative. destruct direction; cbn; lia.
Qed.

Lemma orderly_step (s : App) (ev : ExpandEvent) :
  orderly s -> orderly (expandStep s ev).
Proof.
  intros (Hnn & Hhnn & Hhlt & Htot & Hidx & Hlen).
  destruct ev as [direction|]; cbn [expandStep].
  - destruct (Z_lt_le_dec (totalClicks (expandSteps s)) MAX_EXPANSION_CLICKS) as [Hlt|Hge].
    + rewrite ExpandProofs.handleExpandClick_accepted by exact Hlt.
      destruct (increment_grows direction (expandSteps s) Hnn) as (Inn & Itot & _).
      unfold orderly. cbn [expandSteps expandHistory setExpandSteps setExpandHistory].
      split; [exact Inn|].
      split; [apply Forall_app; split; [exact Hhnn | constructor; [exact Hnn|constructor]]|].
      split; [apply Forall_app; split; [exact Hhlt | constructor; [exact Hlt|constructor]]|].
      split; [unfold MAX_EXPANSION_CLICKS in *; lia|].
      split.
      * intros k steps Hk.
        destruct (Nat.lt_ge_cases k (length (expandHistory s))) as [Hin|Hout].
        -- rewrite lookup_app_l in Hk by exact Hin. apply Hidx. exact Hk.
        -- rewrite lookup_app_r in Hk by exact Hout.
           destruct (k - length (expandHistory s))%nat as [|n] eqn:Hn; [|discriminate].
           cbn in Hk. inversion Hk; subst steps. lia.
      * rewrite length_app. cbn [length]. lia.
    + destruct (ExpandProofs.handleExpandClick_rejected direction s Hge) as [E1 E2].
      unfold orderly. rewrite E1, E2.
      exact (conj Hnn (conj Hhnn (conj Hhlt (conj Htot (conj Hidx Hlen))))).
  - unfold handleUndoExpand.
    destruct (last (expandHistory s)) as [previousSteps|] eqn:Hlast;
      [|exact (conj Hnn (conj Hhnn (conj Hhlt (conj Htot (conj Hidx Hlen)))))].
    apply last_Some in Hlast. destruct Hlast as [h Hh].
    unfold orderly. cbn [expandSteps expandHistory setExpandSteps setExpandHistory].
    rewrite Hh in Hhnn, Hhlt, Hidx |- *. rewrite removelast_last.
    apply Forall_app in Hhnn. destruct Hhnn as [Hn1 Hn2].
    apply Forall_app in Hhlt. destruct Hhlt as [Hl1 Hl2].
    apply Forall_inv in Hn2. apply Forall_inv in Hl2. cbv beta in Hl2.
    split; [exact Hn2|]. split; [exact Hn1|]. split; [exact Hl1|].
    split; [unfold MAX_EXPANSION_CLICKS in *; lia|].
    split.
    + intros k steps Hk. apply Hidx. apply lookup_app_l_Some. exact Hk.
    + apply (Hidx (length h) previousSteps).
      rewrite lookup_app_r by lia. rewrite Nat.sub_diag. reflexivity.
Qed.

Lemma orderly_run (evs : list ExpandEvent) :
  forall s, orderly s -> orderly (expandRun evs s).
Proof.
  induction evs as [|ev evs IH]; intros s H; [exact H|].
  cbn [expandRun fold_left]. fold (expandRun evs (expandStep s ev)).
  apply IH. apply orderly_step. exact H.
Qed.

(** Clicks and undos touch the counters, the history and the error slot
    only. *)
Lemma expandStep_frame (s : App) (ev : ExpandEvent) :
  appState (expandStep s ev) = appState s /\
  originalImage (expandStep s ev) = originalImage s /\
  expansionStepSize (expandStep s ev) = expansionStepSize s /\
  prompt (expandStep s ev) = prompt s.
Proof.
  destruct ev as [direction|]; cbn [expandStep].
  - unfold handleExpandClick.
    destruct (MAX_EXPANSION_CLICKS <=? totalClicks (expandSteps s)); repeat split.
  - unfold handleUndoExpand. destruct (last (expandHistory s)); repeat split.
Qed.

Lemma expandRun_frame (evs : list ExpandEvent) :
  forall s,
    appState (expandRun evs s) = appState s /\
    originalImage (expandRun evs s) = originalImage s /\
    expansionStepSize (expandRun evs s) = expansionStepSize s /\
    prompt (expandRun evs s) = prompt s.
Proof.
  induction evs as [|ev evs IH]; intros s; [repeat split|].
  cbn [expandRun fold_left]. fold (expandRun evs (expandStep s ev)).
  destruct (IH (expandStep s ev)) as (A & B & C & D).
  destruct (expandStep_frame s ev) as (A' & B' & C' & D').
  rewrite A, B, C, D. repeat split; assumption.
Qed.

(** X9.  On the Expanding screen, after any clicks and undos: the screen,
    the image and the step are those of entry; no counter is negative; the
    counters sum to at most 7; the history holds at most 6 snapshots, so at
    most 6 presses are ever in effect; and the canvas a submit would build is
    at most 7 steps wider and 7 steps taller than the image. *)
Theorem expanding_screen_invariants (s0 : App) (image : OriginalImage)
    (evs : list ExpandEvent) :
  originalImage s0 = Some image ->
  0 < width image -> 0 < height image ->
  let s := expandRun evs (handleToolSelect expand s0) in
  let step := expansionStepSize s in
  appState s = EXPANDING /\
  originalImage s = Some image /\
  step = (Z.min (width image) (height image) + 2) / 4 /\
  0 <= step /\
  nonNegative (expandSteps s) /\
  totalClicks (expandSteps s) <= 7 /\
  (length (expandHistory s) <= 6)%nat /\
  width image <= width image + (left (expandSteps s) + right (expandSteps s)) * step
    <= width image + 7 * step /\
  height image <= height image + (top (expandSteps s) + bottom (expandSteps s)) * step
    <= height image + 7 * step.
Proof.
  intros Himage Hw Hh s step.
  destruct (entering_expand s0 image Himage) as (Eapp & Esteps & Ehist & Estep).
  destruct (expandRun_frame evs (handleToolSelect expand s0)) as (A & B & C & _).
  fold s in A, B, C.
  assert (Hentry : orderly (handleToolSelect expand s0)).
  { apply orderly_fresh; assumption. }
  pose proof (orderly_run evs _ Hentry) as (Hnn & _ & Hhlt & Htot & Hidx & Hlen).
  fold s in Hnn, Hhlt, Htot, Hidx, Hlen.
  assert (Hstep0 : 0 <= step).
  { unfold step. rewrite C, Estep. apply Z.div_pos; lia. }
  assert (Hhist : (length (expandHistory s) <= 6)%nat).
  { destruct (ExpandProofs.history_cases (expandHistory s)) as [E | (h & e & E)].
    - rewrite E. cbn. lia.
    - rewrite E in Hhlt, Hidx |- *. rewrite length_app. cbn [length].
      apply Forall_app in Hhlt. destruct Hhlt as [_ Hl2]. apply Forall_inv in Hl2.
      cbv beta in Hl2.
      assert (Hk : Z.of_nat (length h) <= totalClicks e).
      { apply Hidx. rewrite lookup_app_r by lia. rewrite Nat.sub_diag. reflexivity. }
      unfold MAX_EXPANSION_CLICKS in Hl2. lia. }
  split; [rewrite A; exact Eapp|].
  split; [rewrite B; unfold handleToolSelect; rewrite Himage; exact Himage|].
  split; [unfold step; rewrite C; exact Estep|].
  split; [exact Hstep0|]. split; [exact Hnn|].
  unfold MAX_EXPANSION_CLICKS in Htot. split; [lia|]. split; [exact Hhist|].
  rewrite ExpandProofs.totalClicks_sum in Htot. destruct Hnn as (Ht & Hr & Hb & Hl).
  split; nia.
Qed.

Lemma expanding_screen_invariants_witness :
  let s := expandRun [Click d_right; Click d_top_left; Undo; Click d_bottom]
             (handleToolSelect expand uploaded) in
  let step := expansionStepSize s in
  appState s = EXPANDING /\
  originalImage s = Some photo /\
  step = (Z.min 800 600 + 2) / 4 /\
  0 <= step /\
  nonNegative (expandSteps s) /\
  totalClicks (expandSteps s) <= 7 /\
  (length (expandHistory s) <= 6)%nat /\
  800 <= 800 + (left (expandSteps s) + right (expandSteps s)) * step <= 800 + 7 * step /\
  600 <= 600 + (top (expandSteps s) + bottom (expandSteps s)) * step <= 600 + 7 * step.
Proof.
  apply (expanding_screen_invariants uploaded photo
           [Click d_right; Click d_top_left; Undo; Click d_bottom]); reflexivity.
Defined.

(** *** The preview of the Expanding screen *)

Section Preview.
Import ExpandingScreen.

Variable image : OriginalImage.
Variable steps : ExpandSteps.
Variable step : Z.

Hypothesis width_positive : 0 < width image.
Hypothesis height_positive : 0 < height image.
Hypothesis steps_nonNegative : nonNegative steps.
Hypothesis step_nonNegative : 0 <= step.

Let finalWidth := width image + (left steps + right steps) * step.
Let finalHeight := height image + (top steps + bottom steps) * step.
Let W := inject_Z finalWidth.
Let H := inject_Z finalHeight.
Let k := previewScale image steps step.

Lemma final_positive : (0 < W)%Q /\ (0 < H)%Q.
Proof.
  destruct steps_nonNegative as (Ht & Hr & Hb & Hl).
  unfold W, H, finalWidth, finalHeight.
  split; (change 0%Q with (inject_Z 0); rewrite <- Zlt_Qlt; nia).
Qed.

Lemma previewScale_eq : k = Qmin (Qmin (550 / W) (550 / H)) 1.
Proof. reflexivity. Qed.

Lemma scale_range : (0 < k)%Q /\ (k <= 1)%Q /\ (k <= 550 / W)%Q /\ (k <= 550 / H)%Q.
Proof.
  destruct final_positive as [HW HH]. rewrite previewScale_eq.
  assert (HX : (0 < 550 / W)%Q).
  { apply Qlt_shift_div_l; [exact HW|]. rewrite Qmult_0_l. reflexivity. }
  assert (HY : (0 < 550 / H)%Q).
  { apply Qlt_shift_div_l; [exact HH|]. rewrite Qmult_0_l. reflexivity. }
  split.
  - apply Q.min_glb_lt; [apply Q.min_glb_lt; assumption | reflexivity].
  - split; [apply Q.le_min_r|].
    split.
    + eapply Qle_trans; [apply Q.le_min_l|apply Q.le_min_l].
    + eapply Qle_trans; [apply Q.le_min_l|apply Q.le_min_r].
Qed.

Lemma fits (L : Q) : (0 < L)%Q -> (k <= 550 / L)%Q -> (L * k <= 550)%Q.
Proof.
  intros HL Hk.
  assert (E : (L * (550 / L) == 550)%Q).
  { apply Qmult_div_r. intros E0. rewrite E0 in HL. discriminate HL. }
  rewrite <- E. apply Qmult_le_l; assumption.
Qed.

(** X10.  The preview of the Expanding screen is the canvas a submit
    would build, drawn at one scale: the grey area and the image have the
    size and the offsets of the [fillRect] and [drawImage] calls times the
    scale.  The scale is positive and at most 1; the preview is at most
    550 pixels on either side; it is shown at full size when the expanded
    image fits in 550 by 550 pixels; otherwise its longer side is exactly
    550 pixels.  The image always lies inside the preview. *)
Theorem preview_matches_submission :
  let style := previewStyle image steps step in
  calls (expansionCanvas image steps step)
  = [fillRect "#808080" 0 0 finalWidth finalHeight;
     drawImage image (left steps * step) (top steps * step) (width image) (height image)] /\
  (canvasStyleWidth style == inject_Z finalWidth * k /\
   canvasStyleHeight style == inject_Z finalHeight * k /\
   imageStyleLeft style == inject_Z (left steps * step) * k /\
   imageStyleTop style == inject_Z (top steps * step) * k /\
   imageStyleWidth style == inject_Z (width image) * k /\
   imageStyleHeight style == inject_Z (height image) * k)%Q /\
  (0 < k /\ k <= 1)%Q /\
  (canvasStyleWidth style <= 550 /\ canvasStyleHeight style <= 550)%Q /\
  (0 <= imageStyleLeft style /\ 0 <= imageStyleTop style /\
   imageStyleLeft style + imageStyleWidth style <= canvasStyleWidth style /\
   imageStyleTop style + imageStyleHeight style <= canvasStyleHeight style)%Q /\
  (finalWidth <= 550 -> finalHeight <= 550 -> (k == 1)%Q) /\
  (550 < finalWidth \/ 550 < finalHeight ->
   (Qmax (canvasStyleWidth style) (canvasStyleHeight style) == 550)%Q).
Proof.
  intros style.
  destruct final_positive as [HW HH].
  destruct scale_range as (Hk0 & Hk1 & HkX & HkY).
  destruct steps_nonNegative as (Ht & Hr & Hb & Hl).
  split; [reflexivity|].
  split; [repeat split; reflexivity|].
  split; [split; assumption|].
  split; [split; [apply (fits W) | apply (fits H)]; assumption|].
  split.
  { unfold style, previewStyle.
    cbn [imageStyleLeft imageStyleTop imageStyleWidth imageStyleHeight
         canvasStyleWidth canvasStyleHeight].
    fold k.
    assert (Hnn : forall a : Z, 0 <= a -> (0 <= inject_Z a * k)%Q).
    { intros a Ha. apply Qmult_le_0_compat; [|apply Qlt_le_weak; exact Hk0].
      change 0%Q with (inject_Z 0). rewrite <- Zle_Qle. exact Ha. }
    assert (Hsum : forall a b c : Z, a + b <= c ->
               (inject_Z a * k + inject_Z b * k <= inject_Z c * k)%Q).
    { intros a b c Habc. rewrite <- Qmult_plus_distr_l, <- inject_Z_plus.
      apply Qmult_le_compat_r; [|apply Qlt_le_weak; exact Hk0].
      rewrite <- Zle_Qle. exact Habc. }
    split; [apply Hnn; nia|]. split; [apply Hnn; nia|].
    split; apply Hsum; nia. }
  split.
  { intros Hfw Hfh. rewrite previewScale_eq. apply Q.min_r. apply Q.min_glb.
    - apply Qle_shift_div_l; [exact HW|]. rewrite Qmult_1_l.
      unfold W. change 550%Q with (inject_Z 550). rewrite <- Zle_Qle. exact Hfw.
    - apply Qle_shift_div_l; [exact HH|]. rewrite Qmult_1_l.
      unfold H. change 550%Q with (inject_Z 550). rewrite <- Zle_Qle. exact Hfh. }
  intros Hbig.
  assert (EW : (W * (550 / W) == 550)%Q).
  { apply Qmult_div_r. intros E0. rewrite E0 in HW. discriminate HW. }
  assert (EH : (H * (550 / H) == 550)%Q).
  { apply Qmult_div_r. intros E0. rewrite E0 in HH. discriminate HH. }
  assert (Hmin : (Qmin (550 / W) (550 / H) <= 1)%Q).
  { destruct Hbig as [Hb1|Hb1].
    - eapply Qle_trans; [apply Q.le_min_l|].
      apply Qle_shift_div_r; [exact HW|]. rewrite Qmult_1_l.
      unfold W. change 550%Q with (inject_Z 550). rewrite <- Zle_Qle. lia.
    - eapply Qle_trans; [apply Q.le_min_r|].
      apply Qle_shift_div_r; [exact HH|]. rewrite Qmult_1_l.
      unfold H. change 550%Q with (inject_Z 550). rewrite <- Zle_Qle. lia. }
  assert (Ek : (k == Qmin (550 / W) (550 / H))%Q).
  { rewrite previewScale_eq. apply Q.min_l. exact Hmin. }
  unfold style, previewStyle. cbn [canvasStyleWidth canvasStyleHeight].
  fold k. fold finalWidth finalHeight. fold W H.
  destruct (Qlt_le_dec (550 / H) (550 / W)) as [Hlt|Hle].
  - assert (Ek' : (k == 550 / H)%Q).
    { rewrite Ek. apply Q.min_r. apply Qlt_le_weak. exact Hlt. }
    rewrite Q.max_r.
    + rewrite Ek'. exact EH.
    + rewrite Ek' at 2. rewrite EH. apply (fits W); assumption.
  - assert (Ek' : (k == 550 / W)%Q).
    { rewrite Ek. apply Q.min_l. exact Hle. }
    rewrite Q.max_l.
    + rewrite Ek'. exact EW.
    + rewrite Ek' at 2. rewrite EW. apply (fits H); assumption.
Qed.

End Preview.

Lemma preview_matches_submission_witness :
  let steps := {| top := 1; right := 2; bottom := 0; left := 0 |} in
  let k := ExpandingScreen.previewScale photo steps 150 in
  let style := ExpandingScreen.previewStyle photo steps 150 in
  calls (expansionCanvas photo steps 150)
  = [fillRect "#808080" 0 0 (800 + (0 + 2) * 150) (600 + (1 + 0) * 150);
     drawImage photo (0 * 150) (1 * 150) 800 600] /\
  (ExpandingScreen.canvasStyleWidth style == inject_Z (800 + (0 + 2) * 150) * k /\
   ExpandingScreen.canvasStyleHeight style == inject_Z (600 + (1 + 0) * 150) * k /\
   ExpandingScreen.imageStyleLeft style == inject_Z (0 * 150) * k /\
   ExpandingScreen.imageStyleTop style == inject_Z (1 * 150) * k /\
   ExpandingScreen.imageStyleWidth style == inject_Z 800 * k /\
   ExpandingScreen.imageStyleHeight style == inject_Z 600 * k)%Q /\
  (0 < k /\ k <= 1)%Q /\
  (ExpandingScreen.canvasStyleWidth style <= 550 /\
   ExpandingScreen.canvasStyleHeight style <= 550)%Q /\
  (0 <= ExpandingScreen.imageStyleLeft style /\ 0 <= ExpandingScreen.imageStyleTop style /\
   ExpandingScreen.imageStyleLeft style + ExpandingScreen.imageStyleWidth style
   <= ExpandingScreen.canvasStyleWidth style /\
   ExpandingScreen.imageStyleTop style + ExpandingScreen.imageStyleHeight style
   <= ExpandingScreen.canvasStyleHeight style)%Q /\
  (800 + (0 + 2) * 150 <= 550 -> 600 + (1 + 0) * 150 <= 550 -> (k == 1)%Q) /\
  (550 < 800 + (0 + 2) * 150 \/ 550 < 600 + (1 + 0) * 150 ->
   (Qmax (ExpandingScreen.canvasStyleWidth style) (ExpandingScreen.canvasStyleHeight style)
    == 550)%Q).
Proof.
  apply (preview_matches_submission photo {| top := 1; right := 2; bottom := 0; left := 0 |} 150).
  - reflexivity.
  - reflexivity.
  - unfold nonNegative. cbn. lia.
  - lia.
Defined.

End ExpandMoreProofs.

(** ** App.tsx: placing the inserted object *)

Module PlacementMoreProofs.
Import DOM App AppMore Samples.
Local Open Scope R_scope.

(** The native centre of the inserted object. *)
Definition nativeCentre (imgWidth imgHeight : R) : R * R :=
  (imgWidth / 2, imgHeight / 2).

(** Where the sliders put it: [x] and [y] percent of the canvas. *)
Definition anchor (t : ImageTransform) (canvasWidth canvasHeight : Z) : R * R :=
  (x t / 100 * IZR canvasWidth, y t / 100 * IZR canvasHeight).

Lemma centre_image (t : ImageTransform) (imgWidth imgHeight : R)
    (canvasWidth canvasHeight : Z) :
  transformPoint (buildTransformMatrix t imgWidth imgHeight canvasWidth canvasHeight)
    (nativeCentre imgWidth imgHeight)
  = anchor t canvasWidth canvasHeight.
Proof.
  destruct (PlacementProofs.matrix_entries t imgWidth imgHeight canvasWidth canvasHeight)
    as (_ & _ & _ & _ & E41 & E42).
  unfold transformPoint, nativeCentre, anchor. cbn [fst snd].
  rewrite E41, E42. f_equal; field.
Qed.

(** X11.  Whatever the scale, the rotation and the two tilts, the matrix
    built for a submission sends the centre of the inserted object to the
    point [x]% across and [y]% down the canvas, on the composite and on the
    mask alike. *)
Theorem centre_lands_on_anchor (image : OriginalImage) (object : InsertImage)
    (t : ImageTransform) :
  let composite := compositeCanvas image object t in
  let mask := maskCanvas image object t in
  let centre := nativeCentre (IZR (naturalWidth object)) (IZR (naturalHeight object)) in
  (forall call, pc_calls composite !! 1%nat = Some call ->
     transformPoint (transformOf call) centre
     = anchor t (pc_width composite) (pc_height composite)) /\
  (forall call, pc_calls mask !! 1%nat = Some call ->
     transformPoint (transformOf call) centre
     = anchor t (pc_width mask) (pc_height mask)).
Proof.
  intros composite mask centre. split; intros call Hcall;
    unfold composite, mask, compositeCanvas, maskCanvas in Hcall;
    cbn [pc_calls] in Hcall; inversion Hcall; apply centre_image.
Qed.

(** X12.  With both tilts at zero the object is drawn turned and uniformly
    scaled, never sheared: the squared distance between the images of two
    points of the object is [(scale / 100)^2] times their squared distance. *)
Theorem untilted_is_similarity (t : ImageTransform) (imgWidth imgHeight : R)
    (canvasWidth canvasHeight : Z) (p q : R * R) :
  rotateX t = 0 -> rotateY t = 0 ->
  let M := buildTransformMatrix t imgWidth imgHeight canvasWidth canvasHeight in
  (fst (transformPoint M p) - fst (transformPoint M q)) ^ 2 +
  (snd (transformPoint M p) - snd (transformPoint M q)) ^ 2
  = (scale t / 100) ^ 2 * ((fst p - fst q) ^ 2 + (snd p - snd q) ^ 2).
Proof.
  intros HX HY M.
  destruct (PlacementProofs.matrix_entries t imgWidth imgHeight canvasWidth canvasHeight)
    as (E11 & E12 & E21 & E22 & _ & _).
  fold M in E11, E12, E21, E22.
  rewrite HY, PlacementProofs.radians_0, cos_0 in E11.
  rewrite HY, PlacementProofs.radians_0, cos_0 in E12.
  rewrite HX, HY, PlacementProofs.radians_0, cos_0, sin_0 in E21.
  rewrite HX, HY, PlacementProofs.radians_0, cos_0, sin_0 in E22.
  unfold transformPoint. cbn [fst snd]. rewrite E11, E12, E21, E22.
  pose proof (sin2_cos2 (radians (rotation t))) as Hsc. unfold Rsqr in Hsc.
  set (c := cos (radians (rotation t))) in *.
  set (sn := sin (radians (rotation t))) in *.
  set (k := scale t / 100).
  transitivity (k ^ 2 * ((sn * sn + c * c) *
                         ((fst p - fst q) ^ 2 + (snd p - snd q) ^ 2))); [ring|].
  rewrite Hsc. ring.
Qed.

Lemma untilted_is_similarity_witness :
  let M := buildTransformMatrix defaultTransform 50 50 800 600 in
  (fst (transformPoint M (0, 0)) - fst (transformPoint M (50, 50))) ^ 2 +
  (snd (transformPoint M (0, 0)) - snd (transformPoint M (50, 50))) ^ 2
  = (scale defaultTransform / 100) ^ 2 * ((fst (0, 0) - fst (50, 50)) ^ 2 +
                                         (snd (0, 0) - snd (50, 50)) ^ 2).
Proof.
  apply (untilted_is_similarity defaultTransform 50 50 800 600 (0, 0) (50, 50));
    reflexivity.
Defined.

(** *** Dragging the object *)

Definition clamp (v : R) : R := Rmax 0 (Rmin 100 v).

Lemma clamp_range (v : R) : 0 <= clamp v <= 100.
Proof.
  unfold clamp. split; [apply Rmax_l|].
  apply Rmax_lub; [lra | apply Rmin_l].
Qed.

Lemma clamp_inside (v : R) : 0 <= v <= 100 -> clamp v = v.
Proof.
  intros [Hlo Hhi]. unfold clamp.
  rewrite Rmin_right by exact Hhi. apply Rmax_right. exact Hlo.
Qed.

(** [{ ...t, x, y }] *)
Definition movedTo (x' y' : R) (t : ImageTransform) : ImageTransform :=
  {| x := x'; y := y'; scale := scale t; rotation := rotation t; opacity := opacity t;
     perspective := perspective t; rotateX := rotateX t; rotateY := rotateY t |}.

Lemma movedTo_same (t : ImageTransform) : movedTo (x t) (y t) t = t.
Proof. destruct t. reflexivity. Qed.

Lemma setInsertImageTransform_same (s : App) :
  setInsertImageTransform (insertImageTransform s) s = s.
Proof. destruct s. reflexivity. Qed.

(** A usable container has a positive size. *)
Definition laidOut (container : option (R * R)) : Prop :=
  match container with
  | Some (width, height) => 0 < width /\ 0 < height
  | None => True
  end.

(** The session differs from [s] by the position of the object only, and
    that position is within the canvas. *)
Definition repositioned (s s' : App) : Prop :=
  exists x' y', 0 <= x' <= 100 /\ 0 <= y' <= 100 /\
    s' = setInsertImageTransform (movedTo x' y' (insertImageTransform s)) s.

Lemma repositioned_refl (s : App) :
  0 <= x (insertImageTransform s) <= 100 ->
  0 <= y (insertImageTransform s) <= 100 ->
  repositioned s s.
Proof.
  intros Hx Hy. exists (x (insertImageTransform s)), (y (insertImageTransform s)).
  split; [exact Hx|]. split; [exact Hy|].
  rewrite movedTo_same, setInsertImageTransform_same. reflexivity.
Qed.

Lemma repositioned_deliver (container : option (R * R)) (s : App)
    (sd : App * PlacementDrag) (ev : DragEvent) :
  repositioned s (fst sd) -> repositioned s (fst (deliver container sd ev)).
Proof.
  destruct sd as [s1 d]. cbn [fst]. intros (x1 & y1 & Hx1 & Hy1 & E).
  destruct ev as [cx cy | cx cy |]; cbn [deliver snd].
  - unfold handleDragStart.
    destruct (isPlacingImage s1); [destruct (insertImage s1)|];
      exists x1, y1; auto.
  - destruct (listening d); [|exists x1, y1; auto].
    unfold handleDragMove. destruct container as [[width height]|];
      [|exists x1, y1; auto].
    cbn [fst].
    exists (clamp (fst (dragStartTransform d) + (cx - fst (dragStartPos d)) / width * 100)),
           (clamp (snd (dragStartTransform d) + (cy - snd (dragStartPos d)) / height * 100)).
    split; [apply clamp_range|]. split; [apply clamp_range|].
    rewrite E. destruct s. reflexivity.
  - destruct (listening d); [|exists x1, y1; auto].
    exists x1, y1; auto.
Qed.

Lemma repositioned_deliverAll (container : option (R * R)) (s : App)
    (evs : list DragEvent) :
  forall sd, repositioned s (fst sd) ->
    repositioned s (fst (deliverAll container evs sd)).
Proof.
  induction evs as [|ev evs IH]; intros sd H; [exact H|].
  cbn [deliverAll fold_left]. fold (deliverAll container evs (deliver container sd ev)).
  apply IH. apply repositioned_deliver. exact H.
Qed.

(** X13.  However the mouse is pressed, moved and released over the
    placement preview, the session changes in the position of the object
    only, and both coordinates stay between 0 and 100 percent: scale,
    rotation, tilts, opacity and every other part of the session are as
    before. *)
Theorem dragging_only_repositions (container : option (R * R))
    (evs : list DragEvent) (s : App) (d : PlacementDrag) :
  laidOut container ->
  0 <= x (insertImageTransform s) <= 100 ->
  0 <= y (insertImageTransform s) <= 100 ->
  exists x' y', 0 <= x' <= 100 /\ 0 <= y' <= 100 /\
    fst (deliverAll container evs (s, d))
    = setInsertImageTransform (movedTo x' y' (insertImageTransform s)) s.
Proof.
  intros _ Hx Hy.
  apply (repositioned_deliverAll container s evs (s, d)).
  apply repositioned_refl; assumption.
Qed.

(** The object being placed over the sample photo, and some mouse work. *)
Definition placing : App :=
  setIsPlacingImage true (setInsertImage (Some sticker) (handleToolSelect insert uploaded)).

Definition viewport : option (R * R) := Some (400, 300).

Lemma dragging_only_repositions_witness :
  exists x' y', 0 <= x' <= 100 /\ 0 <= y' <= 100 /\
    fst (deliverAll viewport [MouseDown 10 10; MouseMove 50 40; MouseUp; MouseMove 0 0]
           (placing, initialDrag))
    = setInsertImageTransform (movedTo x' y' (insertImageTransform placing)) placing.
Proof.
  apply (dragging_only_repositions viewport
           [MouseDown 10 10; MouseMove 50 40; MouseUp; MouseMove 0 0] placing initialDrag).
  - cbn. lra.
  - cbn. lra.
  - cbn. lra.
Defined.

(** While the button is held, moves leave the drag's start untouched and
    the session a repositioning of the one at the press. *)
Lemma held_moves (width height : R) (s : App) (d : PlacementDrag)
    (moves : list (R * R)) :
  listening d = true ->
  forall s1,
    (exists x1 y1, s1 = setInsertImageTransform (movedTo x1 y1 (insertImageTransform s)) s) ->
    exists x2 y2,
      deliverAll (Some (width, height))
        (map (fun m => MouseMove (fst m) (snd m)) moves) (s1, d)
      = (setInsertImageTransform (movedTo x2 y2 (insertImageTransform s)) s, d).
Proof.
  intros Hd. induction moves as [|m moves IH]; intros s1 (x1 & y1 & E).
  - exists x1, y1. rewrite E. reflexivity.
  - cbn [map deliverAll fold_left].
    fold (deliverAll (Some (width, height))
            (map (fun m => MouseMove (fst m) (snd m)) moves)).
    cbn [deliver snd]. rewrite Hd. unfold handleDragMove.
    apply IH. eexists. eexists. rewrite E. destruct s. reflexivity.
Qed.

(** X14.  A drag follows the pointer, not its path: after a press at
    [(px, py)] on an object being placed and any moves, the last of them at
    [(qx, qy)], the object stands where it stood at the press plus the
    pointer's displacement in percent of the container, clamped to
    [0, 100]; nothing else has changed.  Moving back to the point of the
    press puts the object back where it was. *)
Theorem drag_follows_pointer (width height : R) (s : App) (d : PlacementDrag)
    (object : InsertImage) (px py qx qy : R) (moves : list (R * R)) :
  0 < width -> 0 < height ->
  isPlacingImage s = true -> insertImage s = Some object ->
  let t := insertImageTransform s in
  let events :=
    MouseDown px py :: map (fun m => MouseMove (fst m) (snd m)) moves ++ [MouseMove qx qy] in
  let s' := fst (deliverAll (Some (width, height)) events (s, d)) in
  s' = setInsertImageTransform
         (movedTo (clamp (x t + (qx - px) / width * 100))
                  (clamp (y t + (qy - py) / height * 100)) t) s /\
  (qx = px -> qy = py -> 0 <= x t <= 100 -> 0 <= y t <= 100 -> s' = s).
Proof.
  intros Hw Hh Hplacing Hobject t events s'.
  assert (E : s' = setInsertImageTransform
                     (movedTo (clamp (x t + (qx - px) / width * 100))
                              (clamp (y t + (qy - py) / height * 100)) t) s).
  { unfold s', events. cbn [deliverAll fold_left deliver].
    unfold handleDragStart. rewrite Hplacing, Hobject.
    rewrite fold_left_app.
    set (d0 := {| isDragging := true; dragStartPos := (px, py);
                  dragStartTransform := (x (insertImageTransform s), y (insertImageTransform s));
                  listening := true |}).
    destruct (held_moves width height s d0 moves eq_refl s) as (x2 & y2 & Hmoves).
    { exists (x (insertImageTransform s)), (y (insertImageTransform s)).
      rewrite movedTo_same, setInsertImageTransform_same. reflexivity. }
    unfold deliverAll in Hmoves. rewrite Hmoves.
    cbn [fold_left deliver snd listening d0 handleDragMove fst dragStartPos dragStartTransform].
    unfold t. destruct s. reflexivity. }
  split; [exact E|].
  intros -> -> Hx Hy. rewrite E.
  replace (x t + (px - px) / width * 100) with (x t) by (field; lra).
  replace (y t + (py - py) / height * 100) with (y t) by (field; lra).
  rewrite !clamp_inside by assumption.
  unfold t. rewrite movedTo_same. apply setInsertImageTransform_same.
Qed.

Lemma drag_follows_pointer_witness :
  let t := insertImageTransform placing in
  let events :=
    MouseDown 10 10 ::
    map (fun m => MouseMove (fst m) (snd m)) [(30, 20); (500, 90)] ++ [MouseMove 50 40] in
  let s' := fst (deliverAll (Some (400, 300)) events (placing, initialDrag)) in
  s' = setInsertImageTransform
         (movedTo (clamp (x t + (50 - 10) / 400 * 100))
                  (clamp (y t + (40 - 10) / 300 * 100)) t) placing /\
  (50 = 10 -> 40 = 10 -> 0 <= x t <= 100 -> 0 <= y t <= 100 -> s' = placing).
Proof.
  apply (drag_follows_pointer 400 300 placing initialDrag sticker 10 10 50 40
           [(30, 20); (500, 90)]).
  - lra.
  - lra.
  - reflexivity.
  - reflexivity.
Defined.

(** *** What a submission paints *)

Lemma setDimension_nonneg (default : Z) (q : Q) :
  (0 <= default)%Z -> (0 <= setDimension default q)%Z.
Proof.
  intros H. unfold setDimension, toUnsignedLong.
  destruct (Qtruncate q mod 2 ^ 32 <=? 2147483647)%Z; [|exact H].
  apply Z.mod_pos_bound. reflexivity.
Qed.

Lemma percent_within (v : R) (n : Z) :
  0 <= v <= 100 -> (0 <= n)%Z -> 0 <= v / 100 * IZR n <= 0 + IZR n.
Proof.
  intros [Hlo Hhi] Hn. apply IZR_le in Hn.
  assert (H0 : 0 <= v / 100) by lra.
  assert (H1 : v / 100 <= 1) by lra.
  split.
  - apply Rmult_le_pos; assumption.
  - rewrite Rplus_0_l. rewrite <- (Rmult_1_l (IZR n)) at 2.
    apply Rmult_le_compat_r; assumption.
Qed.

(** What a call puts on the canvas around a point: the point is the image
    of an inner point of the call's rectangle, the rectangle has an area and
    the matrix does not flatten it, and a picture is drawn with some
    opacity.  A rectangle flattened to a segment, or a picture drawn at
    alpha 0, leaves the canvas as it was. *)
Definition flattens (M : DOMMatrix) : Prop :=
  m11 M * m22 M - m21 M * m12 M = 0.

Definition visible (call : PlacementCall) : Prop :=
  match call with
  | p_drawImage _ globalAlpha _ _ _ _ _ => 0 < globalAlpha
  | p_fillRect _ _ _ _ _ _ => True
  end.

Definition paintsAround (call : PlacementCall) (p : R * R) : Prop :=
  visible call /\ ~ flattens (transformOf call) /\
  match call with
  | p_drawImage _ _ M x y w h
  | p_fillRect _ M x y w h =>
    0 < w /\ 0 < h /\
    exists q, x < fst q < x + w /\ y < snd q < y + h /\ transformPoint M q = p
  end.

Lemma paintsAround_covers (call : PlacementCall) (p : R * R) :
  paintsAround call p -> covers call p.
Proof.
  intros (_ & _ & H). destruct call as [source alpha M x y w h | style M x y w h];
    destruct H as (Hw & Hh & q & Hx & Hy & E);
    (split; [lra|]); (split; [lra|]); exists q; (split; [|exact E]);
    unfold inRect; lra.
Qed.

(** The centre of an object of positive size, not tilted edge-on and
    placed within the canvas: the mask paints white around it, and the
    composite paints the object around it unless the opacity is 0. *)
Lemma centre_is_painted (image : OriginalImage) (object : InsertImage)
    (t : ImageTransform) :
  (0 < naturalWidth object)%Z -> (0 < naturalHeight object)%Z ->
  0 <= x t <= 100 -> 0 <= y t <= 100 -> 0 < scale t ->
  -90 < rotateX t < 90 -> -90 < rotateY t < 90 ->
  let mask := maskCanvas image object t in
  let composite := compositeCanvas image object t in
  let centre := anchor t (pc_width mask) (pc_height mask) in
  onCanvas mask centre /\
  (exists M w h,
      pc_calls mask !! 1%nat = Some (p_fillRect "white" M 0 0 w h) /\
      paintsAround (p_fillRect "white" M 0 0 w h) centre) /\
  maskWhite mask centre /\
  (0 < opacity t ->
   (exists call, pc_calls composite !! 1%nat = Some call /\ paintsAround call centre) /\
   objectShown composite centre).
Proof.
  intros Hw Hh Hx Hy Hs Hrx Hry mask composite centre.
  apply IZR_lt in Hw, Hh.
  pose proof (PlacementProofs.matrix_invertible image object t Hs Hrx Hry) as Hdet.
  assert (Hon : onCanvas mask centre).
  { unfold onCanvas, inRect, centre, anchor. cbn [fst snd]. split.
    - apply percent_within; [exact Hx|].
      apply setDimension_nonneg. unfold defaultWidth. lia.
    - apply percent_within; [exact Hy|].
      apply setDimension_nonneg. unfold defaultHeight. lia. }
  assert (Hinner : exists q,
             0 < fst q < 0 + IZR (naturalWidth object) /\
             0 < snd q < 0 + IZR (naturalHeight object) /\
             transformPoint
               (buildTransformMatrix t (IZR (naturalWidth object))
                  (IZR (naturalHeight object)) (pc_width mask) (pc_height mask)) q
             = centre).
  { exists (nativeCentre (IZR (naturalWidth object)) (IZR (naturalHeight object))).
    unfold nativeCentre. cbn [fst snd].
    split; [lra|]. split; [lra|]. apply centre_image. }
  assert (Hbox : PlacementProofs.placedBox image object t centre).
  { unfold PlacementProofs.placedBox.
    split; [lra|]. split; [lra|].
    destruct Hinner as (q & Hqx & Hqy & E). exists q.
    split; [unfold inRect; lra | exact E]. }
  split; [exact Hon|]. split.
  { eexists. eexists. eexists. split; [reflexivity|].
    split; [exact I|]. split; [exact Hdet|].
    split; [exact Hw|]. split; [exact Hh|]. exact Hinner. }
  split; [apply PlacementProofs.maskWhite_placedBox; split; assumption|].
  intros Hopacity. split.
  - eexists. split; [reflexivity|].
    split; [cbn [visible]; lra|]. split; [exact Hdet|].
    split; [exact Hw|]. split; [exact Hh|]. exact Hinner.
  - apply PlacementProofs.objectShown_placedBox. split; assumption.
Qed.

End PlacementMoreProofs.

(** ** App.tsx: what holds on every screen the user can reach *)

Module SessionMoreProofs.
Import DOM App AppMore Session Samples.

(** The values the eight sliders can give a transform. *)
Definition withinSliders (t : ImageTransform) : Prop :=
  (0 <= x t <= 100 /\ 0 <= y t <= 100 /\ 1 <= scale t <= 200 /\
   0 <= rotation t <= 360 /\ 300 <= perspective t <= 2000 /\
   -90 <= rotateX t <= 90 /\ -90 <= rotateY t <= 90 /\ 0 <= opacity t <= 100)%R.

(** What each screen can rely on.  [LOADING] is only passed through while
    a request is pending. *)
Definition byScreen (s : App) : Prop :=
  match appState s with
  | HOME | GENERATE_PROMPT | IDLE =>
    originalImage s = None /\ uncroppedOriginalImage s = None /\
    insertImage s = None /\ isPlacingImage s = false
  | TOOL_SELECTION =>
    originalImage s <> None /\ insertImage s = None /\ isPlacingImage s = false
  | EDITING =>
    originalImage s <> None /\
    (tool s = Some magicFill \/ tool s = Some insert) /\
    (tool s = Some magicFill -> insertImage s = None /\ isPlacingImage s = false) /\
    (isPlacingImage s = true -> insertImage s <> None)
  | EXPANDING =>
    tool s = Some expand /\ insertImage s = None /\ isPlacingImage s = false /\
    exists image, originalImage s = Some image /\
      expansionStepSize s =
      Math_round (inject_Z (Z.min (width image) (height image)) * (1 # 4))
  | RESULT =>
    resultData s <> None /\ isPlacingImage s = false /\
    (insertImage s <> None -> tool s = Some insert) /\
    (uncroppedOriginalImage s <> None -> originalImage s <> None)
  | LOADING => False
  end.

Record Sound (s : App) : Prop := {
  by_screen : byScreen s;
  selection_kept : isSelectionDone s = selected (finalSelection s);
  sliders : withinSliders (insertImageTransform s);
  counters : ExpandMoreProofs.orderly s
}.

Lemma initial_sound : Sound initialApp.
Proof.
  constructor.
  - cbn. tauto.
  - reflexivity.
  - unfold withinSliders. cbn. lra.
  - apply ExpandMoreProofs.orderly_fresh; reflexivity.
Qed.

Local Arguments ExpandMoreProofs.orderly : simpl never.
Local Arguments withinSliders : simpl never.
Local Arguments Math_round : simpl never.
Local Arguments selected : simpl never.
Local Arguments nonEmpty : simpl never.
Local Arguments String.prefix : simpl never.

Ltac open_app s :=
  destruct s as [st oi uoi ii rd pr er sd fs lm sc tl pl tr ess es eh cr].

Ltac flags :=
  repeat match goal with
         | H : _ /\ _ |- _ => destruct H
         | H : (_ && _)%bool = true |- _ => apply andb_prop in H
         | H : (_ || _)%bool = true |- _ => apply orb_prop in H
         | H : negb _ = true |- _ => apply negb_true_iff in H
         | H : exists _, _ |- _ => destruct H
         end.

Lemma orderly_of (s s' : App) :
  ExpandMoreProofs.orderly s ->
  expandSteps s' = expandSteps s -> expandHistory s' = expandHistory s ->
  ExpandMoreProofs.orderly s'.
Proof. intros H E1 E2. exact (ExpandMoreProofs.orderly_same s s' E1 E2 H). Qed.

Ltac branches :=
  repeat match goal with
         | |- context [match ?x with _ => _ end] => destruct x eqn:?
         end.

Ltac leaf S4 :=
  constructor;
  [ unfold byScreen in *; cbn in *; flags;
    intuition (try congruence; try discriminate; eauto)
  | cbn in *; unfold selected; try reflexivity; try assumption; try congruence
  | cbn in *; try assumption
  | first [ exact (orderly_of _ _ S4 eq_refl eq_refl)
          | apply ExpandMoreProofs.orderly_fresh; reflexivity ] ].

Ltac start HS s Hoff :=
  destruct HS as [S1 S2 S3 S4]; open_app s;
  unfold expandingShown, editorShown, selectPanel, placePanel, describePanel,
    placementShown, cropperShown, showRestoreButton, onScreen, usesTool, isSome in Hoff;
  cbn in Hoff;
  match goal with screen : AppState |- _ => destruct screen end;
  cbn in Hoff; try discriminate Hoff; flags; try discriminate.

Lemma act_sound (ss : Session) (a : Action) :
  Sound (app (shell ss)) -> Sound (app (shell (act ss a))).
Proof.
  intros HS. unfold act. destruct (offered ss a && settles ss a) eqn:Hboth; [|exact HS].
  apply andb_prop in Hboth. destruct Hboth as [Hoff Hsettles].
  destruct ss as [[s g] d]. cbn [shell app] in HS.
  destruct a;
    cbn [offered settles perform onApp onShell shell app generationPrompt placementDrag] in *.
  - (* EditAnImage *) start HS s Hoff. leaf S4.
  - (* CreateAnImage *) start HS s Hoff. leaf S4.
  - (* TypeGenerationPrompt *) exact HS.
  - (* Generate *)
    apply andb_prop in Hoff. destruct Hoff as [Hoff Hne].
    start HS s Hoff.
    unfold handleGenerateSubmit. cbn [app generationPrompt]. rewrite Hne. cbn [negb].
    destruct (generateImage g); leaf S4.
  - (* TypeContext *) start HS s Hoff. leaf S4.
  - (* Upload *)
    start HS s Hoff. unfold handleFileChange.
    destruct picked as [p|]; [|leaf S4].
    destruct (negb (String.prefix "image/" (type (pickedFile p)))); leaf S4.
  - (* SelectTool *)
    start HS s Hoff. unfold handleToolSelect. cbn.
    destruct selectedTool; try solve [leaf S4].
    destruct oi as [image|]; [|leaf S4].
    constructor; [|exact S2|exact S3|apply ExpandMoreProofs.orderly_fresh; reflexivity].
    unfold byScreen in *. cbn in *. flags.
    split; [reflexivity|]. split; [assumption|]. split; [assumption|].
    exists image. split; reflexivity.
  - (* ChangeImage *) start HS s Hoff. leaf S4.
  - (* ChangeTool *) start HS s Hoff; destruct oi; try discriminate; leaf S4.
  - (* Expander *)
    pose proof (ExpandMoreProofs.orderly_step s (Click direction) (counters s HS)) as HC.
    cbn [expandStep] in HC. apply andb_prop in Hoff. destruct Hoff as [Hoff Hlim].
    apply negb_true_iff in Hlim. unfold isAtLimit in Hlim.
    unfold handleExpandClick in *. rewrite Hlim in *.
    start HS s Hoff. destruct oi; try discriminate.
    constructor; [|exact S2|exact S3|exact HC].
    unfold byScreen in *. cbn in *. exact S1.
  - (* UndoExpansion *)
    pose proof (ExpandMoreProofs.orderly_step s Undo (counters s HS)) as HC.
    cbn [expandStep] in HC. apply andb_prop in Hoff. destruct Hoff as [Hoff _].
    unfold handleUndoExpand in *.
    start HS s Hoff. destruct oi; try discriminate.
    cbn in *. destruct (last eh);
      (constructor; [|exact S2|exact S3|exact HC]); unfold byScreen in *; cbn in *; exact S1.
  - (* TypePrompt *)
    apply orb_prop in Hoff. destruct Hoff as [Hoff|Hoff]; start HS s Hoff; leaf S4.
  - (* SubmitExpansion *)
    apply andb_prop in Hoff. destruct Hoff as [Hoff _].
    apply andb_prop in Hoff. destruct Hoff as [Hoff _].
    start HS s Hoff. destruct oi as [image|]; try discriminate.
    unfold handleExpandSubmit. cbn.
    destruct expandContext; cbn; [destruct (expandImage pr _ _)|]; leaf S4.
  - (* CropImage *)
    apply andb_prop in Hoff. destruct Hoff as [Hoff _].
    start HS s Hoff. unfold handleStartCropping. cbn.
    destruct uoi, oi; try discriminate; leaf S4.
  - (* ApplyCrop *)
    start HS s Hoff. destruct oi; try discriminate.
    unfold handleSaveCrop. destruct loaded as [[blobType [w h]]|]; cbn [fst]; leaf S4.
  - (* CancelCrop *)
    start HS s Hoff. destruct oi; try discriminate. leaf S4.
  - (* RestoreOriginal *)
    apply andb_prop in Hoff. destruct Hoff as [Hoff Hrest].
    start HS s Hoff. destruct oi; try discriminate.
    unfold handleRestoreOriginal. cbn. destruct uoi; cbn [fst]; leaf S4.
  - (* NextStep *)
    start HS s Hoff. destruct oi; try discriminate.
    unfold handleNextStep. destruct editor as [ed|]; [|leaf S4].
    destruct (Editor.exportBinaryMask hasContext ed) as [selection|]; [|leaf S4].
    destruct (Editor.truthy selection) eqn:Htruthy; [|leaf S4].
    constructor; [|unfold selected; cbn; rewrite Htruthy; reflexivity|exact S3
                  |exact (orderly_of _ _ S4 eq_refl eq_refl)].
    unfold byScreen in *. cbn in *. exact S1.
  - (* Slide *)
    apply andb_prop in Hoff. destruct Hoff as [Hoff Hmax].
    apply andb_prop in Hoff. destruct Hoff as [Hoff Hmin].
    apply Z.leb_le in Hmin, Hmax. apply IZR_le in Hmin, Hmax.
    start HS s Hoff. destruct oi; try discriminate.
    constructor; [|exact S2| |exact (orderly_of _ _ S4 eq_refl eq_refl)].
    + unfold byScreen in *. cbn in *. tauto.
    + unfold withinSliders in *. cbn [insertImageTransform setInsertImageTransform] in *.
      destruct slider; cbn in *; lra.
  - (* Mouse *)
    assert (Hrep : PlacementMoreProofs.repositioned s (fst (deliver container (s, d) ev))).
    { apply (PlacementMoreProofs.repositioned_deliver container s (s, d) ev).
      destruct HS as [_ _ (Hx & Hy & _) _].
      apply PlacementMoreProofs.repositioned_refl; assumption. }
    destruct (deliver container (s, d) ev) as [s' d']. cbn [fst shell app] in *.
    destruct Hrep as (x' & y' & Hx' & Hy' & ->). clear Hoff.
    destruct HS as [S1 S2 S3 S4].
    constructor; [|exact S2| |exact (orderly_of _ _ S4 eq_refl eq_refl)].
    + open_app s. unfold byScreen in *. cbn in *. exact S1.
    + unfold withinSliders in *. cbn. tauto.
  - (* InsertAndBlend *)
    apply negb_true_iff in Hsettles. unfold submitBlend. rewrite Hsettles. clear Hsettles.
    start HS s Hoff. destruct oi as [image|]; try discriminate.
    unfold insertAndBlend, handleEditSubmit. cbn.
    destruct tl as [[]|]; branches; leaf S4.
  - (* CancelPlacement *)
    start HS s Hoff. destruct oi; try discriminate. leaf S4.
  - (* UploadInsert *)
    start HS s Hoff. destruct oi; try discriminate.
    destruct tl as [[]|]; try discriminate.
    unfold handleInsertFileChange. destruct picked as [p|]; [|leaf S4].
    destruct (negb (String.prefix "image/" (type (pickedFile p)))); [leaf S4|].
    constructor; [|exact S2| |exact (orderly_of _ _ S4 eq_refl eq_refl)].
    + unfold byScreen in *. cbn in *. intuition (try congruence; try discriminate).
    + unfold withinSliders. cbn. lra.
  - (* AdjustPlacement *)
    start HS s Hoff. destruct oi; try discriminate.
    destruct tl as [[]|]; try discriminate. destruct ii; try discriminate. leaf S4.
  - (* Submit *)
    apply negb_true_iff in Hsettles. unfold submitEdit. rewrite Hsettles. clear Hsettles.
    apply andb_prop in Hoff. destruct Hoff as [Hoff _].
    start HS s Hoff. destruct oi as [image|]; try discriminate.
    unfold handleEditSubmit. cbn.
    destruct tl as [[]|]; branches; leaf S4.
  - (* ContinueEditing *)
    start HS s Hoff. unfold continueEditing, handleImageResultForEditing. cbn.
    destruct oi, fetched as [[[blobType dataUrl] [w h]]|]; leaf S4.
  - (* EditOriginalAgain *)
    start HS s Hoff. destruct oi; try discriminate. leaf S4.
  - (* StartOver *) start HS s Hoff. leaf S4.
  - (* Home *) start HS s Hoff; leaf S4.
Qed.

Lemma run_sound (actions : list Action) :
  forall ss, Sound (app (shell ss)) -> Sound (app (shell (run actions ss))).
Proof.
  induction actions as [|a actions IH]; intros ss H; [exact H|].
  cbn [run fold_left]. fold (run actions (act ss a)). apply IH. apply act_sound. exact H.
Qed.

Lemma reached_sound (actions : list Action) :
  Sound (app (shell (run actions initialSession))).
Proof. apply run_sound. exact initial_sound. Qed.

Lemma present {A : Type} (o : option A) : o <> None -> exists a, o = Some a.
Proof. destruct o as [a|]; [exists a; reflexivity | congruence]. Qed.

(** X15.  From the home page, whatever controls the user works (each
    request settled before the next action): the session never rests on the
    loading screen; Tool Selection, Editing and Expanding always have an
    image to show and the three screens before the upload have none; the
    Editing screen runs Magic Fill or Insert and the Expanding screen Magic
    Expand; the Result screen has a result; and the selection is marked
    done exactly when a mask is stored. *)
Theorem every_screen_has_its_data (actions : list Action) :
  let s := app (shell (run actions initialSession)) in
  appState s <> LOADING /\
  (appState s = TOOL_SELECTION \/ appState s = EDITING \/ appState s = EXPANDING ->
   exists image, originalImage s = Some image) /\
  (appState s = HOME \/ appState s = GENERATE_PROMPT \/ appState s = IDLE ->
   originalImage s = None /\ uncroppedOriginalImage s = None /\ insertImage s = None) /\
  (appState s = EDITING -> tool s = Some magicFill \/ tool s = Some insert) /\
  (appState s = EXPANDING -> tool s = Some expand) /\
  (appState s = RESULT -> exists result, resultData s = Some result) /\
  (isSelectionDone s = true <-> exists img, finalSelection s = Some (Editor.PngOf img)).
Proof.
  intros s. destruct (reached_sound actions) as [S1 S2 _ _]. fold s in S1, S2.
  unfold byScreen in S1.
  split; [intros E; rewrite E in S1; exact S1|].
  split.
  { intros H. apply present. destruct H as [E|[E|E]]; rewrite E in S1; flags; try assumption.
    congruence. }
  split; [intros [E|[E|E]]; rewrite E in S1; tauto|].
  split; [intros E; rewrite E in S1; tauto|].
  split; [intros E; rewrite E in S1; tauto|].
  split; [intros E; rewrite E in S1; apply present; tauto|].
  rewrite S2. unfold selected. destruct (finalSelection s) as [[|img]|]; cbn; split.
  - discriminate.
  - intros (img & H). discriminate H.
  - intros _. exists img. reflexivity.
  - reflexivity.
  - discriminate.
  - intros (img & H). discriminate H.
Qed.

(** X16.  In every session reached with each request and file read
    settled before the next action, the placement transform is within the
    ranges of its sliders, in particular the position within the canvas and
    the scale at least 1; and an object is being placed only on the Editing
    screen, under the Insert tool, with an object loaded. *)
Theorem placement_stays_in_range (actions : list Action) :
  let s := app (shell (run actions initialSession)) in
  withinSliders (insertImageTransform s) /\
  (isPlacingImage s = true ->
   appState s = EDITING /\ tool s = Some insert /\
   exists object, insertImage s = Some object).
Proof.
  intros s. destruct (reached_sound actions) as [S1 _ S3 _]. fold s in S1, S3.
  split; [exact S3|]. intros Hplacing. unfold byScreen in S1.
  destruct (appState s); flags; try congruence; try contradiction.
  split; [reflexivity|]. split; [|apply present; tauto].
  match goal with H : _ \/ _ |- _ => destruct H as [Hfill|Hins] end; [|exact Hins].
  match goal with H : tool s = Some magicFill -> _ |- _ => destruct (H Hfill) end.
  congruence.
Qed.

(** X17.  In every session reached with each request and file read
    settled before the next action, for an object of positive size whose
    tilts are both strictly between -90 and 90 degrees (at a slider end the
    object is edge-on and nothing of it is painted): the point the position
    sliders name is on the canvas; it is the image of an inner point of the
    object under a matrix that does not flatten it, so the white rectangle
    of the placement mask is painted around it; and unless the opacity is 0
    the composite draws the object around it.  Over exact reals, before
    rasterisation. *)
Theorem placed_object_is_painted (actions : list Action) (image : OriginalImage)
    (object : InsertImage) :
  let s := app (shell (run actions initialSession)) in
  let t := insertImageTransform s in
  originalImage s = Some image -> insertImage s = Some object ->
  0 < naturalWidth object -> 0 < naturalHeight object ->
  (-90 < rotateX t < 90)%R -> (-90 < rotateY t < 90)%R ->
  let mask := maskCanvas image object t in
  let composite := compositeCanvas image object t in
  let centre := PlacementMoreProofs.anchor t (pc_width mask) (pc_height mask) in
  onCanvas mask centre /\
  (exists M w h,
      pc_calls mask !! 1%nat = Some (p_fillRect "white" M 0 0 w h) /\
      PlacementMoreProofs.paintsAround (p_fillRect "white" M 0 0 w h) centre) /\
  maskWhite mask centre /\
  ((0 < opacity t)%R ->
   (exists call, pc_calls composite !! 1%nat = Some call /\
                 PlacementMoreProofs.paintsAround call centre) /\
   objectShown composite centre).
Proof.
  intros s t _ _ Hw Hh Hrx Hry.
  destruct (reached_sound actions) as [_ _ (Hx & Hy & Hs & _) _].
  fold s in Hx, Hy, Hs. fold t in Hx, Hy, Hs.
  assert (Hscale : (0 < scale t)%R) by lra.
  exact (PlacementMoreProofs.centre_is_painted image object t Hw Hh Hx Hy Hscale Hrx Hry).
Qed.

(** A session that placed the sample sticker over the sample photo. *)
Definition pickedPhoto : Picked :=
  {| pickedFile := {| name := "photo.png"; type := "image/png" |};
     dataUrl := "data:image/png;base64,AAAA"; pickedWidth := 800; pickedHeight := 600 |}.

Definition pickedSticker : Picked :=
  {| pickedFile := {| name := "sticker.png"; type := "image/png" |};
     dataUrl := "data:image/png;base64,BBBB"; pickedWidth := 50; pickedHeight := 50 |}.

Definition toSelection (selectedTool : Tool) : list Action :=
  [EditAnImage; Upload (Some pickedPhoto); SelectTool selectedTool;
   NextStep true (Some EditorProofs.sampleEditor)].

Definition placingSticker : list Action :=
  toSelection insert ++
  [UploadInsert (Some pickedSticker);
   Mouse (Some (400, 300)%R) (MouseDown 10 10);
   Mouse (Some (400, 300)%R) (MouseMove 50 40);
   Mouse (Some (400, 300)%R) MouseUp;
   Slide Scale 120].

Lemma placed_object_is_painted_witness :
  let s := app (shell (run placingSticker initialSession)) in
  let t := insertImageTransform s in
  let mask := maskCanvas photo sticker t in
  let composite := compositeCanvas photo sticker t in
  let centre := PlacementMoreProofs.anchor t (pc_width mask) (pc_height mask) in
  onCanvas mask centre /\
  (exists M w h,
      pc_calls mask !! 1%nat = Some (p_fillRect "white" M 0 0 w h) /\
      PlacementMoreProofs.paintsAround (p_fillRect "white" M 0 0 w h) centre) /\
  maskWhite mask centre /\
  (exists call, pc_calls composite !! 1%nat = Some call /\
                PlacementMoreProofs.paintsAround call centre) /\
  objectShown composite centre.
Proof.
  intros s t mask composite centre.
  assert (Ex : rotateX t = 0%R) by reflexivity.
  assert (Ey : rotateY t = 0%R) by reflexivity.
  assert (Eo : opacity t = 100%R) by reflexivity.
  destruct (placed_object_is_painted placingSticker photo sticker
              eq_refl eq_refl eq_refl eq_refl
              ltac:(fold s; fold t; rewrite Ex; lra) ltac:(fold s; fold t; rewrite Ey; lra))
    as (Hon & Hfill & Hwhite & Hshown).
  split; [exact Hon|]. split; [exact Hfill|]. split; [exact Hwhite|].
  apply Hshown. fold s. fold t. rewrite Eo. lra.
Defined.

(** A request whose every step succeeds: the inserted picture loads,
    contexts are available, the file reads, the service resolves. *)
Definition obliging (a : Action) : Prop :=
  match a with
  | Generate generateImage => forall p, exists result, generateImage p = Resolved result
  | SubmitExpansion expandContext expandImage =>
    expandContext = true /\
    forall p canvas mime, exists result, expandImage p canvas mime = Resolved result
  | Submit env | InsertAndBlend env =>
    insertLoads env = true /\
    compositeContext env = true /\ maskContext env = true /\
    (forall f, exists base64, fileToDataUrl env f = Resolved base64) /\
    (forall p original mask mime context,
        exists result, editImageWithText env p original mask mime context = Resolved result) /\
    (forall original composite mask mime objectMime,
        exists result, blendImages env original composite mask mime objectMime = Resolved result)
  | _ => False
  end.

Lemma obliging_settles (ss : Session) (a : Action) :
  obliging a -> settles ss a = true.
Proof.
  destruct a; try reflexivity; intros (Hloads & _); cbn [settles];
    unfold waitsForever; rewrite Hloads;
    repeat match goal with
           | |- context [match ?x with _ => _ end] => destruct x
           end; reflexivity.
Qed.

(** X18.  In every session reached with each request and file read
    settled before the next action, a submit button that is on the page and
    enabled (Generate on the two prompt screens, Generate or Set Placement
    on the Editing screen, Insert & Blend while placing) never stops at one
    of the handler's own checks: if the inserted picture loads and the
    contexts, the file reading and the service oblige, the session lands on
    the Result screen with the result stored and no error. *)
Theorem enabled_submit_succeeds (actions : list Action) (a : Action) :
  let ss := run actions initialSession in
  offered ss a = true -> obliging a ->
  let s' := app (shell (act ss a)) in
  appState s' = RESULT /\ (exists result, resultData s' = Some result) /\ error s' = None.
Proof.
  intros ss Hoff Hob s'. unfold s', act.
  pose proof (obliging_settles ss a Hob) as Hsettles. rewrite Hoff, Hsettles. cbn [andb].
  pose proof (reached_sound actions) as HS. fold ss in HS.
  destruct ss as [[s g] d]. cbn [shell app] in HS.
  destruct a; try contradiction Hob;
    cbn [offered settles perform onApp onShell shell app generationPrompt placementDrag
         obliging] in *.
  - (* Generate *)
    apply andb_prop in Hoff. destruct Hoff as [_ Hne].
    unfold handleGenerateSubmit. cbn [app generationPrompt]. rewrite Hne. cbn [negb].
    destruct (Hob g) as [result ->]. cbn. eauto.
  - (* SubmitExpansion *)
    destruct Hob as [-> Hob].
    apply andb_prop in Hoff. destruct Hoff as [Hoff _].
    apply andb_prop in Hoff. destruct Hoff as [Hoff _].
    start HS s Hoff. destruct oi as [image|]; try discriminate.
    unfold handleExpandSubmit. cbn.
    match goal with |- context [expandImage ?p ?c ?m] => destruct (Hob p c m) as [result ->] end.
    cbn. eauto.
  - (* InsertAndBlend *)
    destruct Hob as (_ & Hc & Hm & Hfile & _ & Hblend).
    apply negb_true_iff in Hsettles. unfold submitBlend. rewrite Hsettles. clear Hsettles.
    start HS s Hoff. destruct oi as [image|]; try discriminate. subst.
    unfold byScreen in S1. cbn in S1. destruct S1 as (_ & Htool & Hfill & Hobject).
    destruct Htool as [->| ->]; [destruct (Hfill eq_refl); congruence|].
    destruct ii as [object|]; [|exfalso; exact (Hobject eq_refl eq_refl)].
    unfold insertAndBlend, handleEditSubmit. cbn.
    rewrite andb_false_r. destruct (Hfile (file image)) as [base64 ->].
    rewrite Hc, Hm. cbn.
    match goal with
    | |- context [blendImages env ?o ?c ?m ?t1 ?t2] =>
      destruct (Hblend o c m t1 t2) as [result ->]
    end.
    cbn. eauto.
  - (* Submit *)
    destruct Hob as (_ & Hc & Hm & Hfile & Hedit & Hblend).
    apply negb_true_iff in Hsettles. unfold submitEdit. rewrite Hsettles. clear Hsettles.
    apply andb_prop in Hoff. destruct Hoff as [Hoff Hready].
    unfold isReadyForSubmit in Hready.
    start HS s Hoff. destruct oi as [image|]; try discriminate.
    cbn in Hready, S2. subst sd.
    unfold handleEditSubmit. cbn.
    destruct tl as [[| |]|]; try discriminate Hready.
    + match goal with H : true = selected fs |- _ => rewrite <- H end. cbn.
      destruct (Hfile (file image)) as [base64 ->]. rewrite Hready. cbn.
      destruct fs as [[|img]|]; try discriminate.
      match goal with
      | |- context [editImageWithText env ?p ?o ?m ?t ?c] =>
        destruct (Hedit p o m t c) as [result ->]
      end.
      cbn. eauto.
    + rewrite andb_false_r. destruct (Hfile (file image)) as [base64 ->].
      destruct ii as [object|]; try discriminate Hready.
      rewrite Hc, Hm. cbn.
      match goal with
      | |- context [blendImages env ?o ?c ?m ?t1 ?t2] =>
        destruct (Hblend o c m t1 t2) as [result ->]
      end.
      cbn. eauto.
Qed.

(** Everything succeeds, with one fixed answer. *)
Definition obligingEnv : EditEnv :=
  {| compositeContext := true; maskContext := true;
     fileToDataUrl := fun _ => Resolved "AAAA"%string;
     editImageWithText := fun _ _ _ _ _ => Resolved "data:image/png;base64,CCCC"%string;
     blendImages := fun _ _ _ _ _ => Resolved "data:image/png;base64,DDDD"%string;
     insertLoads := true |}.

Lemma enabled_submit_succeeds_witness :
  let ss := run (toSelection magicFill ++ [TypePrompt "remove the object"%string])
              initialSession in
  let s' := app (shell (act ss (Submit obligingEnv))) in
  appState s' = RESULT /\ (exists result, resultData s' = Some result) /\ error s' = None.
Proof.
  apply (enabled_submit_succeeds
           (toSelection magicFill ++ [TypePrompt "remove the object"%string])
           (Submit obligingEnv)).
  - reflexivity.
  - cbn. repeat split; intros; eexists; reflexivity.
Defined.

Lemma act_offered (ss : Session) (a : Action) :
  offered ss a = true -> settles ss a = true -> act ss a = perform ss a.
Proof. intros H1 H2. unfold act. rewrite H1, H2. reflexivity. Qed.

Lemma handleFileChange_accepts (picked : Picked) (s : App) :
  String.prefix "image/" (type (pickedFile picked)) = true ->
  handleFileChange (Some picked) s
  = setUncroppedOriginalImage None
      (setResultData None
         (setError None
            (setAppState TOOL_SELECTION
               (setOriginalImage
                  (Some {| url := dataUrl picked; file := pickedFile picked;
                           width := pickedWidth picked; height := pickedHeight picked |})
                  s)))).
Proof. intros H. unfold handleFileChange. rewrite H. reflexivity. Qed.

Lemma handleReset_fields (sh : Shell) :
  appState (app (handleReset sh)) = HOME /\
  isCropping (app (handleReset sh)) = isCropping (app sh).
Proof. destruct sh as [s g]. destruct s. split; reflexivity. Qed.

Lemma handleFileChange_fields (picked : Picked) (s : App) :
  String.prefix "image/" (type (pickedFile picked)) = true ->
  let s' := handleFileChange (Some picked) s in
  appState s' = TOOL_SELECTION /\
  isCropping s' = isCropping s /\
  uncroppedOriginalImage s' = None /\
  originalImage s'
  = Some {| url := dataUrl picked; file := pickedFile picked;
            width := pickedWidth picked; height := pickedHeight picked |}.
Proof.
  intros H s'. unfold s'. rewrite (handleFileChange_accepts picked s H).
  destruct s. repeat split; reflexivity.
Qed.

Lemma handleToolSelect_edit_fields (selectedTool : Tool) (s : App) :
  selectedTool <> expand ->
  let s' := handleToolSelect selectedTool s in
  appState s' = EDITING /\
  isCropping s' = isCropping s /\
  uncroppedOriginalImage s' = uncroppedOriginalImage s /\
  originalImage s' = originalImage s.
Proof.
  intros H s'. unfold s'. destruct s.
  destruct selectedTool; [| |congruence]; repeat split; reflexivity.
Qed.

Lemma act_Home (ss : Session) :
  appState (app (shell ss)) = EDITING ->
  app (shell (act ss Home)) = app (handleReset (shell ss)).
Proof.
  intros H. rewrite act_offered; [reflexivity| |reflexivity].
  unfold offered, onScreen. rewrite H. reflexivity.
Qed.

Lemma act_EditAnImage (ss : Session) :
  appState (app (shell ss)) = HOME ->
  app (shell (act ss EditAnImage)) = setAppState IDLE (app (shell ss)).
Proof.
  intros H. rewrite act_offered; [reflexivity| |reflexivity].
  unfold offered, onScreen. rewrite H. reflexivity.
Qed.

Lemma act_Upload (ss : Session) (picked : option Picked) :
  appState (app (shell ss)) = IDLE ->
  app (shell (act ss (Upload picked))) = handleFileChange picked (app (shell ss)).
Proof.
  intros H. rewrite act_offered; [reflexivity| |reflexivity].
  unfold offered, onScreen. rewrite H. reflexivity.
Qed.

Lemma act_SelectTool (ss : Session) (selectedTool : Tool) :
  appState (app (shell ss)) = TOOL_SELECTION ->
  app (shell (act ss (SelectTool selectedTool)))
  = handleToolSelect selectedTool (app (shell ss)).
Proof.
  intros H. rewrite act_offered; [reflexivity| |reflexivity].
  unfold offered, onScreen. rewrite H. reflexivity.
Qed.

(** X19.  The Home button does not close the cropper: pressed while the
    cropper is open, it leaves [isCropping] set, so that after the next
    upload the first choice of Magic Fill or Insert opens the Editing screen
    with the cropper already on it, over the new image and without a
    Restore button. *)
Theorem home_keeps_cropper_open (ss : Session) (picked : Picked) (selectedTool : Tool) :
  cropperShown (app (shell ss)) = true ->
  String.prefix "image/" (type (pickedFile picked)) = true ->
  selectedTool <> expand ->
  let s' := app (shell (run [Home; EditAnImage; Upload (Some picked); SelectTool selectedTool]
                          ss)) in
  cropperShown s' = true /\
  showRestoreButton s' = false /\
  originalImage s'
  = Some {| url := dataUrl picked; file := pickedFile picked;
            width := pickedWidth picked; height := pickedHeight picked |}.
Proof.
  intros Hshown Hprefix Htool s'.
  assert (Hscreen : appState (app (shell ss)) = EDITING /\
                    isCropping (app (shell ss)) = true).
  { unfold cropperShown in Hshown.
    destruct (appState (app (shell ss))); try discriminate Hshown.
    destruct (originalImage (app (shell ss))); [|discriminate Hshown].
    split; [reflexivity|exact Hshown]. }
  destruct Hscreen as [Hstate Hcropping].
  unfold s'. cbn [run fold_left].
  remember (act ss Home) as ss1 eqn:E1.
  remember (act ss1 EditAnImage) as ss2 eqn:E2.
  remember (act ss2 (Upload (Some picked))) as ss3 eqn:E3.
  pose proof (act_Home ss Hstate) as A1. rewrite <- E1 in A1.
  destruct (handleReset_fields (shell ss)) as [R1 R2]. rewrite <- A1 in R1, R2.
  pose proof (act_EditAnImage ss1 R1) as A2. rewrite <- E2 in A2.
  assert (I1 : appState (app (shell ss2)) = IDLE) by (rewrite A2; reflexivity).
  assert (I2 : isCropping (app (shell ss2)) = true).
  { rewrite A2. cbn [isCropping setAppState]. rewrite R2. exact Hcropping. }
  pose proof (act_Upload ss2 (Some picked) I1) as A3. rewrite <- E3 in A3.
  destruct (handleFileChange_fields picked (app (shell ss2)) Hprefix) as (F1 & F2 & F3 & F4).
  rewrite <- A3 in F1, F2, F3, F4.
  rewrite (act_SelectTool ss3 selectedTool F1).
  destruct (handleToolSelect_edit_fields selectedTool (app (shell ss3)) Htool)
    as (T1 & T2 & T3 & T4).
  unfold cropperShown, showRestoreButton.
  rewrite T1, T2, T3, T4, F2, F3, F4, I2. repeat split.
Qed.

(** The cropper open on the sample photo. *)
Definition croppingPhoto : Session :=
  run [EditAnImage; Upload (Some pickedPhoto); SelectTool magicFill; CropImage] initialSession.

Lemma home_keeps_cropper_open_witness :
  let s' := app (shell (run [Home; EditAnImage; Upload (Some pickedSticker); SelectTool insert]
                          croppingPhoto)) in
  cropperShown s' = true /\
  showRestoreButton s' = false /\
  originalImage s'
  = Some {| url := dataUrl pickedSticker; file := pickedFile pickedSticker;
            width := pickedWidth pickedSticker; height := pickedHeight pickedSticker |}.
Proof.
  apply (home_keeps_cropper_open croppingPhoto pickedSticker insert).
  - reflexivity.
  - reflexivity.
  - discriminate.
Defined.

(** X20.  "Edit Original Again" drops the pre-crop snapshot: when the
    user then picks Magic Fill or Insert and opens the cropper, the snapshot
    taken is the current image, so "Restore Original" is on offer but gives
    back the current image, whatever was cropped away before the edit. *)
Theorem edit_again_forfeits_snapshot (s : App) (current : OriginalImage)
    (selectedTool : Tool) (editor : option Editor.Editor) :
  originalImage s = Some current ->
  selectedTool <> expand ->
  let s1 := handleStartCropping (handleToolSelect selectedTool (handleEditAgain s)) in
  showRestoreButton s1 = true /\
  uncroppedOriginalImage s1 = Some current /\
  originalImage (fst (handleRestoreOriginal s1 editor)) = Some current.
Proof.
  intros Himage Htool s1. open_app s. cbn in Himage. subst oi.
  unfold s1. destruct selectedTool; [| |congruence]; cbn; repeat split.
Qed.

(** A result obtained after cropping the sample photo. *)
Definition cropped : OriginalImage :=
  {| url := "data:image/png;base64,EEEE";
     file := {| name := "cropped_photo.png"; type := "image/png" |};
     width := 400; height := 300 |}.

Definition resultAfterCrop : App :=
  setAppState RESULT
    (setResultData (Some "data:image/png;base64,FFFF"%string)
       (setUncroppedOriginalImage (Some photo)
          (setOriginalImage (Some cropped) (handleToolSelect magicFill uploaded)))).

Lemma edit_again_forfeits_snapshot_witness :
  let s1 := handleStartCropping (handleToolSelect magicFill (handleEditAgain resultAfterCrop)) in
  showRestoreButton s1 = true /\
  uncroppedOriginalImage s1 = Some cropped /\
  originalImage (fst (handleRestoreOriginal s1 None)) = Some cropped.
Proof.
  apply (edit_again_forfeits_snapshot resultAfterCrop cropped magicFill None).
  - reflexivity.
  - discriminate.
Defined.

End SessionMoreProofs.

(** ** services/geminiService.ts and Loader.tsx *)

Module ServicesProofs.
Import DOM Services.
Local Open Scope string_scope.

Definition refusal : string :=
  "No image was generated. The model might have refused the request.".

(** The data URL made of an inline part. *)
Definition dataUrlOf (blob : Blob) : string :=
  template ["data:"; shown (mimeType blob); ";base64,"; shown (data blob)].

Lemma scanParts_skips (before : list Part) (rest : list Part) :
  Forall (fun part => inlineData part = None) before ->
  scanParts (before ++ rest) = scanParts rest.
Proof.
  induction 1 as [|part before Hpart _ IH]; [reflexivity|].
  cbn [app scanParts]. rewrite Hpart. exact IH.
Qed.

Lemma scanParts_first (before : list Part) (part : Part) (blob : Blob) (after : list Part) :
  Forall (fun p => inlineData p = None) before ->
  inlineData part = Some blob ->
  scanParts (before ++ part :: after) = Returns (dataUrlOf blob).
Proof.
  intros Hbefore Hpart. rewrite scanParts_skips by exact Hbefore.
  cbn [scanParts]. rewrite Hpart. reflexivity.
Qed.

Lemma scanParts_none (ps : list Part) :
  scanParts ps = Throws (ErrorObject refusal) <->
  Forall (fun p => inlineData p = None) ps.
Proof.
  induction ps as [|part ps IH].
  - split; [constructor | reflexivity].
  - cbn [scanParts]. destruct (inlineData part) as [blob|] eqn:Hpart.
    + split; [discriminate|]. intros Hall. apply Forall_inv in Hall.
      rewrite Hpart in Hall. discriminate Hall.
    + rewrite IH. split.
      * intros Hall. constructor; assumption.
      * intros Hall. apply Forall_inv_tail in Hall. exact Hall.
Qed.

(** X21.  [processImageResponse] returns the data URL of the first part
    of the first candidate that carries inline data, whatever text parts
    come before it and whatever follows; it throws the refusal error exactly
    when no part carries inline data. *)
Theorem processImageResponse_first_inline (response : GenerateContentResponse) :
  (forall before part blob after,
      responseParts response = (before ++ part :: after)%list ->
      Forall (fun p => inlineData p = None) before ->
      inlineData part = Some blob ->
      processImageResponse response = Returns (dataUrlOf blob)) /\
  (processImageResponse response = Throws (ErrorObject refusal) <->
   Forall (fun p => inlineData p = None) (responseParts response)).
Proof.
  unfold processImageResponse. split.
  - intros before part blob after E Hbefore Hpart.
    rewrite E. apply scanParts_first; assumption.
  - apply scanParts_none.
Qed.

(** How [App] words a caught error: [err.message || 'An unexpected error
    occurred.']. *)
Definition displayed (message : string) : string := App.orUnexpected message.

(** A rejection worded by the service named [verb]/[gerund]. *)
Definition worded (verb gerund message : string) : Prop :=
  (exists cause, message = template ["Failed to "; verb; " image: "; cause]) \/
  message = template ["An unknown error occurred while "; gerund; " the image."].

Lemma worded_displayed (verb gerund message : string) :
  worded verb gerund message -> displayed message = message.
Proof.
  intros [(cause & ->) | ->]; reflexivity.
Qed.

Section Sdk.

Variable generateContent : GenerateContentRequest -> Completion GenerateContentResponse.
Variable generateImages : GenerateImagesRequest -> Completion GenerateImagesResponse.
Variable typeErrorMessage : string.

Let editImageWithText := Services.editImageWithText generateContent.
Let blendImages := Services.blendImages generateContent.
Let expandImage := Services.expandImage generateContent.
Let generateImage := Services.generateImage generateImages typeErrorMessage.

Ltac rejection :=
  match goal with
  | |- context [match ?c with Returns _ => _ | Throws _ => _ end] =>
    destruct c as [?|[?|]]
  end.

(** X22.  Whenever one of the four services rejects, its message is
    either "Failed to <verb> image: " followed by the message of the error
    it caught, or its own "An unknown error occurred while <gerund> the
    image."; it is never empty, so the screen shows it word for word and
    never the fallback "An unexpected error occurred.". *)
Theorem rejections_are_worded :
  (forall prompt original mask mime context message,
      editImageWithText prompt original mask mime context = Rejected message ->
      worded "edit" "editing" message /\ displayed message = message) /\
  (forall original composite mask mime compositeMime message,
      blendImages original composite mask mime compositeMime = Rejected message ->
      worded "blend" "blending" message /\ displayed message = message) /\
  (forall prompt composite mime message,
      expandImage prompt composite mime = Rejected message ->
      worded "expand" "expanding" message /\ displayed message = message) /\
  (forall prompt message,
      generateImage prompt = Rejected message ->
      worded "generate" "generating" message /\ displayed message = message).
Proof.
  assert (Hboth : forall verb gerund message,
             worded verb gerund message ->
             worded verb gerund message /\ displayed message = message).
  { intros verb gerund message Hw. split; [exact Hw|].
    exact (worded_displayed verb gerund message Hw). }
  split; [|split; [|split]].
  - intros prompt original mask mime context message.
    unfold editImageWithText, Services.editImageWithText. cbv zeta.
    rejection; intros E; inversion E; apply Hboth;
      [left; eexists; reflexivity | right; reflexivity].
  - intros original composite mask mime compositeMime message.
    unfold blendImages, Services.blendImages. cbv zeta.
    rejection; intros E; inversion E; apply Hboth;
      [left; eexists; reflexivity | right; reflexivity].
  - intros prompt composite mime message.
    unfold expandImage, Services.expandImage. cbv zeta.
    rejection; intros E; inversion E; apply Hboth;
      [left; eexists; reflexivity | right; reflexivity].
  - intros prompt message.
    unfold generateImage, Services.generateImage. cbv zeta.
    rejection; intros E; inversion E; apply Hboth;
      [left; eexists; reflexivity | right; reflexivity].
Qed.

End Sdk.

(** A response holding one picture after a line of text, a model that
    always answers with it, and one that is down. *)
Definition picture : Blob := {| data := Some "CCCC"; mimeType := Some "image/png" |}.

Definition answered : GenerateContentResponse :=
  {| candidates :=
       Some [{| content :=
                  Some {| parts := Some [textPart "Here you are.";
                                         {| text := None; inlineData := Some picture |}] |} |}] |}.

Definition answering (request : GenerateContentRequest) : Completion GenerateContentResponse :=
  Returns answered.

Definition down (request : GenerateContentRequest) : Completion GenerateContentResponse :=
  Throws (ErrorObject "503").

Definition noImages (request : GenerateImagesRequest) : Completion GenerateImagesResponse :=
  Returns {| generatedImages := Some [] |}.

Lemma processImageResponse_first_inline_witness :
  processImageResponse answered = Returns (dataUrlOf picture).
Proof.
  apply (proj1 (processImageResponse_first_inline answered)
           [textPart "Here you are."] {| text := None; inlineData := Some picture |}
           picture []).
  - reflexivity.
  - constructor; [reflexivity|constructor].
  - reflexivity.
Defined.

Lemma rejections_are_worded_witness :
  worded "edit" "editing" "Failed to edit image: 503" /\
  displayed "Failed to edit image: 503" = "Failed to edit image: 503".
Proof.
  apply (proj1 (rejections_are_worded down noImages "TypeError")
           "remove the object" "AAAA" "MMMM" "image/png" None).
  reflexivity.
Defined.

(** *** A Magic Fill submission, from the button to the screen *)

Section MagicFill.
Import App.

Variable maskBase64 : Editor.ImageData -> string.
Variable compositeContext maskContext : bool.
Variable fileToDataUrl : File -> Settled string.
Variable blend :
  string -> PlacementCanvas -> PlacementCanvas -> string -> string -> Settled string.

(** X23.  A Magic Fill submission with an image, a stored mask, a prompt
    and a readable file makes one model call: model
    gemini-2.5-flash-image-preview, an instruction, then the original and
    the mask as inline parts, the mask as image/png.  If the answer carries
    a picture the Result screen shows the first one; if it carries none the
    Editing screen shows "Failed to edit image: No image was generated. The
    model might have refused the request."; if the call fails with an error
    the Editing screen shows "Failed to edit image: " and its message. *)
Theorem magic_fill_end_to_end (s : App.App) (image : OriginalImage)
    (mask : Editor.ImageData) (base64 : string) :
  tool s = Some magicFill ->
  originalImage s = Some image ->
  finalSelection s = Some (Editor.PngOf mask) ->
  nonEmpty (prompt s) = true ->
  fileToDataUrl (file image) = Resolved base64 ->
  exists instruction,
    let request :=
      {| model := "gemini-2.5-flash-image-preview";
         contents := [textPart instruction;
                      inlinePart base64 (type (file image));
                      inlinePart (maskBase64 mask) "image/png"];
         responseModalities := [IMAGE; TEXT] |} in
    forall generateContent,
      let s' := handleEditSubmit compositeContext maskContext fileToDataUrl
                  (Wiring.callEdit generateContent maskBase64) blend s in
      match generateContent request with
      | Returns response =>
        (forall before part blob after,
            responseParts response = (before ++ part :: after)%list ->
            Forall (fun p => inlineData p = None) before ->
            inlineData part = Some blob ->
            appState s' = RESULT /\ resultData s' = Some (dataUrlOf blob) /\
            error s' = None) /\
        (Forall (fun p => inlineData p = None) (responseParts response) ->
         appState s' = EDITING /\ resultData s' = resultData s /\
         error s' = Some (template ["Failed to edit image: "; refusal]))
      | Throws (ErrorObject message) =>
        appState s' = EDITING /\ resultData s' = resultData s /\
        error s' = Some (template ["Failed to edit image: "; message])
      | Throws OtherValue =>
        appState s' = EDITING /\ resultData s' = resultData s /\
        error s' = Some "An unknown error occurred while editing the image."
      end.
Proof.
  intros Htool Himage Hmask Hprompt Hfile.
  eexists. intros request generateContent s'.
  unfold s', request, handleEditSubmit. rewrite Himage, Htool, Hmask, Hfile, Hprompt.
  cbn [selected Editor.truthy negb andb].
  unfold Wiring.callEdit, Services.editImageWithText, Wiring.selectionString. cbv zeta.
  match goal with
  | |- context [textPart (match ?c with EmptyString => ?a | String _ _ => _ end)] =>
    match goal with
    | |- context [textPart ?e] =>
      is_evar e; unify e (match c with EmptyString => a | String ch rest =>
                            template ["You are an expert in "; String ch rest; ". "; a] end)
    end
  end.
  match goal with
  | |- context [generateContent ?r] =>
    destruct (generateContent r) as [response|[message|]]
  end; cbv beta iota.
  - unfold processImageResponse. split.
    + intros before part blob after E Hbefore Hpart.
      rewrite E, (scanParts_first before part blob after Hbefore Hpart). repeat split.
    + intros Hall. apply scanParts_none in Hall. rewrite Hall. repeat split.
  - repeat split.
  - repeat split.
Qed.

End MagicFill.

(** Magic Fill ready to submit on the sample photo. *)
Definition fillSubmission : App.App :=
  App.setPrompt "remove the object"
    (App.handleNextStep true (Some EditorProofs.sampleEditor)
       (App.handleToolSelect App.magicFill Samples.uploaded)).

Definition sampleMask : Editor.ImageData :=
  match App.finalSelection fillSubmission with
  | Some (Editor.PngOf img) => img
  | _ => {| Editor.data := []; Editor.sw := 0; Editor.sh := 0 |}
  end.

Definition readsFile (f : App.File) : Settled string := Resolved "AAAA".

Definition encodeMask (img : Editor.ImageData) : string := "MMMM".

Definition noBlend (original : string) (composite mask : App.PlacementCanvas)
    (mime insertMime : string) : Settled string :=
  Rejected "unused".

Lemma magic_fill_end_to_end_witness :
  exists instruction,
    let request :=
      {| model := "gemini-2.5-flash-image-preview";
         contents := [textPart instruction;
                      inlinePart "AAAA" (App.type (App.file Samples.photo));
                      inlinePart (encodeMask sampleMask) "image/png"];
         responseModalities := [IMAGE; TEXT] |} in
    let s' := App.handleEditSubmit true true readsFile
                (Wiring.callEdit answering encodeMask) noBlend fillSubmission in
    match answering request with
    | Returns response =>
      (forall before part blob after,
          responseParts response = (before ++ part :: after)%list ->
          Forall (fun p => inlineData p = None) before ->
          inlineData part = Some blob ->
          App.appState s' = App.RESULT /\ App.resultData s' = Some (dataUrlOf blob) /\
          App.error s' = None) /\
      (Forall (fun p => inlineData p = None) (responseParts response) ->
       App.appState s' = App.EDITING /\ App.resultData s' = App.resultData fillSubmission /\
       App.error s' = Some (template ["Failed to edit image: "; refusal]))
    | Throws (ErrorObject message) =>
      App.appState s' = App.EDITING /\ App.resultData s' = App.resultData fillSubmission /\
      App.error s' = Some (template ["Failed to edit image: "; message])
    | Throws OtherValue =>
      App.appState s' = App.EDITING /\ App.resultData s' = App.resultData fillSubmission /\
      App.error s' = Some "An unknown error occurred while editing the image."
    end.
Proof.
  destruct (magic_fill_end_to_end encodeMask true true readsFile noBlend fillSubmission
              Samples.photo sampleMask "AAAA"
              eq_refl eq_refl eq_refl eq_refl eq_refl) as [instruction H].
  exists instruction. exact (H answering).
Defined.

End ServicesProofs.

(** ** Loader.tsx *)

Module LoaderProofs.
Import Loader.

(** The loader after [n] firings of its interval. *)
Definition after (n : nat) (message : string) : Loader := Nat.iter n tick (mount message).

Lemma after_S (n : nat) (message : string) :
  after (S n) message = tick (after n message).
Proof. reflexivity. Qed.

Lemma currentIndex_after (n : nat) (message : string) :
  currentIndex (after n message) = (n mod 5)%nat.
Proof.
  induction n as [|n IH]; [reflexivity|].
  rewrite after_S. unfold tick. cbn [currentIndex].
  rewrite IH. change (length MESSAGES) with 5%nat.
  replace (S n) with (n + 1)%nat by lia.
  rewrite (Nat.Div0.add_mod n 1 5), (Nat.Div0.add_mod (n mod 5) 1 5).
  rewrite Nat.Div0.mod_mod. reflexivity.
Qed.

(** X24.  Whatever message the loader is mounted with, from its first
    firing (2.5 seconds in) on it shows the stock messages in order, number
    [n mod 5] after [n] firings, and so repeats every five; the message it
    was given is on display only before the first firing, or when left
    empty replaced by the first stock message. *)
Theorem loader_rotates (message : string) (n : nat) :
  (0 < n)%nat ->
  displayMessage (after n message) = nth (n mod 5) MESSAGES EmptyString /\
  In (displayMessage (after n message)) MESSAGES /\
  displayMessage (after (n + 5) message) = displayMessage (after n message) /\
  displayMessage (after 0 message)
  = (if String.eqb message EmptyString then "Applying AI magic..." else message)%string.
Proof.
  intros Hn.
  assert (Hshow : forall m, (0 < m)%nat ->
             displayMessage (after m message) = nth (m mod 5) MESSAGES EmptyString).
  { intros m Hm. destruct m as [|m]; [lia|].
    rewrite after_S. unfold tick. cbn [displayMessage].
    rewrite currentIndex_after.
    change (length MESSAGES) with 5%nat.
    replace (S m) with (m + 1)%nat by lia.
    rewrite (Nat.Div0.add_mod m 1 5), (Nat.Div0.add_mod (m mod 5) 1 5).
    rewrite Nat.Div0.mod_mod. reflexivity. }
  split; [apply Hshow; exact Hn|].
  split.
  { rewrite Hshow by exact Hn. apply nth_In. change (length MESSAGES) with 5%nat.
    apply Nat.mod_upper_bound. discriminate. }
  split.
  { rewrite !Hshow by lia. f_equal.
    rewrite (Nat.Div0.add_mod n 5 5). change (5 mod 5)%nat with 0%nat.
    rewrite Nat.add_0_r. apply Nat.Div0.mod_mod. }
  destruct message; reflexivity.
Qed.

Lemma loader_rotates_witness :
  displayMessage (after 7 "Blending image...")
  = nth (7 mod 5) MESSAGES EmptyString /\
  In (displayMessage (after 7 "Blending image...")) MESSAGES /\
  displayMessage (after (7 + 5) "Blending image...")
  = displayMessage (after 7 "Blending image...") /\
  displayMessage (after 0 "Blending image...")
  = (if String.eqb "Blending image..." EmptyString
     then "Applying AI magic..." else "Blending image...")%string.
Proof.
  apply (loader_rotates "Blending image..." 7). lia.
Defined.

End LoaderProofs.
